(** * NexOS self-evolution core: security, AI engine and kernel cycle

    A shallow embedding of the self-evolution loop of NexOS
    (kernel/kernel.c, ai_engine/ai_engine.c, security/security.c) and the
    properties of its verification gate, rollback log, optimization
    history, learning step and enable switch.

    Conventions of the embedding:
    - [uint32_t]/[uint64_t] fields are [Z]; an increment that can wrap is
      written with its modulus, a saturating one with its guard;
    - a C pointer to a buffer is an [option]: [None] is [NULL];
    - [float] is IEEE-754 binary32, computed with the Standard Library's
      [SpecFloat] at precision 24 and maximal exponent 128;
    - the static [..._state] structs are records threaded through the
      functions, which return the error code together with the new state;
    - calls that leave the core ([memory_allocate], [memory_free], the
      metric providers, the patch applier) are inputs or emitted events. *)

From Stdlib Require Import ZArith Floats.SpecFloat.
From stdpp Require Import base numbers list strings.

Open Scope Z_scope.

(** ** kernel/kernel.h: error codes *)

Inductive error_code_t :=
  | ERROR_NONE
  | ERROR_MEMORY_ALLOCATION
  | ERROR_INVALID_PARAMETER
  | ERROR_RESOURCE_BUSY
  | ERROR_NOT_IMPLEMENTED
  | ERROR_PERMISSION_DENIED
  | ERROR_TIMEOUT
  | ERROR_UNKNOWN.

#[global] Instance error_code_eq_dec : EqDecision error_code_t :=
  ltac:(solve_decision).

(** The modulus of [uint32_t] arithmetic. *)
Definition uint32_modulus : Z := 2 ^ 32.

(** ** security/security.h: data model *)

Inductive security_policy_t :=
  | SECURITY_POLICY_PERMISSIVE
  | SECURITY_POLICY_STANDARD
  | SECURITY_POLICY_STRICT
  | SECURITY_POLICY_PARANOID.

#[global] Instance security_policy_eq_dec : EqDecision security_policy_t :=
  ltac:(solve_decision).

Record security_policy_descriptor_t := mk_policy {
  level : security_policy_t;
  allow_self_evolution : bool;
  allow_kernel_modifications : bool;
  allow_driver_modifications : bool;
  allow_memory_layout_changes : bool;
  allow_scheduler_modifications : bool;
  require_verification : bool;
  require_rollback_capability : bool;
  max_patch_size : Z;
  max_patches_per_cycle : Z
}.

(** [patch_descriptor_t]; the fields carry the prefix [pd_] because [id]
    and [size] are taken. *)
Record patch_descriptor_t := mk_patch {
  pd_id : Z;
  pd_size : Z;
  pd_timestamp : Z;
  pd_target_module : Z;
  pd_target_offset : Z;
  pd_original_size : Z;
  pd_original_code : option (list Z);
  pd_patch_code : option (list Z);
  pd_applied : bool;
  pd_verified : bool
}.

(** [rollback_entry_t], fields prefixed [re_]. *)
Record rollback_entry_t := mk_entry {
  re_patch_id : Z;
  re_apply_timestamp : Z;
  re_original_code : option (list Z);
  re_original_size : Z;
  re_target_module : Z;
  re_target_offset : Z
}.

(** [rollback_log_t]: the saturating count and the heap array of 100
    entries. *)
Record rollback_log_t := mk_log {
  rl_entry_count : Z;
  rl_entries : list rollback_entry_t
}.

(** The static [security_state] of security.c. *)
Record security_state_t := mk_security {
  sec_initialized : bool;
  policy : security_policy_descriptor_t;
  rollback_log : rollback_log_t;
  next_patch_id : Z
}.

Definition set_verified (p : patch_descriptor_t) (b : bool) : patch_descriptor_t :=
  mk_patch (pd_id p) (pd_size p) (pd_timestamp p) (pd_target_module p)
           (pd_target_offset p) (pd_original_size p) (pd_original_code p)
           (pd_patch_code p) (pd_applied p) b.

Definition set_entry_patch_id (e : rollback_entry_t) (v : Z) : rollback_entry_t :=
  mk_entry v (re_apply_timestamp e) (re_original_code e) (re_original_size e)
           (re_target_module e) (re_target_offset e).

Definition set_policy_field (st : security_state_t)
    (p : security_policy_descriptor_t) : security_state_t :=
  mk_security (sec_initialized st) p (rollback_log st) (next_patch_id st).

Definition set_rollback_log (st : security_state_t)
    (l : rollback_log_t) : security_state_t :=
  mk_security (sec_initialized st) (policy st) l (next_patch_id st).

(** The zero-filled struct of [static ... security_state = {0}]. *)
Definition zero_policy : security_policy_descriptor_t :=
  mk_policy SECURITY_POLICY_PERMISSIVE false false false false false false false 0 0.

Definition zero_entry : rollback_entry_t := mk_entry 0 0 None 0 0 0.

Definition security_state_zero : security_state_t :=
  mk_security false zero_policy (mk_log 0 []) 0.

(** ** security/security.c *)

Module Security.

(** The bundle [security_set_policy] writes for each level (the four
    [case] arms of its [switch]). *)
Definition policy_bundle (lv : security_policy_t) : security_policy_descriptor_t :=
  match lv with
  | SECURITY_POLICY_PERMISSIVE =>
      mk_policy lv true true true true true true true 8192 10
  | SECURITY_POLICY_STANDARD =>
      mk_policy lv true true true true true true true 4096 5
  | SECURITY_POLICY_STRICT =>
      mk_policy lv true false true false true true true 2048 3
  | SECURITY_POLICY_PARANOID =>
      mk_policy lv false false false false false true true 1024 1
  end.

(** [security_init]. [fresh] is what [memory_allocate] hands back for the
    100-entry array: [None] for [NULL], otherwise the array with whatever
    the allocator left in it. *)
Definition security_init (st : security_state_t)
    (fresh : option (list rollback_entry_t)) : error_code_t * security_state_t :=
  if sec_initialized st then (ERROR_NONE, st)
  else
    let pol := mk_policy SECURITY_POLICY_STANDARD true true true true true
                         true true 4096 5 in
    match fresh with
    | None =>
        (ERROR_MEMORY_ALLOCATION,
         mk_security false pol (mk_log 0 []) (next_patch_id st))
    | Some arr =>
        (ERROR_NONE, mk_security true pol (mk_log 0 arr) 1)
    end.

(** [security_set_policy]: the level is stored, then the switch assigns
    every flag and both limits. *)
Definition security_set_policy (st : security_state_t)
    (lv : security_policy_t) : error_code_t * security_state_t :=
  if negb (sec_initialized st) then (ERROR_NOT_IMPLEMENTED, st)
  else
    let p0 := policy st in
    let p1 := mk_policy lv (allow_self_evolution p0) (allow_kernel_modifications p0)
                (allow_driver_modifications p0) (allow_memory_layout_changes p0)
                (allow_scheduler_modifications p0) (require_verification p0)
                (require_rollback_capability p0) (max_patch_size p0)
                (max_patches_per_cycle p0) in
    let p2 :=
      match lv with
      | SECURITY_POLICY_PERMISSIVE =>
          mk_policy (level p1) true true true true true true true 8192 10
      | SECURITY_POLICY_STANDARD =>
          mk_policy (level p1) true true true true true true true 4096 5
      | SECURITY_POLICY_STRICT =>
          mk_policy (level p1) true false true false true true true 2048 3
      | SECURITY_POLICY_PARANOID =>
          mk_policy (level p1) false false false false false true true 1024 1
      end in
    (ERROR_NONE, set_policy_field st p2).

(** [security_get_policy]: a [memcpy] of the descriptor. *)
Definition security_get_policy (st : security_state_t)
    : error_code_t * option security_policy_descriptor_t :=
  if negb (sec_initialized st) then (ERROR_NOT_IMPLEMENTED, None)
  else (ERROR_NONE, Some (policy st)).

(** [security_verify_patch (void* patch, uint32_t size)]. The result
    carries the descriptor as the call leaves it ([verified] set on
    success only). The checks run in the order of the source: the [size]
    argument, the target module against the policy, then the backup and
    the payload. *)
Definition security_verify_patch (st : security_state_t)
    (patch : option patch_descriptor_t) (size : Z)
    : error_code_t * option patch_descriptor_t :=
  if negb (sec_initialized st) then (ERROR_NOT_IMPLEMENTED, patch)
  else
    match patch with
    | None => (ERROR_INVALID_PARAMETER, patch)
    | Some patch_desc =>
        if size =? 0 then (ERROR_INVALID_PARAMETER, patch)
        else if size >? max_patch_size (policy st) then (ERROR_INVALID_PARAMETER, patch)
        else
          let module_check :=
            match pd_target_module patch_desc with
            | 0 => if negb (allow_kernel_modifications (policy st))
                   then ERROR_PERMISSION_DENIED else ERROR_NONE
            | 1 => if negb (allow_driver_modifications (policy st))
                   then ERROR_PERMISSION_DENIED else ERROR_NONE
            | 2 => if negb (allow_memory_layout_changes (policy st))
                   then ERROR_PERMISSION_DENIED else ERROR_NONE
            | 3 => if negb (allow_scheduler_modifications (policy st))
                   then ERROR_PERMISSION_DENIED else ERROR_NONE
            | _ => ERROR_INVALID_PARAMETER
            end in
          match module_check with
          | ERROR_NONE =>
              if bool_decide (pd_original_code patch_desc = None)
                 || (pd_original_size patch_desc =? 0)
              then (ERROR_INVALID_PARAMETER, patch)
              else if bool_decide (pd_patch_code patch_desc = None)
                      || (pd_size patch_desc =? 0)
              then (ERROR_INVALID_PARAMETER, patch)
              else (ERROR_NONE, Some (set_verified patch_desc true))
          | err => (err, patch)
          end
    end.

(** [security_check_evolution_permission]. *)
Definition security_check_evolution_permission (st : security_state_t) : error_code_t :=
  if negb (sec_initialized st) then ERROR_NOT_IMPLEMENTED
  else if negb (allow_self_evolution (policy st)) then ERROR_PERMISSION_DENIED
  else ERROR_NONE.

(** [security_create_rollback_entry]. [alloc_ok] tells whether the
    [memory_allocate] for the backup copy succeeds. The slot is
    [entry_count % 100]; its id and timestamp are written before the
    allocation is tested; the count grows only below 100. The [memcpy]
    copies [original_size] bytes of the patch's backup. *)
Definition security_create_rollback_entry (st : security_state_t)
    (patch : option patch_descriptor_t) (alloc_ok : bool)
    : error_code_t * security_state_t :=
  if negb (sec_initialized st) then (ERROR_NOT_IMPLEMENTED, st)
  else
    match patch with
    | None => (ERROR_INVALID_PARAMETER, st)
    | Some p =>
        if require_rollback_capability (policy st) then
          let log := rollback_log st in
          let entry_index := Z.to_nat (rl_entry_count log mod 100) in
          let old := default zero_entry (rl_entries log !! entry_index) in
          let e1 := mk_entry (pd_id p) (pd_timestamp p) (re_original_code old)
                      (re_original_size old) (re_target_module old)
                      (re_target_offset old) in
          if negb alloc_ok then
            let e2 := mk_entry (re_patch_id e1) (re_apply_timestamp e1) None
                        (re_original_size e1) (re_target_module e1)
                        (re_target_offset e1) in
            (ERROR_MEMORY_ALLOCATION,
             set_rollback_log st
               (mk_log (rl_entry_count log) (<[entry_index := e2]> (rl_entries log))))
          else
            let copy := take (Z.to_nat (pd_original_size p))
                             (default [] (pd_original_code p)) in
            let e3 := mk_entry (pd_id p) (pd_timestamp p) (Some copy)
                        (pd_original_size p) (pd_target_module p)
                        (pd_target_offset p) in
            let count' := if rl_entry_count log <? 100
                          then rl_entry_count log + 1
                          else rl_entry_count log in
            (ERROR_NONE,
             set_rollback_log st
               (mk_log count' (<[entry_index := e3]> (rl_entries log))))
        else (ERROR_NONE, st)
    end.

(** The entries the loops of security.c look at: indices below
    [entry_count]. *)
Definition log_window (st : security_state_t) : list rollback_entry_t :=
  take (Z.to_nat (rl_entry_count (rollback_log st))) (rl_entries (rollback_log st)).

(** The search loop of [security_rollback_patch]: the first index below
    [entry_count] whose entry carries [patch_id]. *)
Definition find_rollback_entry (st : security_state_t) (patch_id : Z)
    : option (nat * rollback_entry_t) :=
  list_find (λ e, re_patch_id e = patch_id) (log_window st).

(** What a rollback does outside the state: the slot it reverts and the
    entry whose backup it hands to [memory_free]. *)
Record rollback_event := mk_event {
  ev_slot : nat;
  ev_entry : rollback_entry_t
}.

(** [security_rollback_patch]. The pointer field is left as it is after
    [memory_free]; only the id is reset. *)
Definition security_rollback_patch (st : security_state_t) (patch_id : Z)
    : error_code_t * security_state_t * list rollback_event :=
  if negb (sec_initialized st) then (ERROR_NOT_IMPLEMENTED, st, [])
  else
    match find_rollback_entry st patch_id with
    | None => (ERROR_INVALID_PARAMETER, st, [])
    | Some (i, entry) =>
        let log := rollback_log st in
        (ERROR_NONE,
         set_rollback_log st
           (mk_log (rl_entry_count log)
                   (<[i := set_entry_patch_id entry 0]> (rl_entries log))),
         [mk_event i entry])
    end.

(** The loop of [security_rollback_all], [for (i = entry_count - 1; i >= 0; i--)]:
    [rollback_all_loop n] runs the iterations [i = n-1, ..., 0]. *)
Fixpoint rollback_all_loop (n : nat) (st : security_state_t)
    (trace : list rollback_event) : security_state_t * list rollback_event :=
  match n with
  | O => (st, trace)
  | S i =>
      match rl_entries (rollback_log st) !! i with
      | Some entry =>
          if negb (re_patch_id entry =? 0) then
            let '(_, st', evs) := security_rollback_patch st (re_patch_id entry) in
            rollback_all_loop i st' (trace ++ evs)
          else rollback_all_loop i st trace
      | None => rollback_all_loop i st trace
      end
  end.

Definition security_rollback_all (st : security_state_t)
    : error_code_t * security_state_t * list rollback_event :=
  if negb (sec_initialized st) then (ERROR_NOT_IMPLEMENTED, st, [])
  else
    let '(st', trace) :=
      rollback_all_loop (Z.to_nat (rl_entry_count (rollback_log st))) st [] in
    (ERROR_NONE, st', trace).

End Security.

(** ** binary32 arithmetic for the [float] fields

    Every [float] operation of the sources is one binary32 operation
    rounded to nearest, ties to even: operands and results of type
    [float], no wider intermediate format and no fused multiply-add. *)

Module Float32.

Definition float32 : Type := spec_float.

Definition prec : Z := 24.
Definition emax : Z := 128.

Definition of_Z (z : Z) : float32 := binary_normalize prec emax z 0 false.
Definition add : float32 -> float32 -> float32 := SFadd prec emax.
Definition mul : float32 -> float32 -> float32 := SFmul prec emax.
Definition div : float32 -> float32 -> float32 := SFdiv prec emax.
Definition ltb : float32 -> float32 -> bool := SFltb.

(** The binary32 nearest to the decimal [n / d]: one correctly rounded
    division of two exactly represented integers, which is how a C
    compiler reads a literal such as [0.9f]. *)
Definition decimal (n d : Z) : float32 := div (of_Z n) (of_Z d).

Definition zero : float32 := S754_zero false.
Definition f0_1 : float32 := Eval vm_compute in decimal 1 10.
Definition f0_2 : float32 := Eval vm_compute in decimal 2 10.
Definition f0_25 : float32 := Eval vm_compute in decimal 25 100.
Definition f0_3 : float32 := Eval vm_compute in decimal 3 10.
Definition f0_5 : float32 := Eval vm_compute in decimal 5 10.
Definition f0_7 : float32 := Eval vm_compute in decimal 7 10.
Definition f0_9 : float32 := Eval vm_compute in decimal 9 10.
Definition f60 : float32 := Eval vm_compute in of_Z 60.
Definition f100 : float32 := Eval vm_compute in of_Z 100.

End Float32.

Import Float32.

(** ** memory/memory.h, scheduler/scheduler.h, ai_engine/ai_engine.h: data model *)

Record memory_metrics_t := mk_memory_metrics {
  total_physical_memory : Z;
  free_physical_memory : Z;
  total_virtual_memory : Z;
  free_virtual_memory : Z;
  page_fault_count : Z;
  allocation_count : Z;
  free_count : Z;
  peak_memory_usage : Z;
  fragmentation_ratio : float32
}.

Record scheduler_metrics_t := mk_scheduler_metrics {
  total_cpu_time : Z;
  idle_cpu_time : Z;
  context_switch_count : Z;
  preemption_count : Z;
  cpu_utilization : float32;
  average_wait_time : float32;
  average_turnaround_time : float32;
  average_response_time : float32;
  priority_inversions : Z
}.

Record performance_metrics_t := mk_performance_metrics {
  pm_memory : memory_metrics_t;
  pm_scheduler : scheduler_metrics_t;
  pm_io_operations : Z;
  pm_network_bytes : Z;
  pm_power_usage : float32;
  pm_error_count : Z;
  pm_uptime : Z
}.

Inductive ai_model_type_t :=
  | AI_MODEL_PERFORMANCE
  | AI_MODEL_MEMORY
  | AI_MODEL_SCHEDULER
  | AI_MODEL_POWER
  | AI_MODEL_SECURITY
  | AI_MODEL_CODE.

#[global] Instance ai_model_type_eq_dec : EqDecision ai_model_type_t :=
  ltac:(solve_decision).

(** The enumerator's value, which indexes the static [models[6]]. *)
Definition model_index (t : ai_model_type_t) : nat :=
  match t with
  | AI_MODEL_PERFORMANCE => 0
  | AI_MODEL_MEMORY => 1
  | AI_MODEL_SCHEDULER => 2
  | AI_MODEL_POWER => 3
  | AI_MODEL_SECURITY => 4
  | AI_MODEL_CODE => 5
  end%nat.

Record ai_model_t := mk_model {
  model_type : ai_model_type_t;
  model_data : option (list Z);
  model_size : Z;
  version : Z;
  last_updated : Z;
  inference_count : Z;
  accuracy : float32
}.

(** [optimization_suggestion_t], fields prefixed [sg_]. The advisory
    payload is the list of 32-bit words it points to. *)
Record optimization_suggestion_t := mk_suggestion {
  sg_id : Z;
  sg_description : string;
  sg_expected_improvement : float32;
  sg_confidence : Z;
  sg_optimization_data : option (list Z);
  sg_data_size : Z
}.

(** One slot of [optimization_history_t.entries], fields prefixed [he_]. *)
Record history_entry_t := mk_history_entry {
  he_timestamp : Z;
  he_suggestion_id : Z;
  he_actual_improvement : float32;
  he_reverted : bool
}.

Record optimization_history_t := mk_history {
  oh_entry_count : Z;
  oh_entries : list history_entry_t
}.

(** The static [ai_state] of ai_engine.c (without the process profiles)
    and, next to it, the static [models] array. *)
Record ai_state_t := mk_ai_state {
  ai_initialized : bool;
  last_collection_time : Z;
  ai_last_analysis_time : Z;
  last_learning_time : Z;
  last_metrics : performance_metrics_t;
  history : optimization_history_t
}.

Record ai_engine_t := mk_ai_engine {
  ai_state : ai_state_t;
  models : list ai_model_t
}.

Definition set_accuracy (m : ai_model_t) (a : float32) : ai_model_t :=
  mk_model (model_type m) (model_data m) (model_size m) (version m)
           (last_updated m) (inference_count m) a.

Definition zero_history_entry : history_entry_t :=
  mk_history_entry 0 0 zero false.

Definition zero_history : optimization_history_t :=
  mk_history 0 (replicate 100 zero_history_entry).

Definition zero_suggestion : optimization_suggestion_t :=
  mk_suggestion 0 EmptyString zero 0 None 0.

(** A zero-filled [performance_metrics_t]. *)
Definition zero_metrics : performance_metrics_t :=
  mk_performance_metrics
    (mk_memory_metrics 0 0 0 0 0 0 0 0 zero)
    (mk_scheduler_metrics 0 0 0 0 zero zero zero zero 0)
    0 0 zero 0 0.

(** A generated patch as the engine hands it on: the raw buffer and its
    size from the trailing size table. *)
Definition patch_buffer : Type := list Z.

(** The places where the core calls [memory_allocate]. *)
Inductive alloc_site :=
  | AllocSuggestions
  | AllocOptimizationData
  | AllocPatchArray
  | AllocPatch (suggestion_index : nat).

(** ** The collaborators of the core

    Everything the cycle obtains from outside itself: the allocator's
    verdict per call site and the content of a freshly allocated
    suggestion array, the three metric providers, and what the kernel
    does with a generated buffer: read its size, have its header read,
    apply it. *)
Record platform := mk_platform {
  memory_allocate : alloc_site -> bool;
  fresh_suggestions : list optimization_suggestion_t;
  memory_get_metrics : error_code_t * memory_metrics_t;
  scheduler_get_metrics : error_code_t * scheduler_metrics_t;
  (** [io_get_metrics]: the error code and [completed_requests] *)
  io_get_metrics : error_code_t * Z;
  (** the kernel's read [((uint32_t* )patches)[patch_count + i]] of the
      size of patch [i], given the generated array and [patch_count]; the
      generator stores the sizes behind [suggestion_count] pointers, so
      the read returns the stored size where pointers are four bytes wide
      and every suggestion produced a patch *)
  patch_size_read : list (patch_buffer * Z) -> Z -> nat -> Z;
  (** the cast [(patch_descriptor_t* )patch] of [security_verify_patch]
      applied to a generated buffer: the descriptor the verifier reads
      at that address *)
  patch_header : patch_buffer -> patch_descriptor_t;
  (** Modelled from the spec: [self_evolution_apply_patch] is declared in
      kernel.h and called by the cycle, its body is not part of the
      sources. The spec's external primitive
      [applyPatch(...) -> Success|Fails] is opaque to the core: it
      answers with an error code and touches none of the core's state. *)
  self_evolution_apply_patch : patch_buffer -> Z -> error_code_t
}.

(** ** ai_engine/ai_engine.c *)

Module AiEngine.

Section WithPlatform.

Context (P : platform).

Definition set_last_analysis_time (a : ai_state_t) (t : Z) : ai_state_t :=
  mk_ai_state (ai_initialized a) (last_collection_time a) t
              (last_learning_time a) (last_metrics a) (history a).

Definition set_last_learning_time (a : ai_state_t) (t : Z) : ai_state_t :=
  mk_ai_state (ai_initialized a) (last_collection_time a)
              (ai_last_analysis_time a) t (last_metrics a) (history a).

(** [ai_engine_collect_metrics]. A failing memory or scheduler provider
    ends the call with its error; a failing I/O provider only zeroes
    [io_operations]. The fields the function never assigns keep what
    the caller's struct held. *)
Definition ai_engine_collect_metrics (e : ai_engine_t)
    (metrics : option performance_metrics_t)
    : error_code_t * ai_engine_t * option performance_metrics_t :=
  if negb (ai_initialized (ai_state e)) then (ERROR_NOT_IMPLEMENTED, e, metrics)
  else
    match metrics with
    | None => (ERROR_INVALID_PARAMETER, e, metrics)
    | Some m =>
        let '(err_mem, memory_metrics) := memory_get_metrics P in
        if bool_decide (err_mem ≠ ERROR_NONE) then (err_mem, e, metrics)
        else
          let m1 := mk_performance_metrics memory_metrics (pm_scheduler m)
                      (pm_io_operations m) (pm_network_bytes m) (pm_power_usage m)
                      (pm_error_count m) (pm_uptime m) in
          let '(err_sched, scheduler_metrics) := scheduler_get_metrics P in
          if bool_decide (err_sched ≠ ERROR_NONE) then (err_sched, e, Some m1)
          else
            let '(err_io, completed_requests) := io_get_metrics P in
            let io_operations :=
              if bool_decide (err_io ≠ ERROR_NONE) then 0 else completed_requests in
            let m3 := mk_performance_metrics memory_metrics scheduler_metrics
                        io_operations (pm_network_bytes m) (pm_power_usage m)
                        (pm_error_count m) (pm_uptime m) in
            let a := ai_state e in
            (ERROR_NONE,
             mk_ai_engine
               (mk_ai_state (ai_initialized a) (pm_uptime m3)
                  (ai_last_analysis_time a) (last_learning_time a) m3
                  (history a))
               (models e),
             Some m3)
    end.

(** The placeholder loop at the end of [ai_engine_analyze_performance]:
    [models[i].accuracy = 0.7f + (float)i / 60.0f; models[i].inference_count++]. *)
Definition placeholder_accuracy (i : nat) (m : ai_model_t) : ai_model_t :=
  mk_model (model_type m) (model_data m) (model_size m) (version m)
           (last_updated m) ((inference_count m + 1) mod 2 ^ 64)
           (add f0_7 (div (of_Z (Z.of_nat i)) f60)).

(** [ai_engine_analyze_performance]. The three rules fire in source
    order, each writing the slot [suggestion_count] of the freshly
    allocated array and advancing the count; slots no rule writes keep the
    allocator's content. The result is the array handed back through
    [*suggestions]. *)
Definition ai_engine_analyze_performance (e : ai_engine_t)
    (metrics : option performance_metrics_t)
    : error_code_t * ai_engine_t * option (list optimization_suggestion_t) :=
  if negb (ai_initialized (ai_state e)) then (ERROR_NOT_IMPLEMENTED, e, None)
  else
    match metrics with
    | None => (ERROR_INVALID_PARAMETER, e, None)
    | Some m =>
        if negb (memory_allocate P AllocSuggestions)
        then (ERROR_MEMORY_ALLOCATION, e, None)
        else
          let arr0 := fresh_suggestions P in
          let n0 := 0%nat in
          let '(arr1, n1) :=
            if ltb f0_5 (fragmentation_ratio (pm_memory m))
            then (<[n0 := mk_suggestion 1 "Memory defragmentation recommended"
                            f0_3 80 None 0]> arr0, S n0)
            else (arr0, n0) in
          let '(arr2, n2) :=
            if ltb f100 (average_wait_time (pm_scheduler m))
            then
              let s :=
                if memory_allocate P AllocOptimizationData
                then mk_suggestion 2 "Scheduler time slice adjustment recommended"
                       f0_2 70 (Some [5]) 4
                else mk_suggestion 2 "Scheduler time slice adjustment recommended"
                       f0_2 70 None 0 in
              (<[n1 := s]> arr1, S n1)
            else (arr1, n1) in
          let '(arr3, n3) :=
            if (pm_io_operations m >? 1000)
               && ltb (cpu_utilization (pm_scheduler m)) f0_5
            then (<[n2 := mk_suggestion 3 "I/O scheduling policy adjustment recommended"
                            f0_25 65 None 0]> arr2, S n2)
            else (arr2, n2) in
          let models' :=
            foldl (λ ms i, alter (placeholder_accuracy i) i ms) (models e) (seq 0 6) in
          (ERROR_NONE,
           mk_ai_engine (set_last_analysis_time (ai_state e) (pm_uptime m)) models',
           Some arr3)
    end.

(** [while (suggestion_count < 10 && opt_suggestions[suggestion_count].id != 0)]. *)
Fixpoint count_valid_suggestions (arr : list optimization_suggestion_t)
    (suggestion_count fuel : nat) : nat :=
  match fuel with
  | O => suggestion_count
  | S fuel' =>
      match arr !! suggestion_count with
      | Some s =>
          if sg_id s =? 0 then suggestion_count
          else count_valid_suggestions arr (S suggestion_count) fuel'
      | None => suggestion_count
      end
  end.

(** The 16 placeholder bytes: [memset(patch, 0xCC, 16); patch[0] = 0xE8]. *)
Definition placeholder_patch : patch_buffer := <[0%nat := 232]> (replicate 16 204).

(** One iteration of the generation loop: [acc] is the filled prefix of
    [patch_array] with its sizes, so appending is the write at
    [valid_patch_count]. *)
Definition generate_patch_step (arr : list optimization_suggestion_t)
    (acc : list (patch_buffer * Z)) (i : nat) : list (patch_buffer * Z) :=
  match arr !! i with
  | None => acc
  | Some suggestion =>
      if sg_confidence suggestion <? 60 then acc
      else
        match sg_id suggestion with
        | 1 =>
            if negb (memory_allocate P (AllocPatch i)) then acc
            else acc ++ [(placeholder_patch, 16)]
        | 2 =>
            if negb (memory_allocate P (AllocPatch i)) then acc
            else acc ++ [(placeholder_patch, 16)]
        | 3 =>
            if negb (memory_allocate P (AllocPatch i)) then acc
            else acc ++ [(placeholder_patch, 16)]
        | _ => acc
        end
  end.

(** [ai_engine_generate_patches]: the patch array ([None] for [NULL])
    and [*patch_count]. *)
Definition ai_engine_generate_patches (e : ai_engine_t)
    (suggestions : option (list optimization_suggestion_t))
    : error_code_t * option (list (patch_buffer * Z)) * Z :=
  if negb (ai_initialized (ai_state e)) then (ERROR_NOT_IMPLEMENTED, None, 0)
  else
    match suggestions with
    | None => (ERROR_INVALID_PARAMETER, None, 0)
    | Some opt_suggestions =>
        let suggestion_count := count_valid_suggestions opt_suggestions 0 10 in
        if (suggestion_count =? 0)%nat then (ERROR_NONE, None, 0)
        else if negb (memory_allocate P AllocPatchArray)
        then (ERROR_MEMORY_ALLOCATION, None, 0)
        else
          let patch_array :=
            foldl (generate_patch_step opt_suggestions) [] (seq 0 suggestion_count) in
          (ERROR_NONE, Some patch_array, Z.of_nat (length patch_array))
    end.

End WithPlatform.

(** The inner loop of [ai_engine_update_optimization_history],
    [for (j = 0; j < 10 && opt_suggestions[j].id != 0; j++)
       if (i < patch_count) { suggestion_id = opt_suggestions[j].id; break; }];
    [fuel] is [10 - j]. *)
Fixpoint find_corresponding_suggestion (opt_suggestions : list optimization_suggestion_t)
    (i patch_count : Z) (j fuel : nat) : Z :=
  match fuel with
  | O => 0
  | S fuel' =>
      match opt_suggestions !! j with
      | Some s =>
          if sg_id s =? 0 then 0
          else if i <? patch_count then sg_id s
          else find_corresponding_suggestion opt_suggestions i patch_count (S j) fuel'
      | None => 0
      end
  end.

(** The "Add to history" block: the slot is [entry_count % 100] and the
    count grows only below 100. *)
Definition history_add (timestamp : Z) (h : optimization_history_t)
    (suggestion_id : Z) : optimization_history_t :=
  let entry_index := Z.to_nat (oh_entry_count h mod 100) in
  mk_history
    (if oh_entry_count h <? 100 then oh_entry_count h + 1 else oh_entry_count h)
    (<[entry_index := mk_history_entry timestamp suggestion_id zero false]>
       (oh_entries h)).

(** One iteration of the outer loop over [i < patch_count]. *)
Definition update_history_step (timestamp : Z)
    (opt_suggestions : list optimization_suggestion_t) (patch_count : Z)
    (h : optimization_history_t) (i : nat) : optimization_history_t :=
  let suggestion_id :=
    find_corresponding_suggestion opt_suggestions (Z.of_nat i) patch_count 0 10 in
  if suggestion_id =? 0 then h
  else history_add timestamp h suggestion_id.

(** [ai_engine_update_optimization_history]. The [patches] pointer is
    never read; [history] is the caller's struct, returned as updated. *)
Definition ai_engine_update_optimization_history (e : ai_engine_t)
    (h : option optimization_history_t)
    (suggestions : option (list optimization_suggestion_t))
    (patches : option (list (patch_buffer * Z))) (patch_count : Z)
    : error_code_t * option optimization_history_t :=
  if negb (ai_initialized (ai_state e)) then (ERROR_NOT_IMPLEMENTED, h)
  else
    match h, suggestions with
    | Some hist, Some opt_suggestions =>
        (ERROR_NONE,
         Some (foldl (update_history_step (ai_last_analysis_time (ai_state e))
                        opt_suggestions patch_count)
                     hist (seq 0 (Z.to_nat patch_count))))
    | _, _ => (ERROR_INVALID_PARAMETER, h)
    end.

(** [ai_engine_get_optimization_history]: a [memcpy] of [ai_state.history]. *)
Definition ai_engine_get_optimization_history (e : ai_engine_t)
    : error_code_t * option optimization_history_t :=
  if negb (ai_initialized (ai_state e)) then (ERROR_NOT_IMPLEMENTED, None)
  else (ERROR_NONE, Some (history (ai_state e))).

(** The [switch (suggestion_id)] of [ai_engine_learn_from_history]:
    [None] is the [default: continue]. *)
Definition suggestion_model (suggestion_id : Z) : option ai_model_type_t :=
  match suggestion_id with
  | 1 => Some AI_MODEL_MEMORY
  | 2 => Some AI_MODEL_SCHEDULER
  | 3 => Some AI_MODEL_PERFORMANCE
  | _ => None
  end.

(** The accuracy assignment of the loop body. *)
Definition learned_accuracy (acc actual_improvement : float32) (reverted : bool)
    : float32 :=
  if negb reverted then add (mul f0_9 acc) (mul f0_1 actual_improvement)
  else mul f0_9 acc.

(** The body of the learning loop for one history entry. *)
Definition learn_entry (ms : list ai_model_t) (entry : history_entry_t)
    : list ai_model_t :=
  match suggestion_model (he_suggestion_id entry) with
  | None => ms
  | Some model_type =>
      alter (λ m, set_accuracy m
                    (learned_accuracy (accuracy m) (he_actual_improvement entry)
                                      (he_reverted entry)))
            (model_index model_type) ms
  end.

(** One iteration [i] of the loop: the entry read is [entries[i % 100]]. *)
Definition learn_step (h : optimization_history_t) (ms : list ai_model_t)
    (i : nat) : list ai_model_t :=
  match oh_entries h !! (i mod 100)%nat with
  | Some entry => learn_entry ms entry
  | None => ms
  end.

(** [ai_engine_learn_from_history], over the engine's own
    [ai_state.history]. *)
Definition ai_engine_learn_from_history (e : ai_engine_t)
    : error_code_t * ai_engine_t :=
  if negb (ai_initialized (ai_state e)) then (ERROR_NOT_IMPLEMENTED, e)
  else
    let h := history (ai_state e) in
    let models' :=
      foldl (learn_step h) (models e) (seq 0 (Z.to_nat (oh_entry_count h))) in
    (ERROR_NONE,
     mk_ai_engine
       (set_last_learning_time (ai_state e) (last_collection_time (ai_state e)))
       models').

End AiEngine.

(** ** kernel/kernel.h, kernel/kernel.c: the evolution controller *)

(** [self_evolution_t]; the two [void*] fields point to the metrics
    buffer and to the optimization history the kernel owns. *)
Record self_evolution_t := mk_evolution {
  last_analysis_time : Z;
  optimization_count : Z;
  patch_count : Z;
  evolution_level : Z;
  evolution_enabled : bool;
  performance_metrics : option performance_metrics_t;
  optimization_history : option optimization_history_t
}.

(** The static [kernel_state] (without the current process and thread). *)
Record kernel_state_t := mk_kernel {
  k_initialized : bool;
  next_pid : Z;
  next_tid : Z;
  uptime : Z;
  evolution : self_evolution_t
}.

(** The three static states the cycle runs over. *)
Record system_t := mk_system {
  kernel : kernel_state_t;
  ai : ai_engine_t;
  security : security_state_t
}.

Module Kernel.

Import Security AiEngine.

Section WithPlatform.

Context (P : platform).

Definition set_evolution (k : kernel_state_t) (ev : self_evolution_t) : kernel_state_t :=
  mk_kernel (k_initialized k) (next_pid k) (next_tid k) (uptime k) ev.

(** The body of the "Apply generated patches" loop at index [i]: fetch
    the buffer and its size, verify, skip on any error, apply, count on
    success. Nothing else happens between the verification and the
    application. [count] is [kernel_state.evolution.patch_count]. *)
Definition apply_patch_step (sec : security_state_t)
    (patches : list (patch_buffer * Z)) (generated : Z) (count : Z) (i : nat) : Z :=
  match patches !! i with
  | None => count
  | Some (patch, _) =>
      let patch_size := patch_size_read P patches generated i in
      match fst (security_verify_patch sec (Some (patch_header P patch)) patch_size) with
      | ERROR_NONE =>
          match self_evolution_apply_patch P patch patch_size with
          | ERROR_NONE => (count + 1) mod uint32_modulus
          | _ => count
          end
      | _ => count
      end
  end.

(** [self_evolution_analyze]: one cycle. The two calls that free the
    suggestions and the patches at its end only release memory. *)
Definition self_evolution_analyze (s : system_t) : error_code_t * system_t :=
  let k := kernel s in
  if negb (k_initialized k) || negb (evolution_enabled (evolution k))
  then (ERROR_NOT_IMPLEMENTED, s)
  else
    let ev0 := evolution k in
    let ev1 := mk_evolution (uptime k) (optimization_count ev0) (patch_count ev0)
                 (evolution_level ev0) (evolution_enabled ev0)
                 (performance_metrics ev0) (optimization_history ev0) in
    let '(err, ai1, metrics) :=
      ai_engine_collect_metrics P (ai s) (performance_metrics ev1) in
    let ev2 := mk_evolution (last_analysis_time ev1) (optimization_count ev1)
                 (patch_count ev1) (evolution_level ev1) (evolution_enabled ev1)
                 metrics (optimization_history ev1) in
    if bool_decide (err ≠ ERROR_NONE)
    then (err, mk_system (set_evolution k ev2) ai1 (security s))
    else
      let '(err, ai2, optimization_suggestions) :=
        ai_engine_analyze_performance P ai1 metrics in
      if bool_decide (err ≠ ERROR_NONE)
      then (err, mk_system (set_evolution k ev2) ai2 (security s))
      else
        let '(err, patches, generated) :=
          ai_engine_generate_patches P ai2 optimization_suggestions in
        if bool_decide (err ≠ ERROR_NONE)
        then (err, mk_system (set_evolution k ev2) ai2 (security s))
        else
          let applied :=
            foldl (apply_patch_step (security s) (default [] patches) generated)
                  (patch_count ev2) (seq 0 (Z.to_nat generated)) in
          let '(_, history') :=
            ai_engine_update_optimization_history ai2 (optimization_history ev2)
              optimization_suggestions patches generated in
          let ev3 := mk_evolution (last_analysis_time ev2)
                       ((optimization_count ev2 + 1) mod uint32_modulus) applied
                       (evolution_level ev2) (evolution_enabled ev2)
                       (performance_metrics ev2) history' in
          (ERROR_NONE, mk_system (set_evolution k ev3) ai2 (security s)).

(** [self_evolution_enable]: the permission check comes first, for both
    values of [enable]. *)
Definition self_evolution_enable (s : system_t) (enable : bool)
    : error_code_t * system_t :=
  if negb (k_initialized (kernel s)) then (ERROR_NOT_IMPLEMENTED, s)
  else
    let err := security_check_evolution_permission (security s) in
    if bool_decide (err ≠ ERROR_NONE) then (err, s)
    else
      let ev0 := evolution (kernel s) in
      let ev1 := mk_evolution (last_analysis_time ev0) (optimization_count ev0)
                   (patch_count ev0) (evolution_level ev0) enable
                   (performance_metrics ev0) (optimization_history ev0) in
      let s1 := mk_system (set_evolution (kernel s) ev1) (ai s) (security s) in
      if enable then self_evolution_analyze s1
      else (ERROR_NONE, s1).

(** [self_evolution_get_status]. *)
Definition self_evolution_get_status (s : system_t) : option self_evolution_t :=
  if negb (k_initialized (kernel s)) then None else Some (evolution (kernel s)).

End WithPlatform.

End Kernel.

Import Security AiEngine Kernel.

(** ** Notions used to state the properties *)

(** The per-domain flag the verifier consults for a target module:
    [true] when the policy forbids modifying it. Module ids other than
    0..3 have no flag. *)
Definition module_forbidden (pol : security_policy_descriptor_t) (m : Z) : bool :=
  match m with
  | 0 => negb (allow_kernel_modifications pol)
  | 1 => negb (allow_driver_modifications pol)
  | 2 => negb (allow_memory_layout_changes pol)
  | 3 => negb (allow_scheduler_modifications pol)
  | _ => false
  end.

Definition module_known (m : Z) : bool := (0 <=? m) && (m <=? 3).

(** The integrity conditions: a backup and a payload, both non-empty. *)
Definition lacks_backup (p : patch_descriptor_t) : bool :=
  bool_decide (pd_original_code p = None) || (pd_original_size p =? 0).

Definition lacks_payload (p : patch_descriptor_t) : bool :=
  bool_decide (pd_patch_code p = None) || (pd_size p =? 0).

(** The entry [security_create_rollback_entry] writes for a patch when
    the allocation succeeds. *)
Definition entry_of_patch (p : patch_descriptor_t) : rollback_entry_t :=
  mk_entry (pd_id p) (pd_timestamp p)
           (Some (take (Z.to_nat (pd_original_size p)) (default [] (pd_original_code p))))
           (pd_original_size p) (pd_target_module p) (pd_target_offset p).

(** How many entries below [entry_count] carry a given patch id. *)
Definition entries_with_id (st : security_state_t) (patch_id : Z) : nat :=
  length (filter (λ e, re_patch_id e = patch_id) (log_window st)).

(** ** States and inputs of the examples *)

Definition fresh_log : list rollback_entry_t := replicate 100 zero_entry.

(** The security state right after a successful [security_init]. *)
Definition security_ready : security_state_t :=
  snd (security_init security_state_zero (Some fresh_log)).

Definition security_at (lv : security_policy_t) : security_state_t :=
  snd (security_set_policy security_ready lv).

Definition backup16 : list Z := replicate 16 144.

(** A well-formed 16-byte patch with a backup. *)
Definition sample_patch (patch_id target : Z) : patch_descriptor_t :=
  mk_patch patch_id 16 0 target 0 16 (Some backup16) (Some placeholder_patch)
           false false.

(** The same patch without its backup. *)
Definition patch_without_backup (patch_id target : Z) : patch_descriptor_t :=
  mk_patch patch_id 16 0 target 0 0 None (Some placeholder_patch) false false.

(** [create_entries st ps]: [security_create_rollback_entry] called for
    each patch of [ps] in turn, every allocation succeeding. *)
Definition create_entries (st : security_state_t) (ps : list patch_descriptor_t)
    : security_state_t :=
  foldl (λ s p, snd (security_create_rollback_entry s (Some p) true)) st ps.

(** Patches numbered [1..n], all targeting the scheduler. *)
Definition numbered_patches (n : nat) : list patch_descriptor_t :=
  (λ i, sample_patch (Z.of_nat i) 3) <$> seq 1 n.

(** The rollback log filled to its capacity with the patches 1..100. *)
Abbreviation full_log := (create_entries security_ready (numbered_patches 100)).

(** The rollback log of scenario C: one entry, for patch 7. *)
Definition scenario_c : security_state_t :=
  create_entries security_ready [sample_patch 7 3].

(** Model and engine state as [ai_engine_init] leaves them: six models
    of 1024 zero bytes at version 1, an empty history. *)
Definition initial_model (t : ai_model_type_t) : ai_model_t :=
  mk_model t (Some (replicate 1024 0)) 1024 1 0 0 zero.

Definition initial_models : list ai_model_t :=
  initial_model <$> [AI_MODEL_PERFORMANCE; AI_MODEL_MEMORY; AI_MODEL_SCHEDULER;
                     AI_MODEL_POWER; AI_MODEL_SECURITY; AI_MODEL_CODE].

Definition ai_ready : ai_engine_t :=
  mk_ai_engine (mk_ai_state true 0 0 0 zero_metrics zero_history) initial_models.

(** The kernel state that the last lines of [kernel_init] and
    [self_evolution_init] describe: the flag set, evolution disabled,
    zeroed buffers. [kernel_init] as written returns before it sets the
    flag, so no start-up reaches this state; the examples below use it
    to run the code that sits behind the flag. *)
Definition kernel_ready : kernel_state_t :=
  mk_kernel true 1 1 0
    (mk_evolution 0 0 0 0 false (Some zero_metrics) (Some zero_history)).

Definition system_ready : system_t :=
  mk_system kernel_ready ai_ready security_ready.

(** The size read on a target with four-byte pointers, when every
    suggestion produced a patch: the stored size. With wider pointers the
    read lands on another word of the array. *)
Definition stored_size (patches : list (patch_buffer * Z)) (generated : Z)
    (i : nat) : Z :=
  default 0 (snd <$> patches !! i).

(** Collaborators of scenario A: every allocation succeeds on zeroed
    memory, the memory provider reports a fragmentation ratio of 0.6, the
    applier succeeds. The descriptor read at a generated buffer has the
    buffer's 16 bytes [E8 CC ... CC] as its [id], [size] and
    [timestamp]; the fields behind them lie outside the 16 bytes that
    [ai_engine_generate_patches] allocates and writes, and are assumed
    here to describe a memory-layout patch with a backup. *)
Definition scenario_a_header (buf : patch_buffer) : patch_descriptor_t :=
  mk_patch 3435973864 3435973836 14757395258967641292 2 0 16
           (Some backup16) (Some buf) false false.

Definition scenario_a : platform :=
  mk_platform (λ _, true) (replicate 10 zero_suggestion)
    (ERROR_NONE, mk_memory_metrics 0 0 0 0 0 0 0 0 (decimal 6 10))
    (ERROR_NONE, mk_scheduler_metrics 0 0 0 0 zero zero zero zero 0)
    (ERROR_NONE, 0)
    stored_size
    scenario_a_header
    (λ _ _, ERROR_NONE).

(** The system after [self_evolution_enable(true)] in scenario A, and the
    same system once the policy has been tightened to Paranoid. *)
Definition running_system : system_t :=
  snd (self_evolution_enable scenario_a system_ready true).

Definition paranoid_system : system_t :=
  mk_system (kernel running_system) (ai running_system)
    (snd (security_set_policy (security running_system) SECURITY_POLICY_PARANOID)).

(** Scenario with two findings: fragmentation 0.6 and an average wait of
    150 ms, so the memory rule and the scheduler rule both fire. *)
Definition two_findings : platform :=
  mk_platform (λ _, true) (replicate 10 zero_suggestion)
    (ERROR_NONE, mk_memory_metrics 0 0 0 0 0 0 0 0 (decimal 6 10))
    (ERROR_NONE, mk_scheduler_metrics 0 0 0 0 zero (of_Z 150) zero zero 0)
    (ERROR_NONE, 0)
    stored_size
    scenario_a_header
    (λ _ _, ERROR_NONE).

(** [record_cycles n h]: [ai_engine_update_optimization_history] called
    [n] times on [h], once per cycle with one generated patch, the
    cycle number serving as the engine's analysis timestamp. *)
Definition record_cycle (h : optimization_history_t) (t : nat)
    : optimization_history_t :=
  default h
    (snd (ai_engine_update_optimization_history
            (mk_ai_engine (mk_ai_state true 0 (Z.of_nat t) 0 zero_metrics zero_history)
                          initial_models)
            (Some h)
            (Some (<[0%nat := mk_suggestion 1 "Memory defragmentation recommended"
                                f0_3 80 None 0]> (replicate 10 zero_suggestion)))
            (Some [(placeholder_patch, 16)]) 1)).

Definition record_cycles (n : nat) (h : optimization_history_t)
    : optimization_history_t :=
  foldl record_cycle h (seq 1 n).

(** The entries the learning loop reads: indices below [entry_count]. *)
Definition history_window (h : optimization_history_t) : list history_entry_t :=
  take (Z.to_nat (oh_entry_count h)) (oh_entries h).

(** The history filled to its capacity by the cycles 1..100. *)
Abbreviation full_history := (record_cycles 100 zero_history).

(** The entries the learning loop reads, in the order it reads them:
    [entries[i % 100]] for [i] below [entry_count]. *)
Definition learn_reads (h : optimization_history_t) : list history_entry_t :=
  omap (λ i, oh_entries h !! (i mod 100)%nat) (seq 0 (Z.to_nat (oh_entry_count h))).

(** The entries of a history that the table assigns to a model type. *)
Definition entries_of_model (t : ai_model_type_t) (l : list history_entry_t)
    : list history_entry_t :=
  filter (λ e, suggestion_model (he_suggestion_id e) = Some t) l.

(** The accuracy updates of a run of entries, applied in order. *)
Definition accuracy_after (a : float32) (l : list history_entry_t) : float32 :=
  foldl (λ acc e, learned_accuracy acc (he_actual_improvement e) (he_reverted e)) a l.

(** Scenario D: the Scheduler model at accuracy 0.7 and a history of one
    non-reverted entry for suggestion 2 with a measured improvement of 0.5. *)
Definition scenario_d : ai_engine_t :=
  mk_ai_engine
    (mk_ai_state true 0 0 0 zero_metrics
       (mk_history 1
          (<[0%nat := mk_history_entry 0 2 f0_5 false]> (oh_entries zero_history))))
    (alter (λ m, set_accuracy m f0_7) (model_index AI_MODEL_SCHEDULER) initial_models).

(** * Further parts of the sources *)

(** ** security/security.c: runs of operations and the policy order *)

(** The calls of the security interface that can change its state. *)
Inductive security_op :=
  | OpSetPolicy (lv : security_policy_t)
  | OpCreateEntry (patch : option patch_descriptor_t) (alloc_ok : bool)
  | OpRollbackPatch (patch_id : Z)
  | OpRollbackAll.

Definition run_security_op (st : security_state_t) (op : security_op)
    : security_state_t :=
  match op with
  | OpSetPolicy lv => snd (security_set_policy st lv)
  | OpCreateEntry patch alloc_ok => snd (security_create_rollback_entry st patch alloc_ok)
  | OpRollbackPatch patch_id => snd (fst (security_rollback_patch st patch_id))
  | OpRollbackAll => snd (fst (security_rollback_all st))
  end.

Definition run_security_ops (st : security_state_t) (ops : list security_op)
    : security_state_t :=
  foldl run_security_op st ops.

(** What every state reached from a successful [security_init] keeps. *)
Definition security_invariant (st : security_state_t) : Prop :=
  sec_initialized st = true
  ∧ policy st = policy_bundle (level (policy st))
  ∧ 0 ≤ rl_entry_count (rollback_log st) ≤ 100
  ∧ length (rl_entries (rollback_log st)) = 100%nat
  ∧ next_patch_id st = 1.

(** The position of a level in the enumeration: larger is stricter. *)
Definition strictness (lv : security_policy_t) : nat :=
  match lv with
  | SECURITY_POLICY_PERMISSIVE => 0
  | SECURITY_POLICY_STANDARD => 1
  | SECURITY_POLICY_STRICT => 2
  | SECURITY_POLICY_PARANOID => 3
  end%nat.

(** The ids of the live entries below [entry_count], in slot order. *)
Definition live_ids (st : security_state_t) : list Z :=
  filter (λ x, x ≠ 0) (re_patch_id <$> log_window st).

(** ** ai_engine/ai_engine.c: initialization and model management *)

Definition all_model_types : list ai_model_type_t :=
  [AI_MODEL_PERFORMANCE; AI_MODEL_MEMORY; AI_MODEL_SCHEDULER;
   AI_MODEL_POWER; AI_MODEL_SECURITY; AI_MODEL_CODE].

(** A slot of [models] after the first loop of [ai_engine_init]. *)
Definition blank_model (t : ai_model_type_t) : ai_model_t :=
  mk_model t None 0 0 0 0 zero.

(** The second loop of [ai_engine_init] from index [i] on: each slot
    gets 1024 zero bytes at version 1; the first failing allocation
    leaves its slot with a [NULL] payload and ends the loop. The flag
    tells whether every allocation succeeded. *)
Fixpoint load_placeholders (ms : list ai_model_t) (i : nat)
    (model_ok : nat -> bool) : bool * list ai_model_t :=
  match ms with
  | [] => (true, [])
  | m :: rest =>
      if model_ok i then
        let '(ok, rest') := load_placeholders rest (S i) model_ok in
        (ok, mk_model (model_type m) (Some (replicate 1024 0)) 1024 1 0
                      (inference_count m) (accuracy m) :: rest')
      else (false, m :: rest)
  end.

(** [ai_engine_init]. [profiles_ok] and [model_ok i] tell whether the
    allocation of the profile table and of the payload of model [i]
    succeed. Payloads freed on the failure path keep their pointer
    value. *)
Definition ai_engine_init (e : ai_engine_t) (profiles_ok : bool)
    (model_ok : nat -> bool) : error_code_t * ai_engine_t :=
  if ai_initialized (ai_state e) then (ERROR_NONE, e)
  else
    let blank := blank_model <$> all_model_types in
    if negb profiles_ok
    then (ERROR_MEMORY_ALLOCATION,
          mk_ai_engine (mk_ai_state false 0 0 0 zero_metrics zero_history) blank)
    else
      let '(ok, ms) := load_placeholders blank 0 model_ok in
      if ok
      then (ERROR_NONE,
            mk_ai_engine (mk_ai_state true 0 0 0 zero_metrics zero_history) ms)
      else (ERROR_MEMORY_ALLOCATION,
            mk_ai_engine (mk_ai_state false 0 0 0 zero_metrics zero_history) ms).

(** [ai_engine_load_model]. The old payload is freed before the new one
    is allocated; [alloc_ok] is the outcome of that allocation. The
    [type >= 6] test cannot fire on a value of the enumeration. *)
Definition ai_engine_load_model (e : ai_engine_t) (t : ai_model_type_t)
    (data : option (list Z)) (size : Z) (alloc_ok : bool)
    : error_code_t * ai_engine_t :=
  if negb (ai_initialized (ai_state e)) then (ERROR_NOT_IMPLEMENTED, e)
  else
    match data with
    | None => (ERROR_INVALID_PARAMETER, e)
    | Some bytes =>
        if size =? 0 then (ERROR_INVALID_PARAMETER, e)
        else if negb alloc_ok
        then (ERROR_MEMORY_ALLOCATION,
              mk_ai_engine (ai_state e)
                (alter (λ m, mk_model (model_type m) None (model_size m) (version m)
                               (last_updated m) (inference_count m) (accuracy m))
                       (model_index t) (models e)))
        else (ERROR_NONE,
              mk_ai_engine (ai_state e)
                (alter (λ m, mk_model (model_type m)
                               (Some (take (Z.to_nat size) bytes)) size
                               ((version m + 1) mod uint32_modulus)
                               (last_collection_time (ai_state e)) 0 zero)
                       (model_index t) (models e)))
    end.

(** [ai_engine_generate_new_model]. *)
Definition ai_engine_generate_new_model (e : ai_engine_t) (t : ai_model_type_t)
    : error_code_t * ai_engine_t :=
  if negb (ai_initialized (ai_state e)) then (ERROR_NOT_IMPLEMENTED, e)
  else (ERROR_NONE,
        mk_ai_engine (ai_state e)
          (alter (λ m, mk_model (model_type m) (model_data m) (model_size m)
                         ((version m + 1) mod uint32_modulus)
                         (last_collection_time (ai_state e))
                         (inference_count m) (accuracy m))
                 (model_index t) (models e))).

(** The suggestions the three rules of [ai_engine_analyze_performance]
    write for a metrics sample, in rule order. *)
Definition fired_suggestions (P : platform) (m : performance_metrics_t)
    : list optimization_suggestion_t :=
  (if ltb f0_5 (fragmentation_ratio (pm_memory m))
   then [mk_suggestion 1 "Memory defragmentation recommended" f0_3 80 None 0]
   else [])
  ++ (if ltb f100 (average_wait_time (pm_scheduler m))
      then [if memory_allocate P AllocOptimizationData
            then mk_suggestion 2 "Scheduler time slice adjustment recommended"
                   f0_2 70 (Some [5]) 4
            else mk_suggestion 2 "Scheduler time slice adjustment recommended"
                   f0_2 70 None 0]
      else [])
  ++ (if (pm_io_operations m >? 1000) && ltb (cpu_utilization (pm_scheduler m)) f0_5
      then [mk_suggestion 3 "I/O scheduling policy adjustment recommended"
              f0_25 65 None 0]
      else []).

(** ** kernel/kernel.c: initialization *)

(** [self_evolution_init]. The two buffers are what [memory_allocate]
    returns for the metrics and for the history: [None] for [NULL],
    otherwise the buffer with the allocator's content. On the second
    failure the freed metrics buffer keeps its pointer value. *)
Definition self_evolution_init (k : kernel_state_t)
    (metrics_buffer : option performance_metrics_t)
    (history_buffer : option optimization_history_t)
    : error_code_t * kernel_state_t :=
  if negb (k_initialized k) then (ERROR_NOT_IMPLEMENTED, k)
  else
    let ev0 := evolution k in
    match metrics_buffer with
    | None =>
        (ERROR_MEMORY_ALLOCATION,
         mk_kernel (k_initialized k) (next_pid k) (next_tid k) (uptime k)
           (mk_evolution 0 0 0 0 false None (optimization_history ev0)))
    | Some _ =>
        match history_buffer with
        | None =>
            (ERROR_MEMORY_ALLOCATION,
             mk_kernel (k_initialized k) (next_pid k) (next_tid k) (uptime k)
               (mk_evolution 0 0 0 0 false metrics_buffer None))
        | Some _ =>
            (ERROR_NONE,
             mk_kernel (k_initialized k) (next_pid k) (next_tid k) (uptime k)
               (mk_evolution 0 0 0 0 false metrics_buffer history_buffer))
        end
    end.

(** What [kernel_init] obtains from outside the three modelled modules:
    the results of [memory_init] and [scheduler_init] and the outcomes of
    the allocations of the init functions it calls. *)
Record boot_env := mk_boot_env {
  memory_init_result : error_code_t;
  scheduler_init_result : error_code_t;
  boot_profiles_ok : bool;
  boot_model_ok : nat -> bool;
  boot_rollback_array : option (list rollback_entry_t);
  boot_metrics_buffer : option performance_metrics_t;
  boot_history_buffer : option optimization_history_t
}.

(** [kernel_init]: the subsystems in source order, the first error
    returned; [kernel_state.initialized] is set only after all five
    calls succeeded. *)
Definition kernel_init (s : system_t) (env : boot_env) : error_code_t * system_t :=
  if k_initialized (kernel s) then (ERROR_NONE, s)
  else
    if bool_decide (memory_init_result env ≠ ERROR_NONE)
    then (memory_init_result env, s)
    else if bool_decide (scheduler_init_result env ≠ ERROR_NONE)
    then (scheduler_init_result env, s)
    else
      let '(err_ai, ai1) := ai_engine_init (ai s) (boot_profiles_ok env) (boot_model_ok env) in
      if bool_decide (err_ai ≠ ERROR_NONE)
      then (err_ai, mk_system (kernel s) ai1 (security s))
      else
        let '(err_sec, sec1) := security_init (security s) (boot_rollback_array env) in
        if bool_decide (err_sec ≠ ERROR_NONE)
        then (err_sec, mk_system (kernel s) ai1 sec1)
        else
          let '(err_evo, k1) :=
            self_evolution_init (kernel s) (boot_metrics_buffer env)
              (boot_history_buffer env) in
          if bool_decide (err_evo ≠ ERROR_NONE)
          then (err_evo, mk_system k1 ai1 sec1)
          else
            (ERROR_NONE,
             mk_system (mk_kernel true 1 1 0 (evolution k1)) ai1 sec1).

(** A boot in which every collaborator succeeds on zeroed memory. *)
Definition friendly_boot : boot_env :=
  mk_boot_env ERROR_NONE ERROR_NONE true (λ _, true) (Some fresh_log)
              (Some zero_metrics) (Some zero_history).

(** The all-zero static state of the three modules. *)
Definition system_zero : system_t :=
  mk_system
    (mk_kernel false 0 0 0 (mk_evolution 0 0 0 0 false None None))
    (mk_ai_engine (mk_ai_state false 0 0 0 zero_metrics zero_history)
                  (blank_model <$> all_model_types))
    security_state_zero.

(** How many of the first [n] generated patches the loop of the cycle
    applies: those the verifier admits and the applier accepts. *)
Definition patch_accepted (P : platform) (sec : security_state_t)
    (patches : list (patch_buffer * Z)) (generated : Z) (i : nat) : bool :=
  match patches !! i with
  | None => false
  | Some (patch, _) =>
      bool_decide
        (fst (security_verify_patch sec (Some (patch_header P patch))
                (patch_size_read P patches generated i)) = ERROR_NONE)
      && bool_decide
           (self_evolution_apply_patch P patch
              (patch_size_read P patches generated i) = ERROR_NONE)
  end.

(** Scenario A with a memory provider that reports a timeout. *)
Definition memory_provider_down : platform :=
  mk_platform (λ _, true) (replicate 10 zero_suggestion)
    (ERROR_TIMEOUT, mk_memory_metrics 0 0 0 0 0 0 0 0 zero)
    (ERROR_NONE, mk_scheduler_metrics 0 0 0 0 zero zero zero zero 0)
    (ERROR_NONE, 0)
    stored_size
    scenario_a_header
    (λ _ _, ERROR_NONE).

(** The system with another policy descriptor in its security state. *)
Definition with_policy (s : system_t) (pol : security_policy_descriptor_t)
    : system_t :=
  mk_system (kernel s) (ai s) (set_policy_field (security s) pol).

(** The fields of a policy descriptor that [security_verify_patch]
    reads. *)
Definition verifier_view (pol : security_policy_descriptor_t)
    : bool * bool * bool * bool * Z :=
  (allow_kernel_modifications pol, allow_driver_modifications pol,
   allow_memory_layout_changes pol, allow_scheduler_modifications pol,
   max_patch_size pol).

(** The fields of a model other than its accuracy. *)
Definition model_identity (m : ai_model_t)
    : ai_model_type_t * option (list Z) * Z * Z * Z * Z :=
  (model_type m, model_data m, model_size m, version m, last_updated m,
   inference_count m).

(** The accuracy the placeholder loop of the analysis assigns to slot [i]. *)
Definition placeholder_accuracy_value (i : nat) : float32 :=
  add f0_7 (div (of_Z (Z.of_nat i)) f60).


(** The calls of the engine interface that write [ai_state] or [models].
    [ai_engine_generate_patches], [ai_engine_update_optimization_history],
    [ai_engine_get_optimization_history] and the two [free] functions
    write neither. A call that consults the providers or the allocator
    carries the platform that answers it. *)
Inductive ai_op :=
  | AiInit (profiles_ok : bool) (model_ok : nat -> bool)
  | AiLoadModel (t : ai_model_type_t) (data : option (list Z)) (size : Z)
                (alloc_ok : bool)
  | AiCollect (P : platform) (metrics : option performance_metrics_t)
  | AiAnalyze (P : platform) (metrics : option performance_metrics_t)
  | AiLearn
  | AiGenerateNewModel (t : ai_model_type_t).

Definition run_ai_op (e : ai_engine_t) (op : ai_op) : ai_engine_t :=
  match op with
  | AiInit profiles_ok model_ok => snd (ai_engine_init e profiles_ok model_ok)
  | AiLoadModel t data size alloc_ok => snd (ai_engine_load_model e t data size alloc_ok)
  | AiCollect P metrics => snd (fst (ai_engine_collect_metrics P e metrics))
  | AiAnalyze P metrics => snd (fst (ai_engine_analyze_performance P e metrics))
  | AiLearn => snd (ai_engine_learn_from_history e)
  | AiGenerateNewModel t => snd (ai_engine_generate_new_model e t)
  end.

Definition run_ai_ops (e : ai_engine_t) (ops : list ai_op) : ai_engine_t :=
  foldl run_ai_op e ops.

(** Whether a call, made on an initialized engine, advances the version
    of the model of type [t]: a load with a payload, a non-zero size and
    a successful allocation, or a model generation. *)
Definition bumps_version (t : ai_model_type_t) (op : ai_op) : bool :=
  match op with
  | AiLoadModel t' (Some _) size alloc_ok =>
      bool_decide (t' = t) && negb (size =? 0) && alloc_ok
  | AiGenerateNewModel t' => bool_decide (t' = t)
  | _ => false
  end.

Definition version_updates (t : ai_model_type_t) (ops : list ai_op) : Z :=
  Z.of_nat (length (filter (λ op, bumps_version t op = true) ops)).

(** What every engine state reached from a successful [ai_engine_init]
    keeps. *)
Definition engine_invariant (e : ai_engine_t) : Prop :=
  ai_initialized (ai_state e) = true
  ∧ model_type <$> models e = all_model_types
  ∧ history (ai_state e) = zero_history.

(** The caller's buffer after a collection that stopped at the
    scheduler provider: the memory part is new, the rest is old. *)
Definition half_collected (P : platform) (m : performance_metrics_t)
    : performance_metrics_t :=
  mk_performance_metrics (snd (memory_get_metrics P)) (pm_scheduler m)
    (pm_io_operations m) (pm_network_bytes m) (pm_power_usage m)
    (pm_error_count m) (pm_uptime m).

(** Scenario A with a scheduler provider that reports a timeout. *)
Definition scheduler_provider_down : platform :=
  mk_platform (λ _, true) (replicate 10 zero_suggestion)
    (ERROR_NONE, mk_memory_metrics 4096 1024 0 0 0 0 0 0 (decimal 6 10))
    (ERROR_TIMEOUT, mk_scheduler_metrics 0 0 0 0 zero zero zero zero 0)
    (ERROR_NONE, 0)
    stored_size
    scenario_a_header
    (λ _ _, ERROR_NONE).

(** ** io/io.c: the I/O subsystem and its counters *)

Definition uint64_modulus : Z := 2 ^ 64.

Inductive io_scheduling_policy_t :=
  | IO_SCHED_FIFO
  | IO_SCHED_DEADLINE
  | IO_SCHED_PRIORITY
  | IO_SCHED_ADAPTIVE.

(** [io_statistics_t]. *)
Record io_statistics_t := mk_io_statistics {
  read_count : Z;
  write_count : Z;
  read_bytes : Z;
  write_bytes : Z;
  io_wait_time : Z;
  read_throughput : float32;
  write_throughput : float32;
  average_latency : float32;
  queue_depth : Z
}.

(** [io_metrics_t]; [devices] is the pointer to the per-device table. *)
Record io_metrics_t := mk_io_metrics {
  global : io_statistics_t;
  devices : option (list io_statistics_t);
  device_count : Z;
  pending_requests : Z;
  completed_requests : Z;
  io_utilization : float32
}.

(** The static [io_state] of io.c; [metrics], [policy] and [initialized]
    carry the prefix [io_] because the names are taken. *)
Record io_state_t := mk_io_state {
  io_initialized : bool;
  io_metrics : io_metrics_t;
  io_policy : io_scheduling_policy_t;
  next_request_id : Z;
  next_device_id : Z;
  next_file_id : Z
}.

Definition zero_io_statistics : io_statistics_t :=
  mk_io_statistics 0 0 0 0 0 zero zero zero 0.

Definition zero_io_metrics : io_metrics_t :=
  mk_io_metrics zero_io_statistics None 0 0 0 zero.

Definition io_state_zero : io_state_t :=
  mk_io_state false zero_io_metrics IO_SCHED_FIFO 0 0 0.

(** What a system call ([accept], [read], [write]) hands back: its return
    value, and whether [errno] is [EAGAIN] or [EWOULDBLOCK] when that
    value is negative. *)
Record syscall_result := mk_syscall {
  sys_return : Z;
  sys_would_block : bool
}.

Definition set_io_metrics (st : io_state_t) (m : io_metrics_t) : io_state_t :=
  mk_io_state (io_initialized st) m (io_policy st) (next_request_id st)
              (next_device_id st) (next_file_id st).

Definition set_global (m : io_metrics_t) (g : io_statistics_t) : io_metrics_t :=
  mk_io_metrics g (devices m) (device_count m) (pending_requests m)
                (completed_requests m) (io_utilization m).

Module Io.

(** [io_init]. *)
Definition io_init (st : io_state_t) : error_code_t * io_state_t :=
  if io_initialized st then (ERROR_NONE, st)
  else (ERROR_NONE, mk_io_state true zero_io_metrics IO_SCHED_FIFO 1 1 1).

(** [io_get_metrics]: a [memcpy] into the caller's buffer. *)
Definition io_get_metrics (st : io_state_t) (metrics : option io_metrics_t)
    : error_code_t * option io_metrics_t :=
  if negb (io_initialized st) then (ERROR_NOT_IMPLEMENTED, metrics)
  else
    match metrics with
    | None => (ERROR_INVALID_PARAMETER, metrics)
    | Some _ => (ERROR_NONE, Some (io_metrics st))
    end.

(** [io_accept_connection]. [client_fd] is the caller's cell, [accepted]
    what [accept] returned. The [fcntl] calls act on the descriptor
    only. *)
Definition io_accept_connection (st : io_state_t) (client_fd : option Z)
    (accepted : syscall_result) : error_code_t * io_state_t * option Z :=
  if negb (io_initialized st) then (ERROR_NOT_IMPLEMENTED, st, client_fd)
  else
    match client_fd with
    | None => (ERROR_INVALID_PARAMETER, st, client_fd)
    | Some _ =>
        if sys_return accepted <? 0 then
          if sys_would_block accepted then (ERROR_TIMEOUT, st, client_fd)
          else (ERROR_RESOURCE_BUSY, st, client_fd)
        else
          let m := io_metrics st in
          let g := global m in
          let g' := mk_io_statistics (read_count g) (write_count g) (read_bytes g)
                      (write_bytes g) 0 (read_throughput g) (write_throughput g)
                      (average_latency g) (queue_depth g) in
          let m' := mk_io_metrics g' (devices m) (device_count m)
                      ((pending_requests m + 1) mod uint32_modulus)
                      (completed_requests m) (io_utilization m) in
          (ERROR_NONE, set_io_metrics st m', Some (sys_return accepted))
    end.

(** [io_read]. [buffer] tells whether the buffer pointer is non-null,
    [bytes_read] is the caller's cell, [result] what [read] returned;
    the bytes [read] stores in the buffer are not part of the state. *)
Definition io_read (st : io_state_t) (buffer : bool) (bytes_read : option Z)
    (result : syscall_result) : error_code_t * io_state_t * option Z :=
  if negb (io_initialized st) then (ERROR_NOT_IMPLEMENTED, st, bytes_read)
  else
    match bytes_read with
    | None => (ERROR_INVALID_PARAMETER, st, bytes_read)
    | Some _ =>
        if negb buffer then (ERROR_INVALID_PARAMETER, st, bytes_read)
        else if sys_return result <? 0 then
          if sys_would_block result then (ERROR_TIMEOUT, st, Some 0)
          else (ERROR_RESOURCE_BUSY, st, bytes_read)
        else
          let m := io_metrics st in
          let g := global m in
          let g' := mk_io_statistics ((read_count g + 1) mod uint64_modulus)
                      (write_count g)
                      ((read_bytes g + sys_return result) mod uint64_modulus)
                      (write_bytes g) (io_wait_time g) (read_throughput g)
                      (write_throughput g) (average_latency g) (queue_depth g) in
          (ERROR_NONE, set_io_metrics st (set_global m g'),
           Some (sys_return result mod uint32_modulus))
    end.

(** [io_write], as [io_read] on the write counters. *)
Definition io_write (st : io_state_t) (buffer : bool) (bytes_written : option Z)
    (result : syscall_result) : error_code_t * io_state_t * option Z :=
  if negb (io_initialized st) then (ERROR_NOT_IMPLEMENTED, st, bytes_written)
  else
    match bytes_written with
    | None => (ERROR_INVALID_PARAMETER, st, bytes_written)
    | Some _ =>
        if negb buffer then (ERROR_INVALID_PARAMETER, st, bytes_written)
        else if sys_return result <? 0 then
          if sys_would_block result then (ERROR_TIMEOUT, st, Some 0)
          else (ERROR_RESOURCE_BUSY, st, bytes_written)
        else
          let m := io_metrics st in
          let g := global m in
          let g' := mk_io_statistics (read_count g)
                      ((write_count g + 1) mod uint64_modulus) (read_bytes g)
                      ((write_bytes g + sys_return result) mod uint64_modulus)
                      (io_wait_time g) (read_throughput g)
                      (write_throughput g) (average_latency g) (queue_depth g) in
          (ERROR_NONE, set_io_metrics st (set_global m g'),
           Some (sys_return result mod uint32_modulus))
    end.

(** [io_close]; [closed] is what [close] returned. *)
Definition io_close (st : io_state_t) (closed : Z) : error_code_t * io_state_t :=
  if negb (io_initialized st) then (ERROR_NOT_IMPLEMENTED, st)
  else if closed <? 0 then (ERROR_RESOURCE_BUSY, st)
  else
    let m := io_metrics st in
    (ERROR_NONE,
     set_io_metrics st
       (mk_io_metrics (global m) (devices m) (device_count m)
          ((pending_requests m - 1) mod uint32_modulus)
          ((completed_requests m + 1) mod uint32_modulus)
          (io_utilization m))).

(** [io_set_scheduling_policy]. *)
Definition io_set_scheduling_policy (st : io_state_t) (p : io_scheduling_policy_t)
    : error_code_t * io_state_t :=
  if negb (io_initialized st) then (ERROR_NOT_IMPLEMENTED, st)
  else (ERROR_NONE,
        mk_io_state (io_initialized st) (io_metrics st) p (next_request_id st)
                    (next_device_id st) (next_file_id st)).

(** [io_optimize]. *)
Definition io_optimize (st : io_state_t) : error_code_t :=
  if negb (io_initialized st) then ERROR_NOT_IMPLEMENTED else ERROR_NONE.

End Io.

(** The calls of the I/O interface that can write [io_state]. *)
Inductive io_op :=
  | IoInit
  | IoAccept (client_fd : option Z) (accepted : syscall_result)
  | IoRead (buffer : bool) (bytes_read : option Z) (result : syscall_result)
  | IoWrite (buffer : bool) (bytes_written : option Z) (result : syscall_result)
  | IoClose (closed : Z)
  | IoSetPolicy (p : io_scheduling_policy_t).

Definition run_io_op (st : io_state_t) (op : io_op) : io_state_t :=
  match op with
  | IoInit => snd (Io.io_init st)
  | IoAccept client_fd accepted => snd (fst (Io.io_accept_connection st client_fd accepted))
  | IoRead buffer bytes_read result => snd (fst (Io.io_read st buffer bytes_read result))
  | IoWrite buffer bytes_written result =>
      snd (fst (Io.io_write st buffer bytes_written result))
  | IoClose closed => snd (Io.io_close st closed)
  | IoSetPolicy p => snd (Io.io_set_scheduling_policy st p)
  end.

Definition run_io_ops (st : io_state_t) (ops : list io_op) : io_state_t :=
  foldl run_io_op st ops.

(** Whether a call, made on an initialized subsystem, returns
    [ERROR_NONE] as an accept, as a close. *)
Definition accepts (op : io_op) : bool :=
  match op with
  | IoAccept (Some _) accepted => negb (sys_return accepted <? 0)
  | _ => false
  end.

Definition closes (op : io_op) : bool :=
  match op with
  | IoClose closed => negb (closed <? 0)
  | _ => false
  end.

(** The bytes a call adds to [read_bytes], to [write_bytes], and
    whether it counts as a read, as a write. *)
Definition reads (op : io_op) : option Z :=
  match op with
  | IoRead true (Some _) result =>
      if sys_return result <? 0 then None else Some (sys_return result)
  | _ => None
  end.

Definition writes (op : io_op) : option Z :=
  match op with
  | IoWrite true (Some _) result =>
      if sys_return result <? 0 then None else Some (sys_return result)
  | _ => None
  end.

Definition count_ops (f : io_op -> bool) (ops : list io_op) : Z :=
  Z.of_nat (length (filter (λ op, f op = true) ops)).

Definition sum_bytes (f : io_op -> option Z) (ops : list io_op) : Z :=
  foldr Z.add 0 (omap f ops).

(** [io_get_metrics] as [ai_engine_collect_metrics] calls it: on a local
    [io_metrics_t] it did not initialize, reading [completed_requests]
    afterwards. *)
Definition io_provider (st : io_state_t) (local : io_metrics_t) : error_code_t * Z :=
  let '(err, m) := Io.io_get_metrics st (Some local) in
  (err, completed_requests (default local m)).

(** The platform whose I/O provider is the subsystem in state [st]. *)
Definition with_io (P : platform) (st : io_state_t) (local : io_metrics_t) : platform :=
  mk_platform (memory_allocate P) (fresh_suggestions P) (memory_get_metrics P)
    (scheduler_get_metrics P) (io_provider st local) (patch_size_read P)
    (patch_header P) (self_evolution_apply_patch P).

Definition count_some (f : io_op -> option Z) (ops : list io_op) : Z :=
  Z.of_nat (length (omap f ops)).

(** The six counters of [io_state.metrics] lie in the range of their
    types. *)
Definition io_counters_in_range (st : io_state_t) : Prop :=
  let m := io_metrics st in
  0 ≤ completed_requests m < uint32_modulus
  ∧ 0 ≤ pending_requests m < uint32_modulus
  ∧ 0 ≤ read_count (global m) < uint64_modulus
  ∧ 0 ≤ read_bytes (global m) < uint64_modulus
  ∧ 0 ≤ write_count (global m) < uint64_modulus
  ∧ 0 ≤ write_bytes (global m) < uint64_modulus.

(** ** ai_engine/ai_engine.c: the process profiles *)

Definition MAX_PROCESSES : Z := 1024.
Definition MAX_PRIORITY_LEVELS : Z := 32.

Inductive process_state_t :=
  | PROCESS_CREATED
  | PROCESS_READY
  | PROCESS_RUNNING
  | PROCESS_BLOCKED
  | PROCESS_TERMINATED.

(** [process_t] without its three pointers to memory space, threads and
    resources, which the profile functions do not touch. [ai_profile]
    is the slot of the profile table it points to. *)
Record process_t := mk_process {
  pid : Z;
  parent_pid : Z;
  state : process_state_t;
  priority : Z;
  thread_count : Z;
  cpu_time : Z;
  creation_time : Z;
  last_scheduled : Z;
  ai_profile : option nat
}.

(** [process_ai_profile_t]; the fields it shares with [process_t] carry
    the prefix [pf_]. *)
Record process_ai_profile_t := mk_profile {
  pf_pid : Z;
  pf_creation_time : Z;
  pf_cpu_time : Z;
  memory_usage : Z;
  priority_changes : Z;
  pf_io_operations : Z;
  cpu_intensity : float32;
  memory_intensity : float32;
  io_intensity : float32;
  optimal_priority : Z;
  optimal_time_slice : Z
}.

(** The two fields of the static [ai_state] that hold the profiles:
    the count and the table of [MAX_PROCESSES] slots that
    [ai_engine_init] allocates. *)
Record profile_table_t := mk_profile_table {
  process_profile_count : Z;
  process_profiles : list process_ai_profile_t
}.

Definition f0_8 : float32 := Eval vm_compute in decimal 8 10.

Definition set_ai_profile (p : process_t) (slot : option nat) : process_t :=
  mk_process (pid p) (parent_pid p) (state p) (priority p) (thread_count p)
             (cpu_time p) (creation_time p) (last_scheduled p) slot.

(** [ai_engine_create_process_profile]. *)
Definition ai_engine_create_process_profile (e : ai_engine_t) (tb : profile_table_t)
    (process : option process_t)
    : error_code_t * profile_table_t * option process_t :=
  if negb (ai_initialized (ai_state e)) then (ERROR_NOT_IMPLEMENTED, tb, process)
  else
    match process with
    | None => (ERROR_INVALID_PARAMETER, tb, process)
    | Some p =>
        if process_profile_count tb >=? MAX_PROCESSES
        then (ERROR_RESOURCE_BUSY, tb, process)
        else
          let slot := Z.to_nat (process_profile_count tb) in
          let profile := mk_profile (pid p) (creation_time p) 0 0 0 0 zero zero zero
                                    (priority p) 10 in
          (ERROR_NONE,
           mk_profile_table ((process_profile_count tb + 1) mod uint32_modulus)
                            (<[slot := profile]> (process_profiles tb)),
           Some (set_ai_profile p (Some slot)))
    end.

(** The writes of [ai_engine_update_process_profile] to the profile of
    process [p]. The quotient is a [float] division of the converted
    CPU time by the converted 64-bit difference of the two times. *)
Definition update_profile (e : ai_engine_t) (p : process_t)
    (profile : process_ai_profile_t) : process_ai_profile_t :=
  let intensity :=
    div (of_Z (cpu_time p))
        (of_Z ((last_collection_time (ai_state e) - pf_creation_time profile)
               mod uint64_modulus)) in
  let new_priority :=
    if ltb f0_8 intensity then
      if priority p <? MAX_PRIORITY_LEVELS - 1 then priority p + 1 else priority p
    else if ltb f0_8 (io_intensity profile) then
      if priority p >? 0 then priority p - 1 else priority p
    else optimal_priority profile in
  let new_time_slice :=
    if ltb f0_8 intensity then 20
    else if ltb f0_8 (io_intensity profile) then 5
    else 10 in
  mk_profile (pf_pid profile) (pf_creation_time profile) (cpu_time p)
             (memory_usage profile) (priority_changes profile)
             (pf_io_operations profile) intensity (memory_intensity profile)
             (io_intensity profile) new_priority new_time_slice.

(** [ai_engine_update_process_profile]. *)
Definition ai_engine_update_process_profile (e : ai_engine_t) (tb : profile_table_t)
    (process : option process_t) : error_code_t * profile_table_t :=
  if negb (ai_initialized (ai_state e)) then (ERROR_NOT_IMPLEMENTED, tb)
  else
    match process with
    | None => (ERROR_INVALID_PARAMETER, tb)
    | Some p =>
        match ai_profile p with
        | None => (ERROR_INVALID_PARAMETER, tb)
        | Some slot =>
            (ERROR_NONE,
             mk_profile_table (process_profile_count tb)
               (alter (update_profile e p) slot (process_profiles tb)))
        end
    end.

(** The two calls that write the profile table, each with the engine
    state at the time of the call. *)
Inductive profile_op :=
  | ProfCreate (e : ai_engine_t) (process : option process_t)
  | ProfUpdate (e : ai_engine_t) (process : option process_t).

Definition run_profile_op (tb : profile_table_t) (op : profile_op) : profile_table_t :=
  match op with
  | ProfCreate e process => snd (fst (ai_engine_create_process_profile e tb process))
  | ProfUpdate e process => snd (ai_engine_update_process_profile e tb process)
  end.

Definition run_profile_ops (tb : profile_table_t) (ops : list profile_op)
    : profile_table_t :=
  foldl run_profile_op tb ops.

(** A creation with a process, on an initialized engine. *)
Definition asks_profile (op : profile_op) : bool :=
  match op with
  | ProfCreate e (Some _) => ai_initialized (ai_state e)
  | _ => false
  end.

Definition profile_requests (ops : list profile_op) : Z :=
  Z.of_nat (length (filter (λ op, asks_profile op = true) ops)).

(** The table right after [ai_engine_init]: no profile, 1024 slots with
    the allocator's content. *)
Definition empty_table (slots : list process_ai_profile_t) : profile_table_t :=
  mk_profile_table 0 slots.

Definition sample_process (id : Z) : process_t :=
  mk_process id 0 PROCESS_CREATED 7 0 500 0 0 None.

(** ** States reached through the interface *)



(** A rollback log in which one patch id labels two entries: after
    [security_init], two calls of [security_create_rollback_entry] with
    descriptors of id 5. *)
Definition twice_patch_5 : security_state_t :=
  create_entries security_ready [sample_patch 5 3; sample_patch 5 3].
(** * Properties *)

(** ** The verification gate *)

(** A C [switch] over the cases 0..3 with a default, as a chain of tests. *)
Lemma switch4 {A} (m : Z) (a b c d e : A) :
  match m with 0 => a | 1 => b | 2 => c | 3 => d | _ => e end =
  if m =? 0 then a else if m =? 1 then b else if m =? 2 then c
  else if m =? 3 then d else e.
Proof.
  destruct m as [|p|p]; [reflexivity| |reflexivity].
  destruct p as [p|p|]; [| |reflexivity];
    (destruct p as [p|p|]; [| |reflexivity]; destruct p; reflexivity).
Qed.

Lemma module_forbidden_eq pol m :
  module_forbidden pol m =
  if m =? 0 then negb (allow_kernel_modifications pol)
  else if m =? 1 then negb (allow_driver_modifications pol)
  else if m =? 2 then negb (allow_memory_layout_changes pol)
  else if m =? 3 then negb (allow_scheduler_modifications pol)
  else false.
Proof. apply switch4. Qed.

Lemma module_known_eq m :
  module_known m = (m =? 0) || (m =? 1) || (m =? 2) || (m =? 3).
Proof.
  unfold module_known.
  destruct (Z.eqb_spec m 0), (Z.eqb_spec m 1), (Z.eqb_spec m 2), (Z.eqb_spec m 3);
    simpl; subst; try reflexivity; lia.
Qed.

Lemma verify_uninitialized st patch size :
  sec_initialized st = false →
  security_verify_patch st patch size = (ERROR_NOT_IMPLEMENTED, patch).
Proof. intros H. unfold security_verify_patch. by rewrite H. Qed.

(** The verdict of the verifier as a cascade: the size argument, the
    policy flag of the target module, the module id, then backup and
    payload. *)
Lemma verify_check_order st p size :
  sec_initialized st = true →
  fst (security_verify_patch st (Some p) size) =
    if (size =? 0) || (size >? max_patch_size (policy st))
    then ERROR_INVALID_PARAMETER
    else if module_forbidden (policy st) (pd_target_module p)
    then ERROR_PERMISSION_DENIED
    else if negb (module_known (pd_target_module p))
    then ERROR_INVALID_PARAMETER
    else if lacks_backup p || lacks_payload p
    then ERROR_INVALID_PARAMETER
    else ERROR_NONE.
Proof.
  intros Hinit. unfold security_verify_patch, lacks_backup, lacks_payload.
  rewrite Hinit, switch4, module_forbidden_eq, module_known_eq. simpl.
  destruct (size =? 0); [reflexivity|]. simpl.
  destruct (size >? max_patch_size (policy st)); [reflexivity|].
  assert (Htail : ∀ e : error_code_t,
    fst (match e with
         | ERROR_NONE =>
             if bool_decide (pd_original_code p = None) || (pd_original_size p =? 0)
             then (ERROR_INVALID_PARAMETER, Some p)
             else if bool_decide (pd_patch_code p = None) || (pd_size p =? 0)
             then (ERROR_INVALID_PARAMETER, Some p)
             else (ERROR_NONE, Some (set_verified p true))
         | err => (err, Some p)
         end) =
    match e with
    | ERROR_NONE =>
        if (bool_decide (pd_original_code p = None) || (pd_original_size p =? 0))
           || (bool_decide (pd_patch_code p = None) || (pd_size p =? 0))
        then ERROR_INVALID_PARAMETER else ERROR_NONE
    | err => err
    end).
  { intros []; try reflexivity.
    destruct (bool_decide (pd_original_code p = None) || (pd_original_size p =? 0));
      [reflexivity|].
    destruct (bool_decide (pd_patch_code p = None) || (pd_size p =? 0)); reflexivity. }
  rewrite Htail. clear Htail.
  destruct (pd_target_module p =? 0);
    [destruct (allow_kernel_modifications (policy st)); reflexivity|].
  destruct (pd_target_module p =? 1);
    [destruct (allow_driver_modifications (policy st)); reflexivity|].
  destruct (pd_target_module p =? 2);
    [destruct (allow_memory_layout_changes (policy st)); reflexivity|].
  destruct (pd_target_module p =? 3);
    [destruct (allow_scheduler_modifications (policy st)); reflexivity|].
  reflexivity.
Qed.

Lemma size_in_range size bound :
  0 < size ≤ bound → ((size =? 0) || (size >? bound)) = false.
Proof.
  intros [Hpos Hle].
  apply orb_false_iff. split; [by apply Z.eqb_neq; lia|].
  rewrite Z.gtb_ltb. apply Z.ltb_ge. lia.
Qed.

(** On success the descriptor comes back verified; on every denial it
    comes back untouched. *)
Lemma verify_sets_flag_only_on_admit st p size :
  security_verify_patch st (Some p) size = (ERROR_NONE, Some (set_verified p true))
  ∨ (fst (security_verify_patch st (Some p) size) ≠ ERROR_NONE
     ∧ snd (security_verify_patch st (Some p) size) = Some p).
Proof.
  unfold security_verify_patch.
  destruct (negb (sec_initialized st)); [right; done|].
  destruct (size =? 0); [right; done|].
  destruct (size >? max_patch_size (policy st)); [right; done|].
  rewrite switch4.
  repeat match goal with
         | |- context [if ?b then _ else _] => destruct b; simpl; auto
         end.
Qed.

(** C2, as the spec words it, fails: a patch without a backup that
    targets a forbidden module is not answered with the integrity code
    [ERROR_INVALID_PARAMETER]. Under Strict, a kernel patch without a
    backup is answered with [ERROR_PERMISSION_DENIED]. *)
Lemma C2_counterexample :
  ¬ (∀ st p size,
       sec_initialized st = true →
       0 < size ≤ max_patch_size (policy st) →
       lacks_backup p = true →
       module_forbidden (policy st) (pd_target_module p) = true →
       fst (security_verify_patch st (Some p) size) = ERROR_INVALID_PARAMETER).
Proof.
  intros H.
  assert (Hsize : 0 < 16 ≤ max_patch_size (policy (security_at SECURITY_POLICY_STRICT)))
    by (vm_compute; split; [reflexivity | discriminate]).
  pose proof (H (security_at SECURITY_POLICY_STRICT) (patch_without_backup 1 0) 16
                eq_refl Hsize eq_refl eq_refl) as Hbad.
  vm_compute in Hbad. discriminate Hbad.
Qed.

(** C2, amended: on an initialized module the checks of
    [security_verify_patch] run in the order structural validity (the
    patch pointer, then the size argument against 0 and against
    [max_patch_size]), policy authorization of the target module (an
    unknown module id is rejected at this step), then integrity (backup
    and payload), and the first failing check decides the code. So a
    null patch or a size out of range is answered with
    [ERROR_INVALID_PARAMETER] whatever the target module; a structurally
    valid patch for a forbidden module is denied with
    [ERROR_PERMISSION_DENIED] whether or not it has a backup; and the
    missing backup is reported, as [ERROR_INVALID_PARAMETER], only for a
    module the policy allows. *)
Theorem C2_verify_policy_before_integrity st patch size :
  sec_initialized st = true →
  fst (security_verify_patch st patch size) =
    match patch with
    | None => ERROR_INVALID_PARAMETER
    | Some p =>
        if (size =? 0) || (size >? max_patch_size (policy st))
        then ERROR_INVALID_PARAMETER
        else if module_forbidden (policy st) (pd_target_module p)
        then ERROR_PERMISSION_DENIED
        else if negb (module_known (pd_target_module p))
        then ERROR_INVALID_PARAMETER
        else if lacks_backup p || lacks_payload p
        then ERROR_INVALID_PARAMETER
        else ERROR_NONE
    end
  ∧ (∀ p, patch = Some p →
       ¬ (0 < size ≤ max_patch_size (policy st)) → 0 ≤ size →
       fst (security_verify_patch st patch size) = ERROR_INVALID_PARAMETER)
  ∧ (∀ p, patch = Some p →
       0 < size ≤ max_patch_size (policy st) →
       module_forbidden (policy st) (pd_target_module p) = true →
       fst (security_verify_patch st patch size) = ERROR_PERMISSION_DENIED)
  ∧ (∀ p, patch = Some p →
       0 < size ≤ max_patch_size (policy st) →
       module_forbidden (policy st) (pd_target_module p) = false →
       module_known (pd_target_module p) = true →
       fst (security_verify_patch st patch size) =
         if lacks_backup p || lacks_payload p then ERROR_INVALID_PARAMETER
         else ERROR_NONE).
Proof.
  intros Hinit.
  assert (Hcascade :
    fst (security_verify_patch st patch size) =
      match patch with
      | None => ERROR_INVALID_PARAMETER
      | Some p =>
          if (size =? 0) || (size >? max_patch_size (policy st))
          then ERROR_INVALID_PARAMETER
          else if module_forbidden (policy st) (pd_target_module p)
          then ERROR_PERMISSION_DENIED
          else if negb (module_known (pd_target_module p))
          then ERROR_INVALID_PARAMETER
          else if lacks_backup p || lacks_payload p
          then ERROR_INVALID_PARAMETER
          else ERROR_NONE
      end).
  { destruct patch as [p|]; [by apply verify_check_order|].
    unfold security_verify_patch. by rewrite Hinit. }
  split; [exact Hcascade|]. rewrite Hcascade. split; [|split].
  - intros p -> Hout Hnonneg.
    destruct (Z.eqb_spec size 0) as [->|Hne]; [done|].
    destruct (Z.gtb_spec size (max_patch_size (policy st))) as [Hgt|Hle]; [done|].
    exfalso. apply Hout. lia.
  - intros p -> Hsize Hforbidden. by rewrite size_in_range, Hforbidden.
  - intros p -> Hsize Hallowed Hknown. by rewrite size_in_range, Hallowed, Hknown.
Qed.

Lemma C2_verify_policy_before_integrity_witness :
  lacks_backup (patch_without_backup 1 0) = true
  ∧ fst (security_verify_patch (security_at SECURITY_POLICY_STRICT)
           (Some (patch_without_backup 1 0)) 16) = ERROR_PERMISSION_DENIED
  ∧ fst (security_verify_patch (security_at SECURITY_POLICY_STANDARD)
           (Some (patch_without_backup 1 0)) 16) = ERROR_INVALID_PARAMETER
  ∧ fst (security_verify_patch (security_at SECURITY_POLICY_STRICT)
           (Some (patch_without_backup 1 0)) 0) = ERROR_INVALID_PARAMETER
  ∧ fst (security_verify_patch (security_at SECURITY_POLICY_STRICT)
           (Some (patch_without_backup 1 0)) 4096) = ERROR_INVALID_PARAMETER.
Proof.
  assert (Hstrict : 0 < 16 ≤ max_patch_size (policy (security_at SECURITY_POLICY_STRICT)))
    by (vm_compute; split; [reflexivity | discriminate]).
  assert (Hstd : 0 < 16 ≤ max_patch_size (policy (security_at SECURITY_POLICY_STANDARD)))
    by (vm_compute; split; [reflexivity | discriminate]).
  assert (Hzero : ¬ (0 < 0 ≤ max_patch_size (policy (security_at SECURITY_POLICY_STRICT))))
    by (intros [H _]; lia).
  assert (Hbig : ¬ (0 < 4096
                    ≤ max_patch_size (policy (security_at SECURITY_POLICY_STRICT))))
    by (vm_compute; intros [_ H]; by apply H).
  destruct (C2_verify_policy_before_integrity (security_at SECURITY_POLICY_STRICT)
              (Some (patch_without_backup 1 0)) 16 eq_refl) as (_ & _ & Hdeny & _).
  destruct (C2_verify_policy_before_integrity (security_at SECURITY_POLICY_STANDARD)
              (Some (patch_without_backup 1 0)) 16 eq_refl) as (_ & _ & _ & Hallow).
  destruct (C2_verify_policy_before_integrity (security_at SECURITY_POLICY_STRICT)
              (Some (patch_without_backup 1 0)) 0 eq_refl) as (_ & Hsize0 & _).
  destruct (C2_verify_policy_before_integrity (security_at SECURITY_POLICY_STRICT)
              (Some (patch_without_backup 1 0)) 4096 eq_refl) as (_ & Hsize1 & _).
  split; [reflexivity|].
  split; [exact (Hdeny _ eq_refl Hstrict eq_refl)|].
  split; [exact (Hallow _ eq_refl Hstd eq_refl eq_refl)|].
  split; [apply (Hsize0 _ eq_refl Hzero); lia | apply (Hsize1 _ eq_refl Hbig); lia].
Defined.

(** ** Policy levels *)

Lemma set_policy_bundle st lv :
  sec_initialized st = true →
  security_set_policy st lv =
    (ERROR_NONE, set_policy_field st (policy_bundle lv)).
Proof.
  intros Hinit. unfold security_set_policy. rewrite Hinit. simpl.
  destruct lv; reflexivity.
Qed.

(** C9: setting a level installs exactly the bundle of that level,
    whatever the policy was before, and touches nothing else of the
    state. The Strict bundle has [allow_memory_layout_changes = false],
    and under it every structurally valid patch for module 2 is denied
    with [ERROR_PERMISSION_DENIED]; the Standard bundle has the flag set,
    and under it the same patch is never denied with that code. *)
Theorem C9_strict_denies_memory_layout st lv p size :
  sec_initialized st = true →
  pd_target_module p = 2 →
  0 < size ≤ 2048 →
  let strict := snd (security_set_policy st SECURITY_POLICY_STRICT) in
  let standard := snd (security_set_policy st SECURITY_POLICY_STANDARD) in
  security_set_policy st lv = (ERROR_NONE, set_policy_field st (policy_bundle lv))
  ∧ allow_memory_layout_changes (policy strict) = false
  ∧ fst (security_verify_patch strict (Some p) size) = ERROR_PERMISSION_DENIED
  ∧ allow_memory_layout_changes (policy standard) = true
  ∧ fst (security_verify_patch standard (Some p) size) ≠ ERROR_PERMISSION_DENIED.
Proof.
  intros Hinit Hmod Hsize strict standard.
  subst strict standard. rewrite !set_policy_bundle by done. simpl.
  split; [done|]. split; [done|].
  rewrite !verify_check_order by done.
  rewrite Hmod. simpl.
  rewrite (size_in_range size 2048), (size_in_range size 4096) by lia.
  split; [done|]. split; [done|].
  destruct (lacks_backup p || lacks_payload p); discriminate.
Qed.

Lemma C9_strict_denies_memory_layout_witness :
  policy (security_at SECURITY_POLICY_STRICT) = policy_bundle SECURITY_POLICY_STRICT
  ∧ fst (security_verify_patch (security_at SECURITY_POLICY_STRICT)
           (Some (sample_patch 1 2)) 16) = ERROR_PERMISSION_DENIED
  ∧ fst (security_verify_patch (security_at SECURITY_POLICY_STANDARD)
           (Some (sample_patch 1 2)) 16) = ERROR_NONE.
Proof.
  assert (Hsize : 0 < 16 ≤ 2048) by lia.
  destruct (C9_strict_denies_memory_layout security_ready SECURITY_POLICY_STRICT
              (sample_patch 1 2) 16 eq_refl eq_refl Hsize)
    as (Hset & _ & Hstrict & _ & _).
  split; [|split; [exact Hstrict | reflexivity]].
  unfold security_at. by rewrite Hset.
Defined.

(** ** The enable switch *)




(** ** Rolling back one patch *)

Lemma window_split st i e :
  log_window st !! i = Some e →
  log_window st = take i (log_window st) ++ e :: drop (S i) (log_window st).
Proof. intros H. by rewrite take_drop_middle. Qed.

Lemma rollback_patch_not_found st patch_id :
  sec_initialized st = true →
  Forall (λ e, re_patch_id e ≠ patch_id) (log_window st) →
  security_rollback_patch st patch_id = (ERROR_INVALID_PARAMETER, st, []).
Proof.
  intros Hinit Hnone. unfold security_rollback_patch, find_rollback_entry.
  rewrite Hinit. simpl.
  assert (list_find (λ e, re_patch_id e = patch_id) (log_window st) = None) as ->;
    [by apply list_find_None | done].
Qed.

Lemma rollback_patch_found st patch_id i e :
  sec_initialized st = true →
  find_rollback_entry st patch_id = Some (i, e) →
  security_rollback_patch st patch_id =
    (ERROR_NONE,
     set_rollback_log st
       (mk_log (rl_entry_count (rollback_log st))
               (<[i := set_entry_patch_id e 0]> (rl_entries (rollback_log st)))),
     [mk_event i e]).
Proof.
  intros Hinit Hfind. unfold security_rollback_patch.
  by rewrite Hinit, Hfind.
Qed.

Lemma window_after_reset st i e :
  log_window st !! i = Some e →
  log_window (set_rollback_log st
     (mk_log (rl_entry_count (rollback_log st))
             (<[i := set_entry_patch_id e 0]> (rl_entries (rollback_log st)))))
  = <[i := set_entry_patch_id e 0]> (log_window st).
Proof.
  intros Hi. unfold log_window in *. simpl.
  apply lookup_take_Some in Hi as [_ Hlt].
  by rewrite take_insert_lt.
Qed.

Lemma no_match_of_count_zero {A} (P : A → Prop) `{∀ x, Decision (P x)} (l : list A) :
  length (filter P l) = 0%nat → Forall (λ y, ¬ P y) l.
Proof.
  intros Hl. apply Forall_forall. intros y Hy HP.
  apply (filter_nil_not_elem_of P l y); [by apply nil_length_inv | done | done].
Qed.

Lemma count_zero_of_no_match {A} (P : A → Prop) `{∀ x, Decision (P x)} (l : list A) :
  Forall (λ y, ¬ P y) l → length (filter P l) = 0%nat.
Proof.
  induction 1 as [|x l Hx _ IH]; [done|]. by rewrite filter_cons_False.
Qed.

Lemma single_match_split {A} (P : A → Prop) `{∀ x, Decision (P x)}
    (l1 l2 : list A) (x : A) :
  P x →
  (length (filter P (l1 ++ x :: l2)) ≤ 1)%nat →
  Forall (λ y, ¬ P y) l1 ∧ Forall (λ y, ¬ P y) l2.
Proof.
  intros Hx. rewrite filter_app, filter_cons_True, length_app by done. simpl.
  intros Hlen. split; apply (no_match_of_count_zero P); lia.
Qed.

Lemma match_of_count_pos {A} (P : A → Prop) `{∀ x, Decision (P x)} (l : list A) :
  (0 < length (filter P l))%nat → is_Some (list_find P l).
Proof.
  intros Hpos. destruct (filter P l) as [|x rest] eqn:Hf; [simpl in Hpos; lia|].
  assert (Hx : x ∈ filter P l) by (rewrite Hf; left).
  apply list_elem_of_filter in Hx as [HPx Hin].
  by apply (list_find_elem_of P l x).
Qed.

Lemma count_after_reset {A} (P : A → Prop) `{∀ x, Decision (P x)}
    (l : list A) (i : nat) (x y : A) :
  l !! i = Some x → P x → ¬ P y →
  S (length (filter P (<[i := y]> l))) = length (filter P l).
Proof.
  intros Hi Hx Hy.
  assert (Hlt : (i < length l)%nat) by by eapply lookup_lt_Some.
  rewrite (insert_take_drop l i y Hlt).
  rewrite <- (take_drop_middle l i x Hi) at 3.
  rewrite !filter_app, !length_app.
  rewrite filter_cons_False, filter_cons_True by done.
  cbn [length]. lia.
Qed.

(** C7, as the spec words it, fails: the log does not make patch ids
    unique. With two entries of id 5 in the log, the first
    [security_rollback_patch(5)] succeeds and the second one succeeds
    again, on the other entry, instead of answering
    [ERROR_INVALID_PARAMETER]. *)
Lemma C7_counterexample :
  ¬ (∀ st patch_id st1 evs,
       sec_initialized st = true →
       patch_id ≠ 0 →
       security_rollback_patch st patch_id = (ERROR_NONE, st1, evs) →
       fst (fst (security_rollback_patch st1 patch_id)) = ERROR_INVALID_PARAMETER).
Proof.
  intros H.
  assert (Hid : 5 ≠ 0) by lia.
  pose proof (H twice_patch_5 5 _ _ eq_refl Hid eq_refl) as Hbad.
  vm_compute in Hbad. discriminate Hbad.
Qed.

(** C7, amended: for a non-zero patch id, [security_rollback_patch]
    returns [ERROR_INVALID_PARAMETER] (the code's NotFound) and changes
    nothing when no entry below [entry_count] carries the id. When it
    succeeds, the first entry carrying the id is the one reverted and
    its id becomes the sentinel 0, so the log holds one entry of that
    id less. Patch ids are the caller's and the log does not make them
    unique: a second rollback of the same id returns
    [ERROR_INVALID_PARAMETER] and changes nothing exactly when the id
    labelled no more than one entry, and otherwise succeeds on the next
    entry of that id. *)
Theorem C7_double_rollback_not_found st patch_id :
  sec_initialized st = true →
  patch_id ≠ 0 →
  (entries_with_id st patch_id = 0%nat →
     security_rollback_patch st patch_id = (ERROR_INVALID_PARAMETER, st, []))
  ∧ (∀ st1 evs,
       security_rollback_patch st patch_id = (ERROR_NONE, st1, evs) →
       ∃ i e,
         evs = [mk_event i e]
         ∧ log_window st !! i = Some e
         ∧ re_patch_id e = patch_id
         ∧ log_window st1 !! i = Some (set_entry_patch_id e 0)
         ∧ (∀ j e', find_rollback_entry st1 patch_id = Some (j, e') → (i < j)%nat)
         ∧ S (entries_with_id st1 patch_id) = entries_with_id st patch_id
         ∧ ((entries_with_id st patch_id ≤ 1)%nat →
            entries_with_id st1 patch_id = 0%nat
            ∧ security_rollback_patch st1 patch_id
              = (ERROR_INVALID_PARAMETER, st1, []))
         ∧ ((1 < entries_with_id st patch_id)%nat →
            fst (fst (security_rollback_patch st1 patch_id)) = ERROR_NONE)).
Proof.
  intros Hinit Hid. split.
  - intros Hzero. apply rollback_patch_not_found; [done|].
    by apply (no_match_of_count_zero (λ e, re_patch_id e = patch_id)).
  - intros st1 evs Hrun.
    destruct (find_rollback_entry st patch_id) as [[i e]|] eqn:Hfind.
    2: { unfold security_rollback_patch in Hrun. rewrite Hinit, Hfind in Hrun.
         discriminate. }
    rewrite (rollback_patch_found st patch_id i e) in Hrun by done.
    injection Hrun as <- <-.
    unfold find_rollback_entry in Hfind.
    apply list_find_Some in Hfind as (Hi & He & Hfirst).
    pose proof (window_after_reset st i e Hi) as Hwin.
    assert (Hlt : (i < length (log_window st))%nat) by by eapply lookup_lt_Some.
    assert (Hcount :
      S (entries_with_id
           (set_rollback_log st
              (mk_log (rl_entry_count (rollback_log st))
                 (<[i := set_entry_patch_id e 0]> (rl_entries (rollback_log st)))))
           patch_id)
      = entries_with_id st patch_id).
    { unfold entries_with_id. rewrite Hwin.
      apply (count_after_reset (λ x, re_patch_id x = patch_id) _ i e); [done|done|].
      simpl. congruence. }
    exists i, e. split; [done|]. split; [done|]. split; [done|].
    split; [rewrite Hwin; by apply list_lookup_insert_eq|].
    split.
    { intros j e' Hagain. unfold find_rollback_entry in Hagain.
      rewrite Hwin in Hagain.
      apply list_find_Some in Hagain as (Hj & He' & _).
      destruct (decide (i < j)%nat) as [|Hge]; [done|]. exfalso.
      destruct (decide (j = i)) as [->|Hne].
      * rewrite list_lookup_insert_eq in Hj by done.
        injection Hj as <-. simpl in He'. congruence.
      * rewrite list_lookup_insert_ne in Hj by done.
        apply (Hfirst j e'); [done | lia | done]. }
    split; [exact Hcount|]. split.
    + intros Huniq.
      assert (Hzero : entries_with_id
                (set_rollback_log st
                   (mk_log (rl_entry_count (rollback_log st))
                      (<[i := set_entry_patch_id e 0]> (rl_entries (rollback_log st)))))
                patch_id = 0%nat) by lia.
      split; [done|].
      apply rollback_patch_not_found; [done|].
      by apply (no_match_of_count_zero (λ x, re_patch_id x = patch_id)).
    + intros Hmore.
      destruct (match_of_count_pos (λ x, re_patch_id x = patch_id)
                  (log_window
                     (set_rollback_log st
                        (mk_log (rl_entry_count (rollback_log st))
                           (<[i := set_entry_patch_id e 0]>
                              (rl_entries (rollback_log st)))))))
        as [[j e'] Hnext].
      { unfold entries_with_id in Hcount, Hmore. lia. }
      by rewrite (rollback_patch_found _ patch_id j e').
Qed.

Lemma C7_double_rollback_not_found_witness :
  (∃ st1 evs,
     security_rollback_patch scenario_c 7 = (ERROR_NONE, st1, evs)
     ∧ re_patch_id <$> log_window st1 = [0]
     ∧ security_rollback_patch st1 7 = (ERROR_INVALID_PARAMETER, st1, []))
  ∧ (∃ st1 evs,
       security_rollback_patch twice_patch_5 5 = (ERROR_NONE, st1, evs)
       ∧ re_patch_id <$> log_window st1 = [0; 5]
       ∧ fst (fst (security_rollback_patch st1 5)) = ERROR_NONE).
Proof.
  assert (Hid7 : 7 ≠ 0) by lia.
  assert (Hid5 : 5 ≠ 0) by lia.
  destruct (C7_double_rollback_not_found scenario_c 7 eq_refl Hid7) as [_ H7].
  destruct (C7_double_rollback_not_found twice_patch_5 5 eq_refl Hid5) as [_ H5].
  split.
  - eexists _, _. split; [reflexivity|]. split; [reflexivity|].
    destruct (H7 _ _ eq_refl) as (i & e & _ & _ & _ & _ & _ & _ & Hagain & _).
    apply Hagain. vm_compute. lia.
  - eexists _, _. split; [reflexivity|]. split; [reflexivity|].
    destruct (H5 _ _ eq_refl) as (i & e & _ & _ & _ & _ & _ & _ & _ & Hagain).
    apply Hagain. vm_compute. lia.
Defined.

Lemma set_patch_id_same e : re_patch_id e = 0 → set_entry_patch_id e 0 = e.
Proof. destruct e. simpl. by intros ->. Qed.

(** C10: the sentinel itself is matchable. In an initialized state where
    some entry below [entry_count] has id 0, [security_rollback_patch(0)]
    returns [ERROR_NONE]: it matches the first such entry, hands that
    entry's backup to [memory_free] once more, and leaves the state as it
    was. *)
Theorem C10_sentinel_id_matches_dead_entry st i e :
  sec_initialized st = true →
  log_window st !! i = Some e →
  re_patch_id e = 0 →
  ∃ j dead,
    (j ≤ i)%nat
    ∧ log_window st !! j = Some dead
    ∧ re_patch_id dead = 0
    ∧ security_rollback_patch st 0 = (ERROR_NONE, st, [mk_event j dead]).
Proof.
  intros Hinit Hi He.
  destruct (find_rollback_entry st 0) as [[j dead]|] eqn:Hfind.
  - pose proof Hfind as Hfound.
    unfold find_rollback_entry in Hfound.
    apply list_find_Some in Hfound as (Hj & Hdead & Hfirst).
    exists j, dead. split; [|split; [done|split; [done|]]].
    + destruct (decide (j ≤ i)%nat) as [|Hgt]; [done|].
      exfalso. apply (Hfirst i e); [done | lia | done].
    + rewrite (rollback_patch_found st 0 j dead) by done.
      rewrite set_patch_id_same by done.
      apply lookup_take_Some in Hj as [Hj _].
      rewrite list_insert_id by done.
      by destruct st as [? ? [] ?].
  - unfold find_rollback_entry in Hfind.
    apply list_find_None in Hfind.
    rewrite Forall_forall in Hfind.
    exfalso. apply (Hfind e); [|done].
    rewrite list_elem_of_lookup. by exists i.
Qed.

Lemma C10_sentinel_id_matches_dead_entry_witness :
  ∃ st1 j dead,
    security_rollback_patch scenario_c 7 = (ERROR_NONE, st1, [mk_event j dead])
    ∧ security_rollback_patch st1 0
      = (ERROR_NONE, st1, [mk_event j (set_entry_patch_id dead 0)]).
Proof.
  eexists _, 0%nat, _. split; [reflexivity|].
  destruct (C10_sentinel_id_matches_dead_entry
              (snd (fst (security_rollback_patch scenario_c 7))) 0%nat
              (set_entry_patch_id (mk_entry 7 0 (Some backup16) 16 3 0) 0)
              eq_refl eq_refl eq_refl)
    as (j & dead & Hj & Hlook & Hdead & Hrun).
  assert (j = 0%nat) as -> by lia.
  injection Hlook as <-. exact Hrun.
Defined.

(** ** The evolution cycle and the rollback log *)

Lemma analyze_keeps_security P s :
  security (snd (self_evolution_analyze P s)) = security s.
Proof.
  unfold self_evolution_analyze.
  destruct (negb (k_initialized (kernel s)) || _); [done|].
  destruct (ai_engine_collect_metrics _ _ _) as [[err1 ai1] metrics].
  destruct (bool_decide (err1 ≠ ERROR_NONE)); [done|].
  destruct (ai_engine_analyze_performance _ _ _) as [[err2 ai2] sugg].
  destruct (bool_decide (err2 ≠ ERROR_NONE)); [done|].
  destruct (ai_engine_generate_patches _ _ _) as [[err3 patches] generated].
  destruct (bool_decide (err3 ≠ ERROR_NONE)); [done|].
  by destruct (ai_engine_update_optimization_history _ _ _ _ _).
Qed.

(** No run of the controller writes the rollback log, whatever the
    collaborators do and however many patches it applies. *)
Lemma enable_keeps_security P s b :
  security (snd (self_evolution_enable P s b)) = security s.
Proof.
  unfold self_evolution_enable.
  destruct (negb (k_initialized (kernel s))); [done|].
  destruct (bool_decide _); [done|].
  destruct b; [|done].
  by rewrite analyze_keeps_security.
Qed.

(** ** The two bounded logs *)

(** Once the rollback log is full, the next entry lands in slot 0 and
    the count stays at 100. *)
Lemma create_entry_when_full st p :
  sec_initialized st = true →
  require_rollback_capability (policy st) = true →
  rl_entry_count (rollback_log st) = 100 →
  security_create_rollback_entry st (Some p) true =
    (ERROR_NONE,
     set_rollback_log st
       (mk_log 100 (<[0%nat := entry_of_patch p]> (rl_entries (rollback_log st))))).
Proof.
  intros Hinit Hreq Hfull. unfold security_create_rollback_entry.
  by rewrite Hinit, Hreq, Hfull.
Qed.

(** The same for the optimization history. *)
Lemma history_add_when_full t h suggestion_id :
  oh_entry_count h = 100 →
  history_add t h suggestion_id =
    mk_history 100
      (<[0%nat := mk_history_entry t suggestion_id zero false]> (oh_entries h)).
Proof. intros Hfull. unfold history_add. by rewrite Hfull. Qed.

Lemma create_entries_snoc st ps p :
  create_entries st (ps ++ [p]) =
    snd (security_create_rollback_entry (create_entries st ps) (Some p) true).
Proof. unfold create_entries. by rewrite foldl_app. Qed.

Lemma numbered_patches_S n :
  numbered_patches (S n) = numbered_patches n ++ [sample_patch (Z.of_nat (S n)) 3].
Proof. unfold numbered_patches. by rewrite seq_S, fmap_app. Qed.

Lemma record_cycle_adds h t : record_cycle h t = history_add (Z.of_nat t) h 1.
Proof. reflexivity. Qed.

Lemma record_cycles_S n h :
  record_cycles (S n) h = record_cycle (record_cycles n h) (S n).
Proof. unfold record_cycles. by rewrite seq_S, foldl_app. Qed.

Lemma create_entries_app st ps qs :
  create_entries st (ps ++ qs) = create_entries (create_entries st ps) qs.
Proof. unfold create_entries. by rewrite foldl_app. Qed.

Lemma record_cycles_split n k h :
  record_cycles (n + k) h = foldl record_cycle (record_cycles n h) (seq (S n) k).
Proof. unfold record_cycles. by rewrite seq_app, foldl_app. Qed.

(** On a full log, a run of insertions leaves only its last entry, in
    slot 0. *)
Lemma create_entries_on_full st ps p :
  sec_initialized st = true →
  require_rollback_capability (policy st) = true →
  rl_entry_count (rollback_log st) = 100 →
  create_entries st (ps ++ [p]) =
    set_rollback_log st
      (mk_log 100 (<[0%nat := entry_of_patch p]> (rl_entries (rollback_log st)))).
Proof.
  intros Hinit Hreq Hcount. revert p.
  induction ps as [|q ps IH] using rev_ind; intros p.
  - rewrite app_nil_l, <- (app_nil_l [p]), create_entries_snoc.
    by rewrite create_entry_when_full.
  - rewrite create_entries_snoc, IH.
    rewrite create_entry_when_full by done.
    cbn [snd set_rollback_log rollback_log rl_entries sec_initialized policy
         next_patch_id].
    by rewrite list_insert_insert_eq.
Qed.

Lemma record_cycles_on_full h (l : list nat) (t : nat) :
  oh_entry_count h = 100 →
  foldl record_cycle h (l ++ [t]) =
    mk_history 100
      (<[0%nat := mk_history_entry (Z.of_nat t) 1 zero false]> (oh_entries h)).
Proof.
  intros Hcount. revert t.
  induction l as [|u l IH] using rev_ind; intros t.
  - cbn [app foldl]. by rewrite record_cycle_adds, history_add_when_full.
  - rewrite foldl_app, IH. cbn [foldl].
    rewrite record_cycle_adds, history_add_when_full by done.
    cbn [oh_entries]. by rewrite list_insert_insert_eq.
Qed.

Lemma numbered_patches_split k :
  numbered_patches (100 + S k) =
    numbered_patches 100
    ++ (((λ i, sample_patch (Z.of_nat i) 3) <$> seq 101 k)
        ++ [sample_patch (Z.of_nat (100 + S k)) 3]).
Proof.
  unfold numbered_patches.
  rewrite seq_app, fmap_app. f_equal.
  rewrite seq_S, fmap_app. do 3 f_equal.
Qed.

Lemma full_log_ready :
  sec_initialized full_log = true
  ∧ require_rollback_capability (policy full_log) = true
  ∧ rl_entry_count (rollback_log full_log) = 100
  ∧ length (rl_entries (rollback_log full_log)) = 100%nat
  ∧ re_patch_id <$> rl_entries (rollback_log full_log) = 1 :: (Z.of_nat <$> seq 2 99).
Proof. vm_compute. repeat split. Qed.

Lemma full_history_ready :
  oh_entry_count full_history = 100
  ∧ length (oh_entries full_history) = 100%nat
  ∧ he_timestamp <$> oh_entries full_history = 1 :: (Z.of_nat <$> seq 2 99).
Proof. vm_compute. repeat split. Qed.

(** C3, the code past the capacity: 100 + k insertions, k >= 1, into
    each of the two capacity-100 logs, numbered in insertion order (by
    patch id in the rollback log, by timestamp in the history). The count
    is 100, but the stored entries are the last insertion, in slot 0,
    followed by the insertions 2..100. At the failing input, 102
    insertions, the log holds 102, 2, 3, ..., 100: insertion 101, the
    second most recent, is gone while the older insertions 2..100 are
    kept. *)
Theorem C3_overflow_overwrites_slot_zero (k : nat) :
  let st := create_entries security_ready (numbered_patches (100 + S k)) in
  let h := record_cycles (100 + S k) zero_history in
  rl_entry_count (rollback_log st) = 100
  ∧ re_patch_id <$> log_window st = Z.of_nat (100 + S k) :: (Z.of_nat <$> seq 2 99)
  ∧ oh_entry_count h = 100
  ∧ he_timestamp <$> history_window h = Z.of_nat (100 + S k) :: (Z.of_nat <$> seq 2 99).
Proof.
  cbv zeta.
  destruct full_log_ready as (Hinit & Hreq & Hcount & Hlen & Hids).
  destruct full_history_ready as (Hhcount & Hhlen & Hts).
  rewrite numbered_patches_split, create_entries_app.
  rewrite (create_entries_on_full _ _ _ Hinit Hreq Hcount).
  rewrite record_cycles_split, (seq_S k (S 100)).
  rewrite (record_cycles_on_full _ _ _ Hhcount).
  split; [done|]. split; [|split; [done|]].
  - unfold log_window. cbn [rollback_log set_rollback_log rl_entry_count rl_entries].
    rewrite take_ge by (rewrite length_insert, Hlen; lia).
    by rewrite list_fmap_insert, Hids.
  - unfold history_window. cbn [oh_entry_count oh_entries].
    rewrite take_ge by (rewrite length_insert, Hhlen; lia).
    rewrite list_fmap_insert, Hts. cbn [he_timestamp].
    by replace (S 100 + k)%nat with (100 + S k)%nat by lia.
Qed.

(** The instance of 102 insertions, evaluated. *)
Example overflow_at_102 :
  re_patch_id <$> log_window (create_entries security_ready (numbered_patches 102))
    = 102 :: (Z.of_nat <$> seq 2 99)
  ∧ he_timestamp <$> history_window (record_cycles 102 zero_history)
    = 102 :: (Z.of_nat <$> seq 2 99).
Proof. vm_compute. split; reflexivity. Qed.

(** ** History tagging *)

(** Inside the loop over [i < patch_count], the search for the
    "corresponding" suggestion stops at the first slot of the array. *)
Lemma find_corresponding_is_first arr i n s :
  arr !! 0%nat = Some s →
  i < n →
  find_corresponding_suggestion arr i n 0 10 = sg_id s.
Proof.
  intros Hs Hin. simpl. rewrite Hs.
  destruct (Z.eqb_spec (sg_id s) 0) as [->|_]; [done|].
  by apply Z.ltb_lt in Hin as ->.
Qed.

(** Every entry one call appends carries the id of the first suggestion. *)
Lemma update_history_tags_first e h arr patches n s :
  ai_initialized (ai_state e) = true →
  arr !! 0%nat = Some s →
  sg_id s ≠ 0 →
  ai_engine_update_optimization_history e (Some h) (Some arr) patches n =
    (ERROR_NONE,
     Some (foldl (λ acc _, history_add (ai_last_analysis_time (ai_state e)) acc (sg_id s))
                 h (seq 0 (Z.to_nat n)))).
Proof.
  intros Hinit Hs Hid. unfold ai_engine_update_optimization_history.
  rewrite Hinit. simpl. do 2 f_equal.
  assert (Hstep : ∀ (l : list nat) acc,
    Forall (λ i, Z.of_nat i < n) l →
    foldl (update_history_step (ai_last_analysis_time (ai_state e)) arr n) acc l =
    foldl (λ acc _, history_add (ai_last_analysis_time (ai_state e)) acc (sg_id s)) acc l).
  { induction l as [|i l IH]; intros acc Hall; [done|].
    apply Forall_cons in Hall as [Hi Hall]. simpl. rewrite <- IH by done.
    f_equal. unfold update_history_step.
    rewrite (find_corresponding_is_first arr _ n s) by done.
    by apply Z.eqb_neq in Hid as ->. }
  apply Hstep. apply Forall_forall. intros i Hi.
  apply elem_of_seq in Hi. lia.
Qed.

(** C4, the code at the failing input. With the memory and the scheduler
    rule both firing, the batch holds suggestions 1 and 2 and two
    patches are generated, one per suggestion; the history entries
    written for them carry the ids 1 and 1, both in a direct call and in
    the controller's cycle. Under Strict, where the only generated patch
    is denied and nothing is applied, an entry is written all the same. *)
Theorem C4_history_tags_first_suggestion :
  let '(_, e1, metrics) :=
    ai_engine_collect_metrics two_findings ai_ready (Some zero_metrics) in
  let '(_, e2, suggestions) :=
    ai_engine_analyze_performance two_findings e1 metrics in
  let '(_, patches, generated) :=
    ai_engine_generate_patches two_findings e2 suggestions in
  let '(_, h) :=
    ai_engine_update_optimization_history e2 (Some zero_history) suggestions
      patches generated in
  let cycle := snd (self_evolution_enable two_findings system_ready true) in
  let denied :=
    snd (self_evolution_enable scenario_a
           (mk_system kernel_ready ai_ready (security_at SECURITY_POLICY_STRICT))
           true) in
  sg_id <$> take 2 (default [] suggestions) = [1; 2]
  ∧ generated = 2
  ∧ he_suggestion_id <$> history_window (default zero_history h) = [1; 1]
  ∧ patch_count (evolution (kernel cycle)) = 2
  ∧ he_suggestion_id <$>
      history_window (default zero_history (optimization_history (evolution (kernel cycle))))
    = [1; 1]
  ∧ patch_count (evolution (kernel denied)) = 0
  ∧ he_suggestion_id <$>
      history_window (default zero_history (optimization_history (evolution (kernel denied))))
    = [1].
Proof. vm_compute. repeat split; reflexivity. Qed.

(** ** Rolling back everything *)

(** C8, the code at the failing input. With 100 entries created for the
    patches 1..100 the log has not wrapped and [security_rollback_all]
    reverts them newest first. With a 101st entry the log has wrapped:
    the entry of patch 101 sits in slot 0, and the sweep from slot 99
    down to slot 0 reverts the patches 100, 99, ..., 2 before it reaches
    patch 101, the most recently applied one, last. *)
Theorem C8_rollback_all_after_wrap_leaves_newest_last :
  let full := create_entries security_ready (numbered_patches 100) in
  let wrapped := create_entries security_ready (numbered_patches 101) in
  (re_patch_id ∘ ev_entry) <$> snd (security_rollback_all full)
    = Z.of_nat <$> reverse (seq 1 100)
  ∧ (re_patch_id ∘ ev_entry) <$> snd (security_rollback_all wrapped)
    = (Z.of_nat <$> reverse (seq 2 99)) ++ [101].
Proof. vm_compute. split; reflexivity. Qed.

(** ** Learning *)

Lemma learn_loop_reads (h : optimization_history_t) (l : list nat) :
  ∀ ms, foldl (learn_step h) ms l =
        foldl learn_entry ms (omap (λ i, oh_entries h !! (i mod 100)%nat) l).
Proof.
  induction l as [|i l IH]; intros ms; [done|].
  cbn -[Nat.modulo]. unfold learn_step at 2.
  destruct (oh_entries h !! (i mod 100)%nat); cbn -[Nat.modulo]; apply IH.
Qed.

(** With the count within the capacity, the loop reads the entries
    below [entry_count], each once, in index order. *)
Lemma learn_reads_window h :
  oh_entry_count h ≤ 100 → learn_reads h = history_window h.
Proof.
  intros Hle. unfold learn_reads, history_window.
  assert (Hn : (Z.to_nat (oh_entry_count h) ≤ 100)%nat) by lia.
  induction (Z.to_nat (oh_entry_count h)) as [|n IH]; [done|].
  rewrite seq_S, omap_app, IH by lia. cbn -[Nat.modulo].
  rewrite Nat.mod_small by lia.
  destruct (oh_entries h !! n) as [entry|] eqn:Hlook.
  - by rewrite (take_S_r _ _ entry).
  - apply lookup_ge_None in Hlook. rewrite !take_ge by lia. by rewrite app_nil_r.
Qed.

Lemma model_index_inj t1 t2 : model_index t1 = model_index t2 → t1 = t2.
Proof. by destruct t1, t2. Qed.

Lemma set_accuracy_same m : set_accuracy m (accuracy m) = m.
Proof. by destruct m. Qed.

(** A run of entries moves the accuracy of a model by exactly the
    entries the table assigns to it; the other entries leave it alone. *)
Lemma learn_entries_model t ms m l :
  ms !! model_index t = Some m →
  foldl learn_entry ms l !! model_index t =
    Some (set_accuracy m (accuracy_after (accuracy m) (entries_of_model t l))).
Proof.
  revert ms m. induction l as [|e l IH]; intros ms m Hm; simpl.
  { unfold entries_of_model, accuracy_after. simpl. by rewrite set_accuracy_same. }
  unfold entries_of_model, learn_entry at 2.
  destruct (suggestion_model (he_suggestion_id e)) as [t'|] eqn:Ht'.
  - destruct (decide (t' = t)) as [->|Hne].
    + rewrite filter_cons_True by done.
      erewrite IH; [|by rewrite list_lookup_alter_eq, Hm]. done.
    + rewrite filter_cons_False by congruence.
      apply IH. rewrite list_lookup_alter_ne; [done|].
      intros Heq. by apply Hne, model_index_inj.
  - rewrite filter_cons_False by congruence. by apply IH.
Qed.

Lemma suggestion_model_table :
  suggestion_model 1 = Some AI_MODEL_MEMORY
  ∧ suggestion_model 2 = Some AI_MODEL_SCHEDULER
  ∧ suggestion_model 3 = Some AI_MODEL_PERFORMANCE
  ∧ ∀ i, i ≠ 1 → i ≠ 2 → i ≠ 3 → suggestion_model i = None.
Proof.
  repeat split. intros i H1 H2 H3. unfold suggestion_model.
  rewrite (switch4 i None (Some AI_MODEL_MEMORY) (Some AI_MODEL_SCHEDULER)
             (Some AI_MODEL_PERFORMANCE) None).
  destruct (Z.eqb_spec i 0); [done|].
  destruct (Z.eqb_spec i 1); [done|].
  destruct (Z.eqb_spec i 2); [done|].
  by destruct (Z.eqb_spec i 3).
Qed.

(** C6: [ai_engine_learn_from_history] succeeds on an initialized engine.
    The model an entry belongs to is given by the fixed table (1 to
    Memory, 2 to Scheduler, 3 to Performance, any other id to none), and
    the accuracy of each model after the call is its prior accuracy
    taken through the entries of that model in reading order, each step
    being [0.9f * accuracy + 0.1f * actual_improvement] for an entry that
    is not reverted and [0.9f * accuracy] for a reverted one, in binary32
    arithmetic; entries of other models and of unknown ids do not touch
    it. For a prior accuracy 0.7f and a non-reverted improvement 0.5f the
    step gives [11408507 * 2^-24], the binary32 value of 0.68 (within
    half a unit in the last place of 68/100). *)
Theorem C6_learn_updates_owning_model (e : ai_engine_t) (t : ai_model_type_t)
    (m : ai_model_t) :
  ai_initialized (ai_state e) = true →
  models e !! model_index t = Some m →
  (suggestion_model 1 = Some AI_MODEL_MEMORY
   ∧ suggestion_model 2 = Some AI_MODEL_SCHEDULER
   ∧ suggestion_model 3 = Some AI_MODEL_PERFORMANCE
   ∧ ∀ i, i ≠ 1 → i ≠ 2 → i ≠ 3 → suggestion_model i = None)
  ∧ (∀ acc x,
       learned_accuracy acc x false = add (mul f0_9 acc) (mul f0_1 x)
       ∧ learned_accuracy acc x true = mul f0_9 acc)
  ∧ fst (ai_engine_learn_from_history e) = ERROR_NONE
  ∧ models (snd (ai_engine_learn_from_history e)) !! model_index t =
      Some (set_accuracy m
              (accuracy_after (accuracy m)
                 (entries_of_model t (learn_reads (history (ai_state e))))))
  ∧ (oh_entry_count (history (ai_state e)) ≤ 100 →
     learn_reads (history (ai_state e)) = history_window (history (ai_state e)))
  ∧ learned_accuracy f0_7 f0_5 false = decimal 68 100
  ∧ decimal 68 100 = S754_finite false 11408507 (-24)
  ∧ 2 * Z.abs (11408507 * 100 - 68 * 2 ^ 24) ≤ 100.
Proof.
  intros Hinit Hm.
  split; [apply suggestion_model_table|].
  split; [done|].
  unfold ai_engine_learn_from_history. rewrite Hinit. simpl.
  split; [done|]. split; [|split; [apply learn_reads_window|]].
  - rewrite learn_loop_reads. by apply learn_entries_model.
  - split; [reflexivity|]. split; [reflexivity|]. vm_compute. discriminate.
Qed.

Lemma C6_learn_updates_owning_model_witness :
  accuracy <$> models (snd (ai_engine_learn_from_history scenario_d))
    !! model_index AI_MODEL_SCHEDULER = Some (decimal 68 100).
Proof.
  destruct (C6_learn_updates_owning_model scenario_d AI_MODEL_SCHEDULER
              (set_accuracy (initial_model AI_MODEL_SCHEDULER) f0_7)
              eq_refl eq_refl)
    as (_ & _ & _ & Hrun & _).
  rewrite Hrun. reflexivity.
Defined.

(** * Further properties *)

(** ** Admission *)

Lemma admission_conditions st p size :
  fst (security_verify_patch st (Some p) size) = ERROR_NONE ↔
    sec_initialized st = true
    ∧ size ≠ 0 ∧ size ≤ max_patch_size (policy st)
    ∧ module_known (pd_target_module p) = true
    ∧ module_forbidden (policy st) (pd_target_module p) = false
    ∧ lacks_backup p = false ∧ lacks_payload p = false.
Proof.
  destruct (sec_initialized st) eqn:Hinit.
  - rewrite verify_check_order by done.
    destruct (Z.eqb_spec size 0) as [->|Hsize]; simpl.
    { split; [discriminate | by intros (_ & ? & _)]. }
    destruct (Z.gtb_spec size (max_patch_size (policy st))) as [Hgt|Hle]; simpl.
    { split; [discriminate | intros (_ & _ & ? & _); lia]. }
    destruct (module_forbidden _ _); simpl.
    { split; [discriminate | by intros (_ & _ & _ & _ & ? & _)]. }
    destruct (module_known _); simpl.
    2: { split; [discriminate | by intros (_ & _ & _ & ? & _)]. }
    destruct (lacks_backup p); simpl.
    { split; [discriminate | by intros (_ & _ & _ & _ & _ & ? & _)]. }
    destruct (lacks_payload p); simpl.
    { split; [discriminate | by intros (_ & _ & _ & _ & _ & _ & ?)]. }
    done.
  - rewrite verify_uninitialized by done. simpl.
    split; [discriminate | by intros (? & _)].
Qed.

(** X1: the verifier admits a patch exactly when the security module is
    initialized, the size argument is non-zero and within the policy's
    limit, the target module is one of the four known ones and allowed,
    and backup and payload are both present and non-empty. In
    particular no patch without a backup is ever admitted. An admitted
    patch comes back with [verified] set and nothing else changed. *)
Theorem verify_admits_exactly_safe_patches st p size :
  (fst (security_verify_patch st (Some p) size) = ERROR_NONE ↔
     sec_initialized st = true
     ∧ size ≠ 0 ∧ size ≤ max_patch_size (policy st)
     ∧ module_known (pd_target_module p) = true
     ∧ module_forbidden (policy st) (pd_target_module p) = false
     ∧ lacks_backup p = false ∧ lacks_payload p = false)
  ∧ (fst (security_verify_patch st (Some p) size) = ERROR_NONE →
     snd (security_verify_patch st (Some p) size) = Some (set_verified p true)).
Proof.
  split; [apply admission_conditions|].
  intros Hok.
  destruct (verify_sets_flag_only_on_admit st p size) as [-> | [Hne _]]; done.
Qed.

(** X2: verifying again what the verifier returned gives the same code
    and the same descriptor, admitted or denied. *)
Theorem verify_again_same_result st p size :
  security_verify_patch st (snd (security_verify_patch st (Some p) size)) size
  = security_verify_patch st (Some p) size.
Proof.
  destruct (verify_sets_flag_only_on_admit st p size) as [Hok | [_ Hsame]].
  - rewrite Hok. simpl.
    revert Hok. unfold security_verify_patch.
    destruct (negb (sec_initialized st)); [discriminate|].
    destruct (size =? 0); [discriminate|].
    destruct (size >? max_patch_size (policy st)); [discriminate|].
    cbn [pd_target_module set_verified pd_original_code pd_original_size
         pd_patch_code pd_size].
    destruct (match pd_target_module p with
              | 0 => _ | 1 => _ | 2 => _ | 3 => _ | _ => _ end);
      try discriminate.
    destruct (bool_decide _ || _); [discriminate|].
    destruct (bool_decide _ || _); [discriminate|].
    by destruct p.
  - by rewrite Hsame.
Qed.

Lemma bundle_order lv1 lv2 :
  (strictness lv1 ≤ strictness lv2)%nat →
  max_patch_size (policy_bundle lv2) ≤ max_patch_size (policy_bundle lv1)
  ∧ ∀ m, module_forbidden (policy_bundle lv1) m = true →
         module_forbidden (policy_bundle lv2) m = true.
Proof.
  intros Hle.
  destruct lv1, lv2; simpl in Hle; try lia; (split; [simpl; lia|]);
    intros m; rewrite !module_forbidden_eq; simpl;
    repeat destruct (m =? _); done.
Qed.

(** X3: the four levels are ordered. Whatever the verifier admits
    under a level it also admits under every more permissive level. *)
Theorem stricter_level_admits_less st lv1 lv2 p size :
  sec_initialized st = true →
  (strictness lv1 ≤ strictness lv2)%nat →
  fst (security_verify_patch (snd (security_set_policy st lv2)) (Some p) size)
    = ERROR_NONE →
  fst (security_verify_patch (snd (security_set_policy st lv1)) (Some p) size)
    = ERROR_NONE.
Proof.
  intros Hinit Hle.
  destruct (bundle_order lv1 lv2 Hle) as [Hmax Hflags].
  rewrite !set_policy_bundle by done. cbn [snd].
  intros Hadm.
  apply admission_conditions in Hadm
    as (_ & Hnz & Hsize & Hknown & Hallowed & Hbackup & Hpayload).
  apply admission_conditions.
  cbn [policy set_policy_field sec_initialized] in *.
  repeat split; try done; [lia|].
  destruct (module_forbidden (policy_bundle lv1) (pd_target_module p)) eqn:Hf;
    [|done].
  apply Hflags in Hf. congruence.
Qed.

Lemma stricter_level_admits_less_witness :
  fst (security_verify_patch (security_at SECURITY_POLICY_STANDARD)
         (Some (sample_patch 1 3)) 16) = ERROR_NONE.
Proof.
  assert (Hle : (strictness SECURITY_POLICY_STANDARD
                 ≤ strictness SECURITY_POLICY_STRICT)%nat) by (simpl; lia).
  exact (stricter_level_admits_less security_ready SECURITY_POLICY_STANDARD
           SECURITY_POLICY_STRICT (sample_patch 1 3) 16 eq_refl Hle eq_refl).
Defined.

(** ** The gate inside the cycle *)

Lemma apply_step_accepted P sec patches generated c i :
  apply_patch_step P sec patches generated c i =
    if patch_accepted P sec patches generated i then (c + 1) mod uint32_modulus
    else c.
Proof.
  unfold apply_patch_step, patch_accepted.
  destruct (patches !! i) as [[patch sz]|]; [|done].
  destruct (fst (security_verify_patch _ _ _)); try done.
  by destruct (self_evolution_apply_patch _ _ _).
Qed.

Lemma apply_loop_counts P sec patches generated (l : list nat) c :
  0 ≤ c < uint32_modulus →
  foldl (apply_patch_step P sec patches generated) c l =
    (c + Z.of_nat (length (filter (λ i, patch_accepted P sec patches generated i = true) l)))
    mod uint32_modulus.
Proof.
  revert c. induction l as [|i l IH]; intros c Hc.
  - simpl. rewrite Z.add_0_r. by rewrite Z.mod_small.
  - cbn [foldl]. rewrite apply_step_accepted.
    destruct (patch_accepted P sec patches generated i) eqn:Hacc.
    + rewrite filter_cons_True by done.
      rewrite IH by (apply Z.mod_pos_bound; done).
      cbn [length]. rewrite Zplus_mod_idemp_l. f_equal. lia.
    + rewrite filter_cons_False by (rewrite Hacc; done). by apply IH.
Qed.

(** X4: the applied-patch counter moves only through the gate. Over any
    run of the application loop, [patch_count] grows (modulo 2^32) by
    exactly the number of generated patches that the verifier admitted
    and the applier accepted; a patch the verifier denies is never
    handed to the applier's count. *)
Theorem apply_loop_counts_admitted_patches (P : platform) (sec : security_state_t)
    (patches : list (patch_buffer * Z)) (generated : Z) (c : Z) :
  0 ≤ c < uint32_modulus →
  foldl (apply_patch_step P sec patches generated) c (seq 0 (Z.to_nat generated)) =
    (c + Z.of_nat (length (filter (λ i, patch_accepted P sec patches generated i = true)
                                  (seq 0 (Z.to_nat generated)))))
    mod uint32_modulus
  ∧ ∀ i patch sz,
      patches !! i = Some (patch, sz) →
      fst (security_verify_patch sec (Some (patch_header P patch))
             (patch_size_read P patches generated i)) ≠ ERROR_NONE →
      patch_accepted P sec patches generated i = false.
Proof.
  intros Hc. split; [by apply apply_loop_counts|].
  intros i patch sz Hi Hdenied. unfold patch_accepted. rewrite Hi.
  by rewrite bool_decide_eq_false_2.
Qed.

Lemma apply_loop_counts_admitted_patches_witness :
  foldl (apply_patch_step scenario_a security_ready [(placeholder_patch, 16)] 1) 0
        (seq 0 (Z.to_nat 1)) = 1.
Proof.
  assert (Hc : 0 ≤ 0 < uint32_modulus) by (vm_compute; split; [discriminate|reflexivity]).
  destruct (apply_loop_counts_admitted_patches scenario_a security_ready
              [(placeholder_patch, 16)] 1 0 Hc) as [Hrun _].
  rewrite Hrun. reflexivity.
Defined.

Lemma paranoid_denies st p size :
  policy st = policy_bundle SECURITY_POLICY_PARANOID →
  fst (security_verify_patch st p size) ≠ ERROR_NONE.
Proof.
  intros Hpol. destruct p as [p|].
  - intros Hadm. apply admission_conditions in Hadm
      as (_ & _ & _ & Hknown & Hallowed & _).
    rewrite Hpol, module_forbidden_eq in Hallowed.
    rewrite module_known_eq in Hknown. simpl in Hallowed.
    destruct (pd_target_module p =? 0); [done|].
    destruct (pd_target_module p =? 1); [done|].
    destruct (pd_target_module p =? 2); [done|].
    by destruct (pd_target_module p =? 3).
  - unfold security_verify_patch. by destruct (negb _).
Qed.

Lemma apply_loop_all_denied P sec patches generated (l : list nat) c :
  (∀ p size, fst (security_verify_patch sec p size) ≠ ERROR_NONE) →
  foldl (apply_patch_step P sec patches generated) c l = c.
Proof.
  intros Hdeny. revert c. induction l as [|i l IH]; intros c; [done|].
  cbn [foldl]. rewrite IH. unfold apply_patch_step.
  destruct (patches !! i) as [[patch sz]|]; [|done].
  specialize (Hdeny (Some (patch_header P patch))
                (patch_size_read P patches generated i)).
  by destruct (fst (security_verify_patch _ _ _)).
Qed.

(** X5: under the Paranoid bundle no cycle applies anything. Whatever
    the collaborators deliver and whether the cycle ends in success or
    in an error, [patch_count] after [self_evolution_analyze] is what it
    was before. *)
Theorem paranoid_cycle_applies_nothing (P : platform) (s : system_t) :
  policy (security s) = policy_bundle SECURITY_POLICY_PARANOID →
  patch_count (evolution (kernel (snd (self_evolution_analyze P s))))
  = patch_count (evolution (kernel s)).
Proof.
  intros Hpol. unfold self_evolution_analyze.
  destruct (negb (k_initialized (kernel s)) || _); [done|].
  destruct (ai_engine_collect_metrics _ _ _) as [[err1 ai1] metrics].
  destruct (bool_decide (err1 ≠ ERROR_NONE)); [done|].
  destruct (ai_engine_analyze_performance _ _ _) as [[err2 ai2] sugg].
  destruct (bool_decide (err2 ≠ ERROR_NONE)); [done|].
  destruct (ai_engine_generate_patches _ _ _) as [[err3 patches] generated].
  destruct (bool_decide (err3 ≠ ERROR_NONE)); [done|].
  destruct (ai_engine_update_optimization_history _ _ _ _ _) as [? h'].
  cbn [snd kernel evolution set_evolution patch_count].
  apply apply_loop_all_denied. intros p size. by apply paranoid_denies.
Qed.

Lemma paranoid_cycle_applies_nothing_witness :
  fst (self_evolution_analyze scenario_a paranoid_system) = ERROR_NONE
  ∧ patch_count (evolution (kernel (snd (self_evolution_analyze scenario_a paranoid_system))))
    = 1.
Proof.
  split; [reflexivity|].
  rewrite (paranoid_cycle_applies_nothing scenario_a paranoid_system eq_refl).
  reflexivity.
Defined.

(** ** The security state over runs of operations *)

Lemma invariant_after_init fresh :
  length fresh = 100%nat →
  security_invariant (snd (security_init security_state_zero (Some fresh))).
Proof. intros Hlen. repeat split; done. Qed.

Lemma set_policy_keeps_invariant st lv :
  security_invariant st → security_invariant (snd (security_set_policy st lv)).
Proof.
  intros (Hinit & Hpol & Hcount & Hlen & Hnext).
  rewrite set_policy_bundle by done. cbn [snd].
  repeat split; try done; simpl; try lia. by destruct lv.
Qed.

Lemma create_entry_keeps_invariant st patch alloc_ok :
  security_invariant st →
  security_invariant (snd (security_create_rollback_entry st patch alloc_ok)).
Proof.
  intros (Hinit & Hpol & Hcount & Hlen & Hnext).
  unfold security_create_rollback_entry. rewrite Hinit. simpl.
  destruct patch as [p|]; [|done].
  destruct (require_rollback_capability (policy st)); [|done].
  destruct alloc_ok; simpl.
  - repeat split; try done; simpl; rewrite ?length_insert; try done;
      destruct (Z.ltb_spec (rl_entry_count (rollback_log st)) 100); lia.
  - repeat split; try done; simpl; rewrite ?length_insert; try done; lia.
Qed.

Lemma rollback_patch_keeps_invariant st patch_id :
  security_invariant st →
  security_invariant (snd (fst (security_rollback_patch st patch_id))).
Proof.
  intros (Hinit & Hpol & Hcount & Hlen & Hnext).
  unfold security_rollback_patch. rewrite Hinit. simpl.
  destruct (find_rollback_entry st patch_id) as [[i e]|]; [|done].
  repeat split; try done; simpl; rewrite ?length_insert; try done; lia.
Qed.

Lemma rollback_loop_keeps_invariant n st trace :
  security_invariant st →
  security_invariant (fst (rollback_all_loop n st trace)).
Proof.
  revert st trace. induction n as [|i IH]; intros st trace Hinv; [done|].
  simpl. destruct (rl_entries (rollback_log st) !! i) as [entry|]; [|by apply IH].
  destruct (negb (re_patch_id entry =? 0)); [|by apply IH].
  pose proof (rollback_patch_keeps_invariant st (re_patch_id entry) Hinv) as Hstep.
  destruct (security_rollback_patch st (re_patch_id entry)) as [[err st'] evs].
  by apply IH.
Qed.

Lemma rollback_all_keeps_invariant st :
  security_invariant st →
  security_invariant (snd (fst (security_rollback_all st))).
Proof.
  intros Hinv. unfold security_rollback_all.
  destruct (negb (sec_initialized st)); [done|].
  pose proof (rollback_loop_keeps_invariant
                (Z.to_nat (rl_entry_count (rollback_log st))) st [] Hinv) as Hloop.
  by destruct (rollback_all_loop _ st []).
Qed.

(** X6: what the security state keeps. After a successful
    [security_init] and any sequence of policy changes, rollback-entry
    creations (with the allocation succeeding or failing) and rollbacks,
    the module is initialized, its policy is the fixed bundle of its
    level, [entry_count] lies in 0..100, the log array has its 100
    slots, and [next_patch_id] still has its initial value 1. *)
Theorem security_invariant_holds (fresh : list rollback_entry_t)
    (ops : list security_op) :
  length fresh = 100%nat →
  security_invariant
    (run_security_ops (snd (security_init security_state_zero (Some fresh))) ops).
Proof.
  intros Hlen. unfold run_security_ops.
  generalize (invariant_after_init fresh Hlen).
  generalize (snd (security_init security_state_zero (Some fresh))).
  induction ops as [|op ops IH]; intros st Hinv; [done|].
  cbn [foldl]. apply IH.
  destruct op; simpl.
  - by apply set_policy_keeps_invariant.
  - by apply create_entry_keeps_invariant.
  - by apply rollback_patch_keeps_invariant.
  - by apply rollback_all_keeps_invariant.
Qed.

Lemma security_invariant_holds_witness :
  security_invariant
    (run_security_ops security_ready
       [OpCreateEntry (Some (sample_patch 7 3)) true;
        OpSetPolicy SECURITY_POLICY_STRICT;
        OpCreateEntry (Some (sample_patch 8 1)) false;
        OpRollbackPatch 7; OpRollbackAll]).
Proof.
  exact (security_invariant_holds fresh_log
           [OpCreateEntry (Some (sample_patch 7 3)) true;
            OpSetPolicy SECURITY_POLICY_STRICT;
            OpCreateEntry (Some (sample_patch 8 1)) false;
            OpRollbackPatch 7; OpRollbackAll] eq_refl).
Defined.

(** ** Capturing and reverting one patch *)

Lemma window_snoc (l : list rollback_entry_t) (n : nat) e :
  (n < length l)%nat →
  take (S n) (<[n := e]> l) = take n l ++ [e].
Proof.
  intros Hn.
  rewrite (take_S_r _ _ e) by (by apply list_lookup_insert_eq).
  by rewrite take_insert_ge.
Qed.

(** X7: capture then revert is a round trip. In an initialized state
    whose policy requires rollback capability and whose log is not yet
    full, creating the entry for a patch with a fresh non-zero id
    appends exactly that patch's capture at the end of the log, and a
    following [security_rollback_patch] of the id succeeds, reverts that
    same slot and hands back the first [original_size] bytes of the
    patch's original code; afterwards the log is the old log followed by
    one dead entry. *)
Theorem create_then_rollback_returns_backup st p :
  sec_initialized st = true →
  require_rollback_capability (policy st) = true →
  0 ≤ rl_entry_count (rollback_log st) < 100 →
  (Z.to_nat (rl_entry_count (rollback_log st)) < length (rl_entries (rollback_log st)))%nat →
  pd_id p ≠ 0 →
  entries_with_id st (pd_id p) = 0%nat →
  let st1 := snd (security_create_rollback_entry st (Some p) true) in
  let slot := Z.to_nat (rl_entry_count (rollback_log st)) in
  fst (security_create_rollback_entry st (Some p) true) = ERROR_NONE
  ∧ rl_entry_count (rollback_log st1) = rl_entry_count (rollback_log st) + 1
  ∧ log_window st1 = log_window st ++ [entry_of_patch p]
  ∧ re_original_code (entry_of_patch p)
    = Some (take (Z.to_nat (pd_original_size p)) (default [] (pd_original_code p)))
  ∧ fst (security_rollback_patch st1 (pd_id p))
    = (ERROR_NONE,
       set_rollback_log st1
         (mk_log (rl_entry_count (rollback_log st1))
                 (<[slot := set_entry_patch_id (entry_of_patch p) 0]>
                    (rl_entries (rollback_log st1)))))
  ∧ snd (security_rollback_patch st1 (pd_id p)) = [mk_event slot (entry_of_patch p)]
  ∧ log_window (snd (fst (security_rollback_patch st1 (pd_id p))))
    = log_window st ++ [set_entry_patch_id (entry_of_patch p) 0].
Proof.
  intros Hinit Hreq Hcount Hslot Hid Hfresh st1 slot.
  assert (Hcreate : security_create_rollback_entry st (Some p) true =
    (ERROR_NONE,
     set_rollback_log st
       (mk_log (rl_entry_count (rollback_log st) + 1)
               (<[slot := entry_of_patch p]> (rl_entries (rollback_log st)))))).
  { unfold security_create_rollback_entry. rewrite Hinit, Hreq. simpl.
    rewrite Z.mod_small by lia.
    by destruct (Z.ltb_spec (rl_entry_count (rollback_log st)) 100); [|lia]. }
  assert (Hwin1 : log_window st1 = log_window st ++ [entry_of_patch p]).
  { subst st1. rewrite Hcreate. unfold log_window. simpl.
    replace (Z.to_nat (rl_entry_count (rollback_log st) + 1)) with (S slot)
      by (subst slot; lia).
    by apply window_snoc. }
  assert (Hlen : length (log_window st) = slot).
  { unfold log_window. rewrite length_take. subst slot. lia. }
  assert (Hfind : find_rollback_entry st1 (pd_id p) = Some (slot, entry_of_patch p)).
  { unfold find_rollback_entry. rewrite Hwin1.
    apply list_find_Some. split; [|split; [done|]].
    - rewrite lookup_app_r by lia. by rewrite Hlen, Nat.sub_diag.
    - intros j y Hj Hlt. rewrite lookup_app_l in Hj by lia.
      apply (no_match_of_count_zero (λ e, re_patch_id e = pd_id p)) in Hfresh.
      rewrite Forall_forall in Hfresh. apply Hfresh.
      rewrite list_elem_of_lookup. by exists j. }
  assert (Hinit1 : sec_initialized st1 = true) by (subst st1; by rewrite Hcreate).
  rewrite (rollback_patch_found st1 (pd_id p) slot (entry_of_patch p)) by done.
  split; [by rewrite Hcreate|]. split; [subst st1; by rewrite Hcreate|].
  split; [done|]. split; [done|]. split; [done|]. split; [done|].
  cbn [fst snd]. rewrite window_after_reset.
  - rewrite Hwin1. rewrite <- Hlen at 1.
    rewrite insert_app_r_alt by lia. by rewrite Nat.sub_diag.
  - rewrite Hwin1, lookup_app_r by lia. by rewrite Hlen, Nat.sub_diag.
Qed.

Lemma create_then_rollback_returns_backup_witness :
  snd (security_rollback_patch
         (snd (security_create_rollback_entry security_ready (Some (sample_patch 7 3)) true))
         7)
  = [mk_event 0 (mk_entry 7 0 (Some backup16) 16 3 0)].
Proof.
  assert (Hcount : 0 ≤ rl_entry_count (rollback_log security_ready) < 100)
    by (vm_compute; split; [discriminate | reflexivity]).
  assert (Hslot : (Z.to_nat (rl_entry_count (rollback_log security_ready))
                   < length (rl_entries (rollback_log security_ready)))%nat)
    by (vm_compute; lia).
  assert (Hid : pd_id (sample_patch 7 3) ≠ 0) by (simpl; lia).
  destruct (create_then_rollback_returns_backup security_ready (sample_patch 7 3)
              eq_refl eq_refl Hcount Hslot Hid eq_refl)
    as (_ & _ & _ & _ & _ & Hevent & _).
  exact Hevent.
Defined.

(** X8: a failed capture is not free of effects. When the allocation
    of the backup fails the call returns [ERROR_MEMORY_ALLOCATION] and
    [entry_count] stays, but the slot [entry_count % 100] has already
    received the patch's id and lost its backup pointer. Below the
    capacity that slot lies outside the visible log, which is
    unchanged; on a full log it is slot 0, whose previous entry is gone:
    it now carries the new patch's id with no backup. *)
Theorem failed_capture_clobbers_slot st p :
  sec_initialized st = true →
  require_rollback_capability (policy st) = true →
  0 ≤ rl_entry_count (rollback_log st) ≤ 100 →
  length (rl_entries (rollback_log st)) = 100%nat →
  let st1 := snd (security_create_rollback_entry st (Some p) false) in
  fst (security_create_rollback_entry st (Some p) false) = ERROR_MEMORY_ALLOCATION
  ∧ rl_entry_count (rollback_log st1) = rl_entry_count (rollback_log st)
  ∧ (rl_entry_count (rollback_log st) < 100 → log_window st1 = log_window st)
  ∧ (rl_entry_count (rollback_log st) = 100 →
     ∃ e, log_window st1 !! 0%nat = Some e
          ∧ re_patch_id e = pd_id p ∧ re_original_code e = None).
Proof.
  intros Hinit Hreq Hcount Hlen st1. subst st1.
  unfold security_create_rollback_entry. rewrite Hinit, Hreq. simpl.
  split; [done|]. split; [done|]. split.
  - intros Hlt. unfold log_window. simpl.
    rewrite Z.mod_small by lia. by rewrite take_insert_ge.
  - intros Hfull. unfold log_window. simpl. rewrite Hfull.
    change (Z.to_nat (100 mod 100)) with 0%nat.
    change (Z.to_nat 100) with 100%nat.
    eexists. split.
    + rewrite lookup_take_lt by lia. apply list_lookup_insert_eq. lia.
    + split; reflexivity.
Qed.

Lemma failed_capture_clobbers_slot_witness :
  re_patch_id <$>
    log_window (snd (security_create_rollback_entry full_log
                       (Some (sample_patch 200 3)) false)) !! 0%nat
  = Some 200.
Proof.
  assert (Hcount : 0 ≤ rl_entry_count (rollback_log full_log) ≤ 100)
    by (vm_compute; split; discriminate).
  destruct (failed_capture_clobbers_slot full_log (sample_patch 200 3)
              (proj1 full_log_ready) (proj1 (proj2 full_log_ready)) Hcount
              (proj1 (proj2 (proj2 (proj2 full_log_ready)))))
    as (_ & _ & _ & Hfull).
  destruct (Hfull (proj1 (proj2 (proj2 full_log_ready)))) as (e & -> & Hid & _).
  simpl. by rewrite Hid.
Defined.

(** ** Reverting everything *)

Lemma nodup_filter_index {A} (Q : Z → Prop) `{∀ x, Decision (Q x)}
    (f : A → Z) (l : list A) :
  NoDup (filter Q (f <$> l)) →
  ∀ i j a b, l !! i = Some a → l !! j = Some b → f a = f b → Q (f a) → i = j.
Proof.
  induction l as [|x l IH]; intros Hnd i j a b Hi Hj Hab HQ; [done|].
  assert (Hin : ∀ k c, l !! k = Some c → f c = f x → Q (f x) →
                       f x ∈ filter Q (f <$> l)).
  { intros k c Hk Hc HQx. apply list_elem_of_filter. split; [done|].
    rewrite <- Hc. apply list_elem_of_fmap. exists c. split; [done|].
    rewrite list_elem_of_lookup. by exists k. }
  cbn [fmap list_fmap] in Hnd.
  destruct i as [|i], j as [|j]; simpl in Hi, Hj; [done| | |].
  - injection Hi as <-. rewrite filter_cons_True in Hnd by done.
    apply NoDup_cons in Hnd as [Hnotin _]. exfalso. apply Hnotin.
    by apply (Hin j b).
  - injection Hj as <-. rewrite filter_cons_True in Hnd by (by rewrite <- Hab).
    apply NoDup_cons in Hnd as [Hnotin _]. exfalso. apply Hnotin.
    apply (Hin i a); [done | done | by rewrite <- Hab].
  - f_equal. assert (Hnd' : NoDup (filter Q (f <$> l))).
    { destruct (decide (Q (f x))).
      + rewrite filter_cons_True in Hnd by done. by apply NoDup_cons in Hnd as [_ ?].
      + by rewrite filter_cons_False in Hnd. }
    by apply (IH Hnd' i j a b).
Qed.

Lemma live_ids_after_reset (l : list rollback_entry_t) i e :
  l !! i = Some e →
  NoDup (filter (λ x, x ≠ 0) (re_patch_id <$> l)) →
  NoDup (filter (λ x, x ≠ 0) (re_patch_id <$> <[i := set_entry_patch_id e 0]> l)).
Proof.
  intros Hi Hnd.
  assert (Hlt : (i < length l)%nat) by by eapply lookup_lt_Some.
  rewrite insert_take_drop by done.
  rewrite <- (take_drop_middle l i e Hi) in Hnd.
  rewrite !fmap_app, !filter_app in *. rewrite !fmap_cons in *.
  rewrite (filter_cons_False _ (re_patch_id (set_entry_patch_id e 0))) by (simpl; tauto).
  apply NoDup_app in Hnd as (HA & Hdisj & HB).
  apply NoDup_app. split; [done|]. split.
  - intros x Hx HxB. apply (Hdisj x Hx).
    destruct (decide (re_patch_id e ≠ 0)).
    + rewrite filter_cons_True by done. by apply list_elem_of_further.
    + by rewrite filter_cons_False.
  - destruct (decide (re_patch_id e ≠ 0)).
    + rewrite filter_cons_True in HB by done. by apply NoDup_cons in HB as [_ ?].
    + by rewrite filter_cons_False in HB.
Qed.

Lemma rollback_loop_spec k :
  ∀ st trace,
    sec_initialized st = true →
    (k ≤ Z.to_nat (rl_entry_count (rollback_log st)))%nat →
    NoDup (live_ids st) →
    let r := rollback_all_loop k st trace in
    sec_initialized (fst r) = true
    ∧ rl_entry_count (rollback_log (fst r)) = rl_entry_count (rollback_log st)
    ∧ log_window (fst r)
      = ((λ e, set_entry_patch_id e 0) <$> take k (log_window st))
        ++ drop k (log_window st)
    ∧ ∃ evs, snd r = trace ++ evs
        ∧ (re_patch_id ∘ ev_entry) <$> evs
          = reverse (filter (λ x, x ≠ 0) (re_patch_id <$> take k (log_window st))).
Proof.
  induction k as [|i IH]; intros st trace Hinit Hk Hnd.
  { cbn [rollback_all_loop fst snd]. rewrite take_0, drop_0.
    repeat split; try done. exists []. by rewrite app_nil_r. }
  cbn [rollback_all_loop].
  assert (Hwin : log_window st !! i = rl_entries (rollback_log st) !! i).
  { unfold log_window. apply lookup_take_lt. lia. }
  destruct (rl_entries (rollback_log st) !! i) as [entry|] eqn:Hentry.
  2: { apply lookup_ge_None in Hwin.
       destruct (IH st trace Hinit ltac:(lia) Hnd) as (H1 & H2 & H3 & evs & H4 & H5).
       rewrite !take_ge, !drop_ge in * by lia.
       repeat split; try done. by exists evs. }
  destruct (Z.eqb_spec (re_patch_id entry) 0) as [Hdead|Hlive]; cbn [negb].
  - destruct (IH st trace Hinit ltac:(lia) Hnd) as (H1 & H2 & H3 & evs & H4 & H5).
    split; [done|]. split; [done|]. split.
    + rewrite H3, (take_S_r _ _ entry), (drop_S _ entry i) by done.
      rewrite fmap_app. cbn [fmap list_fmap].
      rewrite set_patch_id_same by done. by rewrite <- app_assoc.
    + exists evs. split; [done|].
      rewrite H5, (take_S_r _ _ entry), fmap_app, filter_app by done.
      cbn [fmap list_fmap]. rewrite filter_cons_False by (rewrite Hdead; tauto).
      by rewrite filter_nil, app_nil_r.
  - assert (Hfind : find_rollback_entry st (re_patch_id entry) = Some (i, entry)).
    { unfold find_rollback_entry. apply list_find_Some.
      split; [done|]. split; [done|].
      intros j y Hj Hlt Hsame.
      assert (j = i); [|lia].
      apply (nodup_filter_index (λ x, x ≠ 0) re_patch_id (log_window st) Hnd
               j i y entry); try done. by rewrite Hsame. }
    rewrite (rollback_patch_found st _ i entry) by done.
    set (st1 := set_rollback_log st _).
    assert (Hwin1 : log_window st1 = <[i := set_entry_patch_id entry 0]> (log_window st))
      by (by apply window_after_reset).
    assert (Hnd1 : NoDup (live_ids st1)).
    { unfold live_ids. rewrite Hwin1. by apply live_ids_after_reset. }
    assert (Hlt : (i < length (log_window st))%nat) by by eapply lookup_lt_Some.
    destruct (IH st1 (trace ++ [mk_event i entry]) Hinit ltac:(simpl; lia) Hnd1)
      as (H1 & H2 & H3 & evs & H4 & H5).
    split; [done|]. split; [done|]. split.
    + rewrite H3, Hwin1. rewrite take_insert_ge by lia.
      rewrite (drop_S _ (set_entry_patch_id entry 0) i)
        by (by apply list_lookup_insert_eq).
      rewrite drop_insert_lt by lia.
      rewrite (take_S_r _ _ entry), fmap_app by done.
      by rewrite <- app_assoc.
    + exists (mk_event i entry :: evs). split.
      * by rewrite H4, <- app_assoc.
      * rewrite fmap_cons, H5, Hwin1. rewrite take_insert_ge by lia.
        rewrite (take_S_r _ _ entry), fmap_app, filter_app by done.
        cbn [fmap list_fmap]. rewrite filter_cons_True by done.
        rewrite filter_nil, reverse_app. done.
Qed.

Lemma no_live_id_among_dead (l : list rollback_entry_t) :
  Forall (λ e, re_patch_id e = 0) l →
  filter (λ x, x ≠ 0) (re_patch_id <$> l) = [].
Proof.
  induction 1 as [|e l He _ IHl]; [done|].
  rewrite fmap_cons, filter_cons_False by (rewrite He; tauto). done.
Qed.

Lemma rollback_loop_on_dead k :
  ∀ st trace,
    (∀ i e, (i < k)%nat → rl_entries (rollback_log st) !! i = Some e → re_patch_id e = 0) →
    rollback_all_loop k st trace = (st, trace).
Proof.
  induction k as [|i IH]; intros st trace Hdead; [done|].
  cbn [rollback_all_loop].
  destruct (rl_entries (rollback_log st) !! i) as [entry|] eqn:Hentry.
  - rewrite (Hdead i entry) by (done || lia). cbn [Z.eqb negb].
    apply IH. intros j e Hj. apply Hdead. lia.
  - apply IH. intros j e Hj. apply Hdead. lia.
Qed.

(** X9: with patch ids unique among the live entries,
    [security_rollback_all] reverts every live entry below
    [entry_count], each once, from the highest slot down to slot 0, and
    leaves only dead entries; [entry_count] is unchanged, so the dead
    entries keep occupying the log. A second call then finds nothing to
    revert and changes nothing. *)
Theorem rollback_all_reverts_every_live_entry st :
  sec_initialized st = true →
  NoDup (live_ids st) →
  let st' := snd (fst (security_rollback_all st)) in
  fst (fst (security_rollback_all st)) = ERROR_NONE
  ∧ rl_entry_count (rollback_log st') = rl_entry_count (rollback_log st)
  ∧ log_window st' = (λ e, set_entry_patch_id e 0) <$> log_window st
  ∧ live_ids st' = []
  ∧ (re_patch_id ∘ ev_entry) <$> snd (security_rollback_all st) = reverse (live_ids st)
  ∧ security_rollback_all st' = (ERROR_NONE, st', []).
Proof.
  intros Hinit Hnd st'.
  pose proof (rollback_loop_spec (Z.to_nat (rl_entry_count (rollback_log st)))
                st [] Hinit ltac:(lia) Hnd) as Hloop.
  subst st'.
  assert (Hall : security_rollback_all st =
            (ERROR_NONE,
             fst (rollback_all_loop (Z.to_nat (rl_entry_count (rollback_log st))) st []),
             snd (rollback_all_loop (Z.to_nat (rl_entry_count (rollback_log st))) st []))).
  { unfold security_rollback_all. rewrite Hinit. cbn [negb].
    by destruct (rollback_all_loop _ st []). }
  rewrite Hall. clear Hall.
  destruct (rollback_all_loop _ st []) as [st' tr].
  cbn [fst snd] in *.
  destruct Hloop as (Hinit' & Hcount & Hwin & evs & -> & Hids).
  assert (Hlen : (length (log_window st) ≤ Z.to_nat (rl_entry_count (rollback_log st)))%nat).
  { unfold log_window. rewrite length_take. lia. }
  rewrite take_ge, drop_ge, ?app_nil_r in * by lia.
  assert (Hdead : Forall (λ e, re_patch_id e = 0) (log_window st')).
  { rewrite Hwin. apply Forall_fmap, Forall_forall. by intros. }
  split; [done|]. split; [done|]. split; [done|]. split; [|split; [done|]].
  - unfold live_ids. by apply no_live_id_among_dead.
  - unfold security_rollback_all. rewrite Hinit'. cbn [negb].
    rewrite rollback_loop_on_dead; [done|].
    intros i e Hi He. rewrite Forall_forall in Hdead. apply Hdead.
    rewrite list_elem_of_lookup. exists i. unfold log_window.
    rewrite lookup_take_lt; [done|]. exact Hi.
Qed.

Lemma rollback_all_reverts_every_live_entry_witness :
  (re_patch_id ∘ ev_entry) <$>
    snd (security_rollback_all
           (create_entries security_ready
              [sample_patch 5 3; sample_patch 9 1; sample_patch 7 3]))
  = [7; 9; 5].
Proof.
  assert (Hnd : NoDup (live_ids (create_entries security_ready
                         [sample_patch 5 3; sample_patch 9 1; sample_patch 7 3]))).
  { unfold live_ids. apply (bool_decide_unpack (NoDup _)). vm_compute. exact I. }
  destruct (rollback_all_reverts_every_live_entry
              (create_entries security_ready
                 [sample_patch 5 3; sample_patch 9 1; sample_patch 7 3])
              eq_refl Hnd)
    as (_ & _ & _ & _ & Htrace & _).
  rewrite Htrace. reflexivity.
Defined.

(** ** Analysis and patch generation *)

(** X10: what an analysis pass writes. On an initialized engine with a
    metrics sample and a successful allocation of the array (of at
    least three slots), [ai_engine_analyze_performance] succeeds and the
    array it returns starts with the suggestions of the rules that fired,
    at most one per rule and in the order memory, scheduler, I/O; the
    remaining slots hold whatever the allocator left there. *)
Theorem analysis_writes_fired_rules (P : platform) (e : ai_engine_t)
    (m : performance_metrics_t) :
  ai_initialized (ai_state e) = true →
  memory_allocate P AllocSuggestions = true →
  (3 ≤ length (fresh_suggestions P))%nat →
  fst (fst (ai_engine_analyze_performance P e (Some m))) = ERROR_NONE
  ∧ snd (ai_engine_analyze_performance P e (Some m))
    = Some (fired_suggestions P m
            ++ drop (length (fired_suggestions P m)) (fresh_suggestions P))
  ∧ (length (fired_suggestions P m) ≤ 3)%nat
  ∧ ai_last_analysis_time
      (ai_state (snd (fst (ai_engine_analyze_performance P e (Some m)))))
    = pm_uptime m.
Proof.
  intros Hinit Halloc Hlen.
  unfold ai_engine_analyze_performance, fired_suggestions.
  rewrite Hinit, Halloc. cbn [negb].
  destruct (fresh_suggestions P) as [|f0 [|f1 [|f2 rest]]]; simpl in Hlen; try lia.
  destruct (ltb f0_5 _), (ltb f100 _), ((pm_io_operations m >? 1000) && _);
    cbn; repeat split; try done; lia.
Qed.

Lemma analysis_writes_fired_rules_witness :
  sg_id <$> take 2 (default []
    (snd (ai_engine_analyze_performance two_findings ai_ready
            (Some (mk_performance_metrics
                     (snd (memory_get_metrics two_findings))
                     (snd (scheduler_get_metrics two_findings)) 0 0 zero 0 0)))))
  = [1; 2].
Proof.
  assert (Hlen : (3 ≤ length (fresh_suggestions two_findings))%nat)
    by (vm_compute; lia).
  destruct (analysis_writes_fired_rules two_findings ai_ready
              (mk_performance_metrics
                 (snd (memory_get_metrics two_findings))
                 (snd (scheduler_get_metrics two_findings)) 0 0 zero 0 0)
              eq_refl eq_refl Hlen) as (_ & Harr & _).
  rewrite Harr. reflexivity.
Defined.

Lemma count_valid_bound arr c fuel :
  (c ≤ count_valid_suggestions arr c fuel ≤ c + fuel)%nat.
Proof.
  revert c. induction fuel as [|fuel IH]; intros c; simpl; [lia|].
  destruct (arr !! c) as [s|]; [|lia].
  destruct (sg_id s =? 0); [lia|].
  specialize (IH (S c)). lia.
Qed.

Lemma generate_step_shape P arr acc i :
  Forall (λ q, q = (placeholder_patch, 16)) acc →
  Forall (λ q, q = (placeholder_patch, 16)) (generate_patch_step P arr acc i)
  ∧ (length acc ≤ length (generate_patch_step P arr acc i) ≤ S (length acc))%nat.
Proof.
  intros Hacc. unfold generate_patch_step.
  destruct (arr !! i) as [s|]; [|split; [done|lia]].
  destruct (sg_confidence s <? 60); [split; [done|lia]|].
  rewrite (switch4 (sg_id s)).
  repeat match goal with
         | |- context [if ?b then _ else _] => destruct b
         end;
    rewrite ?length_app, ?Forall_app; simpl; (split; [|lia]);
    try done; split; try done; by apply Forall_singleton.
Qed.

Lemma generate_loop_shape P arr (l : list nat) acc :
  Forall (λ q, q = (placeholder_patch, 16)) acc →
  Forall (λ q, q = (placeholder_patch, 16)) (foldl (generate_patch_step P arr) acc l)
  ∧ (length (foldl (generate_patch_step P arr) acc l) ≤ length acc + length l)%nat.
Proof.
  revert acc. induction l as [|i l IH]; intros acc Hacc; simpl; [split; [done|lia]|].
  destruct (generate_step_shape P arr acc i Hacc) as [Hstep Hlen].
  destruct (IH _ Hstep) as [Hall Hbound]. split; [done|lia].
Qed.

(** X11: what patch generation can produce. Whatever the suggestion
    array and the allocator, [ai_engine_generate_patches] reports a
    count equal to the number of patches in the array it returns, at
    most 10, and every generated patch is the same 16-byte placeholder
    [E8 CC ... CC] with size 16; with a failure code it returns no array
    and a count of 0. *)
Theorem generated_patches_are_placeholders (P : platform) (e : ai_engine_t)
    (suggestions : option (list optimization_suggestion_t)) :
  let '(err, patches, n) := ai_engine_generate_patches P e suggestions in
  n = Z.of_nat (length (default [] patches))
  ∧ 0 ≤ n ≤ 10
  ∧ Forall (λ q, q = (placeholder_patch, 16)) (default [] patches)
  ∧ (err ≠ ERROR_NONE → patches = None).
Proof.
  unfold ai_engine_generate_patches.
  destruct (negb (ai_initialized (ai_state e))); [by repeat split|].
  destruct suggestions as [arr|]; [|by repeat split].
  pose proof (count_valid_bound arr 0 10) as Hcount.
  destruct (count_valid_suggestions arr 0 10 =? 0)%nat; [by repeat split|].
  destruct (negb (memory_allocate P AllocPatchArray)); [by repeat split|].
  destruct (generate_loop_shape P arr (seq 0 (count_valid_suggestions arr 0 10)) [])
    as [Hall Hlen]; [done|].
  rewrite length_seq in Hlen. simpl in *.
  repeat split; try done; lia.
Qed.

(** X12: on zeroed memory with every allocation succeeding, one
    analysis pass followed by patch generation yields exactly one
    placeholder patch per rule that fired: the count reported by
    [ai_engine_generate_patches] is the number of fired rules, and the
    array is [NULL] exactly when no rule fired. *)
Theorem one_patch_per_fired_rule (P : platform) (e : ai_engine_t)
    (m : performance_metrics_t) :
  ai_initialized (ai_state e) = true →
  (∀ site, memory_allocate P site = true) →
  fresh_suggestions P = replicate 10 zero_suggestion →
  let r := ai_engine_analyze_performance P e (Some m) in
  let k := length (fired_suggestions P m) in
  ai_engine_generate_patches P (snd (fst r)) (snd r)
  = (ERROR_NONE,
     if (k =? 0)%nat then None else Some (replicate k (placeholder_patch, 16)),
     Z.of_nat k).
Proof.
  intros Hinit Halloc Hfresh.
  unfold ai_engine_analyze_performance, ai_engine_generate_patches, fired_suggestions.
  rewrite Hinit, !Halloc, Hfresh. cbn [negb ai_state set_last_analysis_time
    ai_initialized].
  destruct (ltb f0_5 _), (ltb f100 _), ((pm_io_operations m >? 1000) && _);
    cbn; rewrite ?Hinit, ?Halloc; cbn; rewrite ?Halloc; reflexivity.
Qed.

Lemma one_patch_per_fired_rule_witness :
  let r := ai_engine_analyze_performance two_findings ai_ready
             (Some (mk_performance_metrics
                      (snd (memory_get_metrics two_findings))
                      (snd (scheduler_get_metrics two_findings)) 0 0 zero 0 0)) in
  snd (ai_engine_generate_patches two_findings (snd (fst r)) (snd r)) = 2.
Proof.
  cbv zeta.
  rewrite (one_patch_per_fired_rule two_findings ai_ready
             (mk_performance_metrics
                (snd (memory_get_metrics two_findings))
                (snd (scheduler_get_metrics two_findings)) 0 0 zero 0 0)
             eq_refl (λ _, eq_refl) eq_refl).
  reflexivity.
Defined.

(** ** Models, learning and the two histories *)

Lemma learn_entry_identity ms entry :
  model_identity <$> learn_entry ms entry = model_identity <$> ms.
Proof.
  unfold learn_entry. destruct (suggestion_model _) as [t|]; [|done].
  apply list_eq. intros i. rewrite !list_lookup_fmap.
  destruct (decide (i = model_index t)) as [->|Hne].
  - rewrite list_lookup_alter_eq. by destruct (ms !! model_index t).
  - by rewrite list_lookup_alter_ne.
Qed.

Lemma learn_entries_identity (l : list history_entry_t) ms :
  model_identity <$> foldl learn_entry ms l = model_identity <$> ms.
Proof.
  revert ms. induction l as [|entry l IH]; intros ms; [done|].
  cbn [foldl]. by rewrite IH, learn_entry_identity.
Qed.

(** X13: the analysis pass overwrites what learning computed. After
    [ai_engine_analyze_performance] on the six models, the accuracy of
    model [i] is the placeholder [0.7f + i / 60.0f] whatever it was
    before, so the accuracies after analysing a freshly learned engine
    are those after analysing the engine itself. *)
Theorem analysis_discards_learned_accuracy (P : platform) (e : ai_engine_t)
    (m : performance_metrics_t) :
  ai_initialized (ai_state e) = true →
  memory_allocate P AllocSuggestions = true →
  length (models e) = 6%nat →
  accuracy <$> models (snd (fst (ai_engine_analyze_performance P e (Some m))))
    = placeholder_accuracy_value <$> seq 0 6
  ∧ accuracy <$> models (snd (fst (ai_engine_analyze_performance P
                                     (snd (ai_engine_learn_from_history e)) (Some m))))
    = accuracy <$> models (snd (fst (ai_engine_analyze_performance P e (Some m)))).
Proof.
  intros Hinit Halloc Hlen.
  assert (Hreset : ∀ e', ai_initialized (ai_state e') = true →
            length (models e') = 6%nat →
            accuracy <$> models (snd (fst (ai_engine_analyze_performance P e' (Some m))))
            = placeholder_accuracy_value <$> seq 0 6).
  { intros e' Hinit' Hlen'. unfold ai_engine_analyze_performance.
    rewrite Hinit', Halloc. cbn [negb].
    destruct (models e') as [|m0 [|m1 [|m2 [|m3 [|m4 [|m5 [|? ?]]]]]]];
      simpl in Hlen'; try lia.
    destruct (ltb f0_5 _), (ltb f100 _), ((pm_io_operations m >? 1000) && _);
      reflexivity. }
  split; [by apply Hreset|].
  assert (Hinit2 : ai_initialized (ai_state (snd (ai_engine_learn_from_history e))) = true).
  { unfold ai_engine_learn_from_history. rewrite Hinit. cbn. exact Hinit. }
  assert (Hlen2 : length (models (snd (ai_engine_learn_from_history e))) = 6%nat).
  { unfold ai_engine_learn_from_history. rewrite Hinit. cbn [negb snd models].
    rewrite <- (length_fmap model_identity), learn_loop_reads.
    by rewrite learn_entries_identity, length_fmap. }
  by rewrite (Hreset _ Hinit2 Hlen2), (Hreset _ Hinit Hlen).
Qed.

Lemma analysis_discards_learned_accuracy_witness :
  accuracy <$> models (snd (fst (ai_engine_analyze_performance scenario_a
                                   (snd (ai_engine_learn_from_history scenario_d))
                                   (Some zero_metrics))))
  = placeholder_accuracy_value <$> seq 0 6.
Proof.
  destruct (analysis_discards_learned_accuracy scenario_a scenario_d zero_metrics
              eq_refl eq_refl eq_refl) as [H1 H2].
  rewrite H2. exact H1.
Defined.

Lemma untouched_model ms (l : list history_entry_t) t :
  entries_of_model t l = [] →
  foldl learn_entry ms l !! model_index t = ms !! model_index t.
Proof.
  intros Hnone. destruct (ms !! model_index t) as [m|] eqn:Hm.
  - rewrite (learn_entries_model t ms m l Hm), Hnone.
    unfold accuracy_after. simpl. by rewrite set_accuracy_same.
  - apply lookup_ge_None in Hm. apply lookup_ge_None.
    assert (length (foldl learn_entry ms l) = length ms) as ->; [|done].
    rewrite <- (length_fmap model_identity), learn_entries_identity.
    by rewrite length_fmap.
Qed.

(** X14: what learning can change. [ai_engine_learn_from_history]
    changes nothing but accuracies: type, payload, size, version,
    timestamp and inference count of every model stay as they were. The
    Power, Security and Code models are never touched at all, whatever
    the history holds, because no suggestion id is mapped to them. *)
Theorem learning_changes_only_three_accuracies (e : ai_engine_t) :
  let e' := snd (ai_engine_learn_from_history e) in
  model_identity <$> models e' = model_identity <$> models e
  ∧ models e' !! model_index AI_MODEL_POWER = models e !! model_index AI_MODEL_POWER
  ∧ models e' !! model_index AI_MODEL_SECURITY = models e !! model_index AI_MODEL_SECURITY
  ∧ models e' !! model_index AI_MODEL_CODE = models e !! model_index AI_MODEL_CODE
  ∧ history (ai_state e') = history (ai_state e).
Proof.
  cbv zeta. unfold ai_engine_learn_from_history.
  destruct (negb (ai_initialized (ai_state e))); [done|].
  cbn [snd models ai_state set_last_learning_time history].
  rewrite learn_loop_reads.
  assert (Hnone : ∀ t l,
            (∀ i, suggestion_model i ≠ Some t) → entries_of_model t l = []).
  { intros t l Ht. unfold entries_of_model.
    induction l as [|x l IH]; [done|]. by rewrite filter_cons_False. }
  assert (Hrange : ∀ i t, suggestion_model i = Some t →
            t = AI_MODEL_MEMORY ∨ t = AI_MODEL_SCHEDULER ∨ t = AI_MODEL_PERFORMANCE).
  { intros i t. unfold suggestion_model. rewrite (switch4 i).
    repeat destruct (i =? _); intros [= <-]; auto. }
  split; [apply learn_entries_identity|].
  repeat split; try done; apply untouched_model, Hnone;
    intros i Hi; by destruct (Hrange i _ Hi) as [?|[?|?]].
Qed.

Lemma collect_keeps_history P e metrics :
  history (ai_state (snd (fst (ai_engine_collect_metrics P e metrics))))
  = history (ai_state e)
  ∧ models (snd (fst (ai_engine_collect_metrics P e metrics))) = models e.
Proof.
  unfold ai_engine_collect_metrics.
  destruct (negb (ai_initialized (ai_state e))); [done|].
  destruct metrics as [m|]; [|done].
  destruct (memory_get_metrics P) as [err1 mm].
  destruct (bool_decide (err1 ≠ ERROR_NONE)); [done|].
  destruct (scheduler_get_metrics P) as [err2 sm].
  destruct (bool_decide (err2 ≠ ERROR_NONE)); [done|].
  by destruct (io_get_metrics P).
Qed.

Lemma analysis_keeps_history P e metrics :
  history (ai_state (snd (fst (ai_engine_analyze_performance P e metrics))))
  = history (ai_state e).
Proof.
  unfold ai_engine_analyze_performance.
  destruct (negb (ai_initialized (ai_state e))); [done|].
  destruct metrics as [m|]; [|done].
  destruct (negb (memory_allocate P AllocSuggestions)); [done|].
  by destruct (ltb f0_5 _), (ltb f100 _), ((pm_io_operations m >? 1000) && _).
Qed.

Lemma cycle_keeps_engine_history P s :
  history (ai_state (ai (snd (self_evolution_analyze P s))))
  = history (ai_state (ai s)).
Proof.
  unfold self_evolution_analyze.
  destruct (negb (k_initialized (kernel s)) || _); [done|].
  pose proof (collect_keeps_history P (ai s)
                (performance_metrics (evolution (kernel s)))) as [Hc _].
  cbn [performance_metrics].
  destruct (ai_engine_collect_metrics _ _ _) as [[err1 ai1] metrics].
  cbn [fst snd] in Hc.
  destruct (bool_decide (err1 ≠ ERROR_NONE)); [done|].
  pose proof (analysis_keeps_history P ai1 metrics) as Ha.
  destruct (ai_engine_analyze_performance _ _ _) as [[err2 ai2] sugg].
  cbn [fst snd] in Ha.
  destruct (bool_decide (err2 ≠ ERROR_NONE)); [cbn; congruence|].
  destruct (ai_engine_generate_patches _ _ _) as [[err3 patches] generated].
  destruct (bool_decide (err3 ≠ ERROR_NONE)); [cbn; congruence|].
  destruct (ai_engine_update_optimization_history _ _ _ _ _).
  cbn. congruence.
Qed.

(** X15: the two histories never meet. A cycle records its patches in
    the history the kernel owns and leaves the engine's own
    [ai_state.history] as it was, for every outcome of the cycle; and
    learning reads only the engine's own history. So on an engine whose
    own history is empty, [ai_engine_learn_from_history] after
    [self_evolution_enable(true)] changes no model, however many patches
    the cycle recorded. *)
Theorem cycle_history_never_reaches_learning (P : platform) (s : system_t) :
  oh_entry_count (history (ai_state (ai s))) = 0 →
  let s' := snd (self_evolution_enable P s true) in
  history (ai_state (ai s')) = history (ai_state (ai s))
  ∧ models (snd (ai_engine_learn_from_history (ai s'))) = models (ai s').
Proof.
  intros Hempty s'.
  assert (Hhist : history (ai_state (ai s')) = history (ai_state (ai s))).
  { subst s'. unfold self_evolution_enable.
    destruct (negb (k_initialized (kernel s))); [done|].
    destruct (bool_decide _); [done|].
    by rewrite cycle_keeps_engine_history. }
  split; [done|].
  unfold ai_engine_learn_from_history.
  destruct (negb (ai_initialized (ai_state (ai s')))); [done|].
  by rewrite Hhist, Hempty.
Qed.

Lemma cycle_history_never_reaches_learning_witness :
  oh_entry_count
    (default zero_history (optimization_history (evolution (kernel running_system))))
  = 1
  ∧ models (snd (ai_engine_learn_from_history (ai running_system)))
    = models (ai running_system).
Proof.
  split; [reflexivity|].
  exact (proj2 (cycle_history_never_reaches_learning scenario_a system_ready eq_refl)).
Defined.

(** ** The optimization history *)

Lemma history_add_count t h suggestion_id :
  0 ≤ oh_entry_count h ≤ 100 →
  oh_entry_count (history_add t h suggestion_id) = Z.min 100 (oh_entry_count h + 1)
  ∧ length (oh_entries (history_add t h suggestion_id)) = length (oh_entries h).
Proof.
  intros Hc. unfold history_add. simpl. rewrite length_insert.
  split; [|done]. destruct (Z.ltb_spec (oh_entry_count h) 100); lia.
Qed.

Lemma history_adds_count t suggestion_id (l : list nat) h :
  0 ≤ oh_entry_count h ≤ 100 →
  oh_entry_count (foldl (λ acc _, history_add t acc suggestion_id) h l)
    = Z.min 100 (oh_entry_count h + Z.of_nat (length l))
  ∧ length (oh_entries (foldl (λ acc _, history_add t acc suggestion_id) h l))
    = length (oh_entries h).
Proof.
  revert h. induction l as [|i l IH]; intros h Hc.
  - simpl. split; [lia|done].
  - cbn [foldl]. destruct (history_add_count t h suggestion_id Hc) as [H1 H2].
    destruct (IH (history_add t h suggestion_id) ltac:(lia)) as [H3 H4].
    rewrite H3, H4, H1, H2. split; [|done]. cbn [length]. lia.
Qed.

(** X16: the history count saturates. On an initialized engine, when
    the first slot of the suggestion array holds a non-zero id, a call
    of [ai_engine_update_optimization_history] with [patch_count = n]
    succeeds and takes [entry_count] from [c] to [min(100, c + n)],
    never beyond the capacity, and keeps the 100 slots; when the first
    slot holds id 0 the call succeeds and records nothing. *)
Theorem history_count_saturates (e : ai_engine_t) (h : optimization_history_t)
    (arr : list optimization_suggestion_t) (s : optimization_suggestion_t)
    (patches : option (list (patch_buffer * Z))) (n : Z) :
  ai_initialized (ai_state e) = true →
  arr !! 0%nat = Some s →
  0 ≤ oh_entry_count h ≤ 100 →
  0 ≤ n →
  let r := ai_engine_update_optimization_history e (Some h) (Some arr) patches n in
  fst r = ERROR_NONE
  ∧ (sg_id s ≠ 0 →
     ∃ h', snd r = Some h'
       ∧ oh_entry_count h' = Z.min 100 (oh_entry_count h + n)
       ∧ length (oh_entries h') = length (oh_entries h))
  ∧ (sg_id s = 0 → snd r = Some h).
Proof.
  intros Hinit Hs Hc Hn r. subst r. split; [|split].
  - unfold ai_engine_update_optimization_history. by rewrite Hinit.
  - intros Hid. rewrite (update_history_tags_first e h arr patches n s) by done.
    eexists. split; [reflexivity|].
    destruct (history_adds_count (ai_last_analysis_time (ai_state e)) (sg_id s)
                (seq 0 (Z.to_nat n)) h Hc) as [H1 H2].
    rewrite H1, H2, length_seq. split; [|done]. lia.
  - intros Hid. unfold ai_engine_update_optimization_history. rewrite Hinit.
    cbn [negb snd]. f_equal.
    induction (seq 0 (Z.to_nat n)) as [|i l IH]; [done|].
    cbn [foldl]. unfold update_history_step at 2. simpl.
    rewrite Hs, Hid. simpl. done.
Qed.

Lemma history_count_saturates_witness :
  oh_entry_count
    (default zero_history
       (snd (ai_engine_update_optimization_history ai_ready (Some full_history)
               (Some (<[0%nat := mk_suggestion 1 "Memory defragmentation recommended"
                                   f0_3 80 None 0]> (replicate 10 zero_suggestion)))
               None 5)))
  = 100.
Proof.
  assert (Hc : 0 ≤ oh_entry_count full_history ≤ 100)
    by (rewrite (proj1 full_history_ready); lia).
  assert (Hn : 0 ≤ 5) by lia.
  assert (Hs : (<[0%nat := mk_suggestion 1 "Memory defragmentation recommended"
                             f0_3 80 None 0]> (replicate 10 zero_suggestion))
               !! 0%nat
               = Some (mk_suggestion 1 "Memory defragmentation recommended"
                         f0_3 80 None 0)) by reflexivity.
  destruct (history_count_saturates ai_ready full_history _ _
              None 5 eq_refl Hs Hc Hn) as (_ & Hrun & _).
  destruct Hrun as (h' & -> & Hcount & _); [simpl; lia|].
  simpl. rewrite Hcount, (proj1 full_history_ready). reflexivity.
Defined.

(** ** The engine: collection, initialization and what its states keep *)

(** X17: how a collection degrades. On an initialized engine with a
    caller's buffer: a failing memory provider ends the call with its
    error and nothing is written; a failing scheduler provider ends it
    with its error after the memory part of the caller's buffer has been
    replaced, so the buffer no longer agrees with the sample the engine
    kept; when both answer, the call succeeds whatever the I/O provider
    says, a failing I/O provider only makes [io_operations] 0, the
    engine keeps exactly the buffer it hands back, and the collection
    time is the [uptime] the caller's buffer came with, since no
    provider writes that field. *)
Theorem collect_metrics_degrades (P : platform) (e : ai_engine_t)
    (m : performance_metrics_t) :
  ai_initialized (ai_state e) = true →
  let r := ai_engine_collect_metrics P e (Some m) in
  let err_mem := fst (memory_get_metrics P) in
  let err_sched := fst (scheduler_get_metrics P) in
  (err_mem ≠ ERROR_NONE → r = (err_mem, e, Some m))
  ∧ (err_mem = ERROR_NONE → err_sched ≠ ERROR_NONE →
     r = (err_sched, e, Some (half_collected P m)))
  ∧ (err_mem = ERROR_NONE → err_sched = ERROR_NONE →
     ∃ m', r = (ERROR_NONE, snd (fst r), Some m')
       ∧ last_metrics (ai_state (snd (fst r))) = m'
       ∧ last_collection_time (ai_state (snd (fst r))) = pm_uptime m
       ∧ pm_uptime m' = pm_uptime m
       ∧ pm_memory m' = snd (memory_get_metrics P)
       ∧ pm_scheduler m' = snd (scheduler_get_metrics P)
       ∧ pm_io_operations m'
         = (if bool_decide (fst (io_get_metrics P) = ERROR_NONE)
            then snd (io_get_metrics P) else 0)).
Proof.
  intros Hinit r err_mem err_sched. subst r err_mem err_sched.
  unfold ai_engine_collect_metrics, half_collected. rewrite Hinit. cbn [negb].
  destruct (memory_get_metrics P) as [err1 mm].
  destruct (scheduler_get_metrics P) as [err2 sm].
  destruct (io_get_metrics P) as [err3 done_requests].
  cbn [fst snd].
  split; [|split].
  - intros Hne. by rewrite bool_decide_eq_true_2.
  - intros -> Hne. rewrite bool_decide_eq_false_2 by (intros H; by apply H).
    by rewrite bool_decide_eq_true_2.
  - intros -> ->. rewrite !bool_decide_eq_false_2 by (intros H; by apply H).
    eexists. split; [reflexivity|]. cbn.
    repeat split.
    destruct (decide (err3 = ERROR_NONE)) as [->|Hne].
    + rewrite bool_decide_eq_false_2 by (intros H; by apply H).
      by rewrite bool_decide_eq_true_2.
    + rewrite bool_decide_eq_true_2 by done.
      by rewrite bool_decide_eq_false_2.
Qed.

Lemma collect_metrics_degrades_witness :
  ai_engine_collect_metrics scheduler_provider_down ai_ready (Some zero_metrics)
  = (ERROR_TIMEOUT, ai_ready, Some (half_collected scheduler_provider_down zero_metrics))
  ∧ last_metrics (ai_state ai_ready)
    ≠ half_collected scheduler_provider_down zero_metrics.
Proof.
  split.
  - apply (collect_metrics_degrades scheduler_provider_down ai_ready zero_metrics
             eq_refl); [reflexivity | discriminate].
  - vm_compute. discriminate.
Defined.

Lemma load_placeholders_types (ms : list ai_model_t) (i : nat) (model_ok : nat → bool) :
  model_type <$> snd (load_placeholders ms i model_ok) = model_type <$> ms.
Proof.
  revert i. induction ms as [|m ms IH]; intros i; [done|].
  cbn [load_placeholders]. destruct (model_ok i); [|done].
  specialize (IH (S i)). destruct (load_placeholders ms (S i) model_ok) as [ok rest].
  cbn [snd] in *. cbn. by rewrite IH.
Qed.

Lemma load_placeholders_all_ok (ts : list ai_model_type_t) (i : nat)
    (model_ok : nat → bool) :
  forallb model_ok (seq i (length ts)) = true →
  load_placeholders (blank_model <$> ts) i model_ok = (true, initial_model <$> ts).
Proof.
  revert i. induction ts as [|t ts IH]; intros i Hall; [done|].
  cbn [length seq forallb] in Hall. apply andb_true_iff in Hall as [Hi Hrest].
  cbn [fmap list_fmap load_placeholders]. rewrite Hi.
  change (list_fmap _ _ blank_model ts) with (blank_model <$> ts).
  by rewrite (IH (S i) Hrest).
Qed.

Lemma load_placeholders_some_fail (ms : list ai_model_t) (i : nat)
    (model_ok : nat → bool) :
  forallb model_ok (seq i (length ms)) = false →
  fst (load_placeholders ms i model_ok) = false.
Proof.
  revert i. induction ms as [|m ms IH]; intros i Hall; [done|].
  cbn [length seq forallb] in Hall. cbn [load_placeholders].
  destruct (model_ok i); [|done]. cbn [andb] in Hall.
  specialize (IH (S i) Hall).
  by destruct (load_placeholders ms (S i) model_ok).
Qed.

(** X18: the two outcomes of [ai_engine_init] on an engine that is not
    initialized. When the profile table and all six model payloads can
    be allocated, the call succeeds and the engine is exactly the
    initial one (six models of 1024 zero bytes at version 1, zero
    timestamps, an empty history), whatever the static state held
    before. When any of the seven allocations fails, the call returns
    [ERROR_MEMORY_ALLOCATION] and leaves the engine uninitialized with
    its six model types in place, so that a later call starts over. *)
Theorem init_builds_initial_engine_or_fails (e : ai_engine_t)
    (profiles_ok : bool) (model_ok : nat → bool) :
  ai_initialized (ai_state e) = false →
  let r := ai_engine_init e profiles_ok model_ok in
  if profiles_ok && forallb model_ok (seq 0 6)
  then r = (ERROR_NONE, ai_ready)
  else fst r = ERROR_MEMORY_ALLOCATION
       ∧ ai_initialized (ai_state (snd r)) = false
       ∧ model_type <$> models (snd r) = all_model_types
       ∧ ai_engine_init (snd r) true (λ _, true) = (ERROR_NONE, ai_ready).
Proof.
  intros Hinit r.
  assert (Hretry : ∀ e', ai_initialized (ai_state e') = false →
            ai_engine_init e' true (λ _, true) = (ERROR_NONE, ai_ready)).
  { intros e' He'. unfold ai_engine_init. rewrite He'. cbn [negb].
    by rewrite (load_placeholders_all_ok all_model_types 0 (λ _, true) eq_refl). }
  assert (Hr : r = if negb profiles_ok
                then (ERROR_MEMORY_ALLOCATION,
                      mk_ai_engine (mk_ai_state false 0 0 0 zero_metrics zero_history)
                        (blank_model <$> all_model_types))
                else
                  let '(ok, ms) :=
                    load_placeholders (blank_model <$> all_model_types) 0 model_ok in
                  if ok
                  then (ERROR_NONE,
                        mk_ai_engine (mk_ai_state true 0 0 0 zero_metrics zero_history) ms)
                  else (ERROR_MEMORY_ALLOCATION,
                        mk_ai_engine (mk_ai_state false 0 0 0 zero_metrics zero_history)
                          ms)).
  { subst r. unfold ai_engine_init. by rewrite Hinit. }
  clearbody r. subst r.
  destruct profiles_ok; cbn [negb andb].
  - destruct (forallb model_ok (seq 0 6)) eqn:Hall.
    + by rewrite (load_placeholders_all_ok all_model_types 0 model_ok Hall).
    + pose proof (load_placeholders_some_fail (blank_model <$> all_model_types)
                    0 model_ok Hall) as Hfail.
      pose proof (load_placeholders_types (blank_model <$> all_model_types)
                    0 model_ok) as Htypes.
      destruct (load_placeholders _ 0 model_ok) as [ok ms].
      cbn [fst snd] in *. subst ok. cbn [fst snd ai_state ai_initialized models].
      split; [done|]. split; [done|]. split; [by rewrite Htypes|]. by apply Hretry.
  - split; [done|]. split; [done|]. split; [done|]. by apply Hretry.
Qed.

Lemma init_builds_initial_engine_or_fails_witness :
  ai_engine_init (snd (ai_engine_init (snd (ai_engine_init system_zero.(ai) true
                                             (λ i, bool_decide (i ≠ 4%nat))))
                         true (λ _, true)))
                 false (λ _, false)
  = (ERROR_NONE, ai_ready).
Proof.
  pose proof (init_builds_initial_engine_or_fails (ai system_zero) true
                (λ i, bool_decide (i ≠ 4%nat)) eq_refl) as H.
  cbn [andb] in H.
  change (forallb _ (seq 0 6)) with false in H.
  destruct H as (_ & _ & _ & ->).
  reflexivity.
Defined.

Lemma fmap_alter_same {A B} (f : A → B) (g : A → A) (i : nat) (l : list A) :
  (∀ x, f (g x) = f x) → f <$> alter g i l = f <$> l.
Proof.
  intros Hfg. apply list_eq. intros j. rewrite !list_lookup_fmap.
  destruct (decide (j = i)) as [->|Hne].
  - rewrite list_lookup_alter_eq. destruct (l !! i); [|done]. simpl. by rewrite Hfg.
  - by rewrite list_lookup_alter_ne.
Qed.

Lemma init_keeps_invariant e profiles_ok model_ok :
  engine_invariant e → engine_invariant (snd (ai_engine_init e profiles_ok model_ok)).
Proof. intros Hinv. unfold ai_engine_init. by rewrite (proj1 Hinv). Qed.

Lemma load_model_keeps_invariant e t data size alloc_ok :
  engine_invariant e →
  engine_invariant (snd (ai_engine_load_model e t data size alloc_ok)).
Proof.
  intros (Hinit & Htypes & Hhist). unfold ai_engine_load_model.
  rewrite Hinit. cbn [negb]. destruct data as [bytes|]; [|done].
  destruct (size =? 0); [done|].
  destruct alloc_ok; cbn [negb snd]; (split; [|split]); try done;
    cbn [models]; by rewrite fmap_alter_same.
Qed.

Lemma collect_keeps_invariant P e metrics :
  engine_invariant e →
  engine_invariant (snd (fst (ai_engine_collect_metrics P e metrics))).
Proof.
  intros (Hinit & Htypes & Hhist).
  destruct (collect_keeps_history P e metrics) as [Hh Hm].
  split; [|split]; [|by rewrite Hm|by rewrite Hh].
  unfold ai_engine_collect_metrics. rewrite Hinit. cbn [negb].
  destruct metrics as [m|]; [|done].
  destruct (memory_get_metrics P) as [err1 mm].
  destruct (bool_decide (err1 ≠ ERROR_NONE)); [done|].
  destruct (scheduler_get_metrics P) as [err2 sm].
  destruct (bool_decide (err2 ≠ ERROR_NONE)); [done|].
  by destruct (io_get_metrics P).
Qed.

Lemma analysis_models_types (ms : list ai_model_t) (l : list nat) :
  model_type <$> foldl (λ ms i, alter (placeholder_accuracy i) i ms) ms l
  = model_type <$> ms.
Proof.
  revert ms. induction l as [|i l IH]; intros ms; [done|].
  cbn [foldl]. rewrite IH. by apply fmap_alter_same.
Qed.

Lemma analysis_keeps_invariant P e metrics :
  engine_invariant e →
  engine_invariant (snd (fst (ai_engine_analyze_performance P e metrics))).
Proof.
  intros (Hinit & Htypes & Hhist).
  pose proof (analysis_keeps_history P e metrics) as Hh.
  split; [|split]; [| |by rewrite Hh].
  - unfold ai_engine_analyze_performance. rewrite Hinit. cbn [negb].
    destruct metrics as [m|]; [|done].
    destruct (negb (memory_allocate P AllocSuggestions)); [done|].
    by destruct (ltb f0_5 _), (ltb f100 _), ((pm_io_operations m >? 1000) && _).
  - unfold ai_engine_analyze_performance. rewrite Hinit. cbn [negb].
    destruct metrics as [m|]; [|done].
    destruct (negb (memory_allocate P AllocSuggestions)); [done|].
    destruct (ltb f0_5 _), (ltb f100 _), ((pm_io_operations m >? 1000) && _);
      cbn [fst snd models]; by rewrite analysis_models_types.
Qed.

Lemma learn_on_empty_history e :
  oh_entry_count (history (ai_state e)) = 0 →
  models (snd (ai_engine_learn_from_history e)) = models e.
Proof.
  intros Hempty. unfold ai_engine_learn_from_history.
  destruct (negb (ai_initialized (ai_state e))); [done|].
  by rewrite Hempty.
Qed.

Lemma learn_keeps_invariant e :
  engine_invariant e → engine_invariant (snd (ai_engine_learn_from_history e)).
Proof.
  intros (Hinit & Htypes & Hhist).
  pose proof (learn_on_empty_history e) as Hm.
  rewrite Hhist in Hm. specialize (Hm eq_refl).
  split; [|split]; [| by rewrite Hm |];
    unfold ai_engine_learn_from_history; rewrite Hinit; done.
Qed.

Lemma generate_new_model_keeps_invariant e t :
  engine_invariant e → engine_invariant (snd (ai_engine_generate_new_model e t)).
Proof.
  intros (Hinit & Htypes & Hhist). unfold ai_engine_generate_new_model.
  rewrite Hinit. cbn [negb snd]. split; [|split]; try done.
  cbn [models]. by rewrite fmap_alter_same.
Qed.

Lemma run_keeps_invariant (ops : list ai_op) e :
  engine_invariant e → engine_invariant (run_ai_ops e ops).
Proof.
  unfold run_ai_ops. revert e. induction ops as [|op ops IH]; intros e Hinv; [done|].
  cbn [foldl]. apply IH. destruct op; cbn [run_ai_op].
  - by apply init_keeps_invariant.
  - by apply load_model_keeps_invariant.
  - by apply collect_keeps_invariant.
  - by apply analysis_keeps_invariant.
  - by apply learn_keeps_invariant.
  - by apply generate_new_model_keeps_invariant.
Qed.

(** X19: the engine never fills its own history. After a successful
    [ai_engine_init] and any sequence of initializations, model loads
    (with the allocation succeeding or failing), collections, analyses,
    learning passes and model generations, the engine is initialized,
    [models[i].type] is still [i] for the six models, and
    [ai_state.history] is the zeroed history of the initialization:
    [ai_engine_get_optimization_history] reports no entry and
    [ai_engine_learn_from_history] changes no model. *)
Theorem engine_own_history_stays_empty (e0 : ai_engine_t) (profiles_ok : bool)
    (model_ok : nat → bool) (ops : list ai_op) :
  ai_initialized (ai_state e0) = false →
  fst (ai_engine_init e0 profiles_ok model_ok) = ERROR_NONE →
  let e := run_ai_ops (snd (ai_engine_init e0 profiles_ok model_ok)) ops in
  engine_invariant e
  ∧ ai_engine_get_optimization_history e = (ERROR_NONE, Some zero_history)
  ∧ models (snd (ai_engine_learn_from_history e)) = models e.
Proof.
  intros Hinit Hok e.
  assert (Hinv : engine_invariant e).
  { subst e. apply run_keeps_invariant.
    pose proof (init_builds_initial_engine_or_fails e0 profiles_ok model_ok Hinit) as H.
    cbv zeta in H. destruct (profiles_ok && forallb model_ok (seq 0 6)).
    - rewrite H. by repeat split.
    - destruct H as (Herr & _). rewrite Herr in Hok. discriminate. }
  split; [done|]. destruct Hinv as (Hi & Ht & Hh). split.
  - unfold ai_engine_get_optimization_history. by rewrite Hi, Hh.
  - apply learn_on_empty_history. by rewrite Hh.
Qed.

Lemma engine_own_history_stays_empty_witness :
  ai_engine_get_optimization_history
    (run_ai_ops ai_ready
       [AiCollect scenario_a (Some zero_metrics);
        AiAnalyze scenario_a (Some zero_metrics);
        AiLoadModel AI_MODEL_MEMORY (Some [1; 2; 3]) 3 true;
        AiLearn; AiGenerateNewModel AI_MODEL_CODE])
  = (ERROR_NONE, Some zero_history).
Proof.
  exact (proj1 (proj2 (engine_own_history_stays_empty (ai system_zero) true (λ _, true)
           [AiCollect scenario_a (Some zero_metrics);
            AiAnalyze scenario_a (Some zero_metrics);
            AiLoadModel AI_MODEL_MEMORY (Some [1; 2; 3]) 3 true;
            AiLearn; AiGenerateNewModel AI_MODEL_CODE] eq_refl eq_refl))).
Defined.

(** X20: what a model load touches. On an initialized engine,
    [ai_engine_load_model] with a payload and a non-zero size leaves the
    models of all other types as they were. When the allocation
    succeeds, the model holds the first [model_size] bytes of the
    payload at the next version, with the inference count and the
    accuracy reset. When the allocation fails, the call returns
    [ERROR_MEMORY_ALLOCATION] after the old payload was freed: the model
    is left without payload while [model_size] and [version] still
    describe the one it had. *)
Theorem load_model_replaces_or_loses_payload (e : ai_engine_t)
    (t : ai_model_type_t) (bytes : list Z) (size : Z) (alloc_ok : bool)
    (m : ai_model_t) :
  ai_initialized (ai_state e) = true →
  size ≠ 0 →
  models e !! model_index t = Some m →
  let r := ai_engine_load_model e t (Some bytes) size alloc_ok in
  (∀ t', t' ≠ t → models (snd r) !! model_index t' = models e !! model_index t')
  ∧ ai_state (snd r) = ai_state e
  ∧ (alloc_ok = true →
     fst r = ERROR_NONE
     ∧ models (snd r) !! model_index t
       = Some (mk_model (model_type m) (Some (take (Z.to_nat size) bytes)) size
                 ((version m + 1) mod uint32_modulus)
                 (last_collection_time (ai_state e)) 0 zero))
  ∧ (alloc_ok = false →
     fst r = ERROR_MEMORY_ALLOCATION
     ∧ models (snd r) !! model_index t
       = Some (mk_model (model_type m) None (model_size m) (version m)
                 (last_updated m) (inference_count m) (accuracy m))).
Proof.
  intros Hinit Hsize Hm r. subst r. unfold ai_engine_load_model.
  rewrite Hinit. cbn [negb]. apply Z.eqb_neq in Hsize. rewrite Hsize.
  destruct alloc_ok; cbn [negb fst snd models ai_state].
  - split; [|split; [done|split; [|done]]].
    + intros t' Hne. apply list_lookup_alter_ne. intros Heq.
      by apply Hne, model_index_inj.
    + intros _. split; [done|]. by rewrite list_lookup_alter_eq, Hm.
  - split; [|split; [done|split; [done|]]].
    + intros t' Hne. apply list_lookup_alter_ne. intros Heq.
      by apply Hne, model_index_inj.
    + intros _. split; [done|]. by rewrite list_lookup_alter_eq, Hm.
Qed.

Lemma load_model_replaces_or_loses_payload_witness :
  model_data
    <$> (models (snd (ai_engine_load_model ai_ready AI_MODEL_SCHEDULER
                        (Some [1; 2; 3]) 3 false))
         !! model_index AI_MODEL_SCHEDULER)
  = Some None.
Proof.
  assert (Hsize : 3 ≠ 0) by lia.
  destruct (load_model_replaces_or_loses_payload ai_ready AI_MODEL_SCHEDULER
              [1; 2; 3] 3 false (initial_model AI_MODEL_SCHEDULER)
              eq_refl Hsize eq_refl) as (_ & _ & _ & Hfail).
  destruct (Hfail eq_refl) as [_ ->]. reflexivity.
Defined.

(** ** The kernel: start-up and the frame of a cycle *)

(** X21: [kernel_init] cannot complete. It calls [self_evolution_init]
    before it sets [kernel_state.initialized], and
    [self_evolution_init] refuses to run on a kernel that is not
    initialized. So on a kernel that is not initialized yet, whatever
    the memory manager, the scheduler and the allocator answer, the
    call returns an error and leaves the kernel uninitialized; when the
    four earlier subsystems succeed the error is
    [ERROR_NOT_IMPLEMENTED]. Afterwards [self_evolution_enable] returns
    [ERROR_NOT_IMPLEMENTED] and [self_evolution_get_status] returns
    [NULL]. *)
Theorem kernel_init_never_completes (P : platform) (s : system_t) (env : boot_env) :
  k_initialized (kernel s) = false →
  let r := kernel_init s env in
  fst r ≠ ERROR_NONE
  ∧ kernel (snd r) = kernel s
  ∧ (memory_init_result env = ERROR_NONE →
     scheduler_init_result env = ERROR_NONE →
     fst (ai_engine_init (ai s) (boot_profiles_ok env) (boot_model_ok env)) = ERROR_NONE →
     fst (security_init (security s) (boot_rollback_array env)) = ERROR_NONE →
     fst r = ERROR_NOT_IMPLEMENTED)
  ∧ fst (self_evolution_enable P (snd r) true) = ERROR_NOT_IMPLEMENTED
  ∧ self_evolution_get_status (snd r) = None.
Proof.
  intros Hk r.
  assert (Hmain : fst r ≠ ERROR_NONE ∧ kernel (snd r) = kernel s
            ∧ (memory_init_result env = ERROR_NONE →
               scheduler_init_result env = ERROR_NONE →
               fst (ai_engine_init (ai s) (boot_profiles_ok env) (boot_model_ok env))
                 = ERROR_NONE →
               fst (security_init (security s) (boot_rollback_array env)) = ERROR_NONE →
               fst r = ERROR_NOT_IMPLEMENTED)).
  { subst r. unfold kernel_init. rewrite Hk.
    destruct (decide (memory_init_result env = ERROR_NONE)) as [Hmem|Hmem].
    2: { rewrite bool_decide_eq_true_2 by done. by repeat split. }
    rewrite bool_decide_eq_false_2 by (intros H; by apply H).
    destruct (decide (scheduler_init_result env = ERROR_NONE)) as [Hsch|Hsch].
    2: { rewrite bool_decide_eq_true_2 by done. by repeat split. }
    rewrite bool_decide_eq_false_2 by (intros H; by apply H).
    destruct (ai_engine_init _ _ _) as [err_ai ai1]. cbn [fst].
    destruct (decide (err_ai = ERROR_NONE)) as [->|Hai].
    2: { rewrite bool_decide_eq_true_2 by done. by repeat split. }
    rewrite bool_decide_eq_false_2 by (intros H; by apply H).
    destruct (security_init _ _) as [err_sec sec1]. cbn [fst].
    destruct (decide (err_sec = ERROR_NONE)) as [->|Hsec].
    2: { rewrite bool_decide_eq_true_2 by done. by repeat split. }
    rewrite bool_decide_eq_false_2 by (intros H; by apply H).
    unfold self_evolution_init. rewrite Hk. cbn [negb].
    rewrite bool_decide_eq_true_2 by done. by repeat split. }
  destruct Hmain as (Herr & Hkernel & Hcode).
  split; [done|]. split; [done|]. split; [done|].
  unfold self_evolution_enable, self_evolution_get_status.
  by rewrite Hkernel, Hk.
Qed.

Lemma kernel_init_never_completes_witness :
  fst (kernel_init system_zero friendly_boot) = ERROR_NOT_IMPLEMENTED
  ∧ ai (snd (kernel_init system_zero friendly_boot)) = ai_ready
  ∧ fst (self_evolution_enable scenario_a (snd (kernel_init system_zero friendly_boot)) true)
    = ERROR_NOT_IMPLEMENTED.
Proof.
  destruct (kernel_init_never_completes scenario_a system_zero friendly_boot eq_refl)
    as (_ & _ & Hcode & Henable & _).
  split; [|split].
  - apply Hcode; reflexivity.
  - reflexivity.
  - exact Henable.
Defined.

Lemma cycle_keeps_flag_and_counts P s :
  let r := self_evolution_analyze P s in
  evolution_enabled (evolution (kernel (snd r)))
    = evolution_enabled (evolution (kernel s))
  ∧ (fst r ≠ ERROR_NONE →
     optimization_count (evolution (kernel (snd r)))
       = optimization_count (evolution (kernel s))
     ∧ patch_count (evolution (kernel (snd r))) = patch_count (evolution (kernel s))
     ∧ optimization_history (evolution (kernel (snd r)))
       = optimization_history (evolution (kernel s)))
  ∧ (fst r = ERROR_NONE →
     last_analysis_time (evolution (kernel (snd r))) = uptime (kernel s)).
Proof.
  cbv zeta. unfold self_evolution_analyze.
  destruct (negb (k_initialized (kernel s)) || _); [by repeat split|].
  destruct (ai_engine_collect_metrics _ _ _) as [[err1 ai1] metrics].
  destruct (decide (err1 = ERROR_NONE)) as [->|H1].
  2: { rewrite bool_decide_eq_true_2 by done. by repeat split. }
  rewrite bool_decide_eq_false_2 by (intros H; by apply H).
  destruct (ai_engine_analyze_performance _ _ _) as [[err2 ai2] sugg].
  destruct (decide (err2 = ERROR_NONE)) as [->|H2].
  2: { rewrite bool_decide_eq_true_2 by done. by repeat split. }
  rewrite bool_decide_eq_false_2 by (intros H; by apply H).
  destruct (ai_engine_generate_patches _ _ _) as [[err3 patches] generated].
  destruct (decide (err3 = ERROR_NONE)) as [->|H3].
  2: { rewrite bool_decide_eq_true_2 by done. by repeat split. }
  rewrite bool_decide_eq_false_2 by (intros H; by apply H).
  destruct (ai_engine_update_optimization_history _ _ _ _ _) as [err4 history'].
  by repeat split.
Qed.

(** X22: a failed first analysis leaves evolution switched on. On an
    initialized kernel whose policy permits self-evolution,
    [self_evolution_enable(true)] sets [evolution_enabled] before it
    runs the first cycle and does not take it back: the flag is set and
    [last_analysis_time] is the uptime also when the call returns the
    error of the cycle, in which case the two counters and the history
    are as before. *)
Theorem failed_enable_leaves_evolution_on (P : platform) (s : system_t) :
  k_initialized (kernel s) = true →
  security_check_evolution_permission (security s) = ERROR_NONE →
  let r := self_evolution_enable P s true in
  evolution_enabled (evolution (kernel (snd r))) = true
  ∧ last_analysis_time (evolution (kernel (snd r))) = uptime (kernel s)
  ∧ (fst r ≠ ERROR_NONE →
     optimization_count (evolution (kernel (snd r)))
       = optimization_count (evolution (kernel s))
     ∧ patch_count (evolution (kernel (snd r))) = patch_count (evolution (kernel s))
     ∧ optimization_history (evolution (kernel (snd r)))
       = optimization_history (evolution (kernel s))).
Proof.
  intros Hk Hperm r. subst r. unfold self_evolution_enable.
  rewrite Hk, Hperm. cbn [negb]. rewrite bool_decide_eq_false_2 by (intros H; by apply H).
  set (s1 := mk_system _ _ _).
  pose proof (cycle_keeps_flag_and_counts P s1) as (Hen & Hfail & Hok).
  split; [by rewrite Hen|]. split; [|exact Hfail].
  destruct (decide (fst (self_evolution_analyze P s1) = ERROR_NONE)) as [Hnone|Herr].
  - by rewrite (Hok Hnone).
  - clear Hen Hfail Hok. revert Herr. unfold self_evolution_analyze.
    cbn [kernel s1 set_evolution k_initialized evolution evolution_enabled uptime].
    rewrite Hk. cbn [negb orb].
    destruct (ai_engine_collect_metrics _ _ _) as [[err1 ai1] metrics].
    destruct (bool_decide (err1 ≠ ERROR_NONE)); [done|].
    destruct (ai_engine_analyze_performance _ _ _) as [[err2 ai2] sugg].
    destruct (bool_decide (err2 ≠ ERROR_NONE)); [done|].
    destruct (ai_engine_generate_patches _ _ _) as [[err3 patches] generated].
    destruct (bool_decide (err3 ≠ ERROR_NONE)); [done|].
    by destruct (ai_engine_update_optimization_history _ _ _ _ _).
Qed.

Lemma failed_enable_leaves_evolution_on_witness :
  fst (self_evolution_enable memory_provider_down system_ready true) = ERROR_TIMEOUT
  ∧ evolution_enabled
      (evolution (kernel (snd (self_evolution_enable memory_provider_down
                                 system_ready true)))) = true.
Proof.
  split; [reflexivity|].
  exact (proj1 (failed_enable_leaves_evolution_on memory_provider_down system_ready
                  eq_refl eq_refl)).
Defined.

(** X23: the frame of a cycle. [self_evolution_analyze] never writes
    the security state (no policy change, no rollback entry), the
    kernel's identifiers and uptime, the evolution level or the enabled
    flag. A cycle that returns an error leaves [optimization_count],
    [patch_count] and the kernel's history as they were; a cycle that
    returns [ERROR_NONE] has advanced [optimization_count] by one modulo
    2^32 and stamped [last_analysis_time] with the uptime. *)
Theorem cycle_frame (P : platform) (s : system_t) :
  let r := self_evolution_analyze P s in
  security (snd r) = security s
  ∧ k_initialized (kernel (snd r)) = k_initialized (kernel s)
  ∧ next_pid (kernel (snd r)) = next_pid (kernel s)
  ∧ next_tid (kernel (snd r)) = next_tid (kernel s)
  ∧ uptime (kernel (snd r)) = uptime (kernel s)
  ∧ evolution_enabled (evolution (kernel (snd r)))
    = evolution_enabled (evolution (kernel s))
  ∧ evolution_level (evolution (kernel (snd r))) = evolution_level (evolution (kernel s))
  ∧ (fst r ≠ ERROR_NONE →
     optimization_count (evolution (kernel (snd r)))
       = optimization_count (evolution (kernel s))
     ∧ patch_count (evolution (kernel (snd r))) = patch_count (evolution (kernel s))
     ∧ optimization_history (evolution (kernel (snd r)))
       = optimization_history (evolution (kernel s)))
  ∧ (fst r = ERROR_NONE →
     optimization_count (evolution (kernel (snd r)))
       = (optimization_count (evolution (kernel s)) + 1) mod uint32_modulus
     ∧ last_analysis_time (evolution (kernel (snd r))) = uptime (kernel s)).
Proof.
  cbv zeta. unfold self_evolution_analyze.
  destruct (negb (k_initialized (kernel s)) || _); [by repeat split|].
  destruct (ai_engine_collect_metrics _ _ _) as [[err1 ai1] metrics].
  destruct (decide (err1 = ERROR_NONE)) as [->|H1].
  2: { rewrite bool_decide_eq_true_2 by done. by repeat split. }
  rewrite bool_decide_eq_false_2 by (intros H; by apply H).
  destruct (ai_engine_analyze_performance _ _ _) as [[err2 ai2] sugg].
  destruct (decide (err2 = ERROR_NONE)) as [->|H2].
  2: { rewrite bool_decide_eq_true_2 by done. by repeat split. }
  rewrite bool_decide_eq_false_2 by (intros H; by apply H).
  destruct (ai_engine_generate_patches _ _ _) as [[err3 patches] generated].
  destruct (decide (err3 = ERROR_NONE)) as [->|H3].
  2: { rewrite bool_decide_eq_true_2 by done. by repeat split. }
  rewrite bool_decide_eq_false_2 by (intros H; by apply H).
  destruct (ai_engine_update_optimization_history _ _ _ _ _) as [err4 history'].
  by repeat split.
Qed.

Lemma verify_reads_view st1 st2 p size :
  sec_initialized st1 = sec_initialized st2 →
  verifier_view (policy st1) = verifier_view (policy st2) →
  security_verify_patch st1 p size = security_verify_patch st2 p size.
Proof.
  intros Hinit Hview. unfold verifier_view in Hview.
  injection Hview as Hk Hd Hm Hs Hmax.
  unfold security_verify_patch. by rewrite Hinit, Hk, Hd, Hm, Hs, Hmax.
Qed.

Lemma apply_loop_reads_view P st1 st2 patches generated (l : list nat) c :
  sec_initialized st1 = sec_initialized st2 →
  verifier_view (policy st1) = verifier_view (policy st2) →
  foldl (apply_patch_step P st1 patches generated) c l
  = foldl (apply_patch_step P st2 patches generated) c l.
Proof.
  intros Hinit Hview. revert c. induction l as [|i l IH]; intros c; [done|].
  cbn [foldl]. rewrite IH. f_equal. unfold apply_patch_step.
  destruct (patches !! i) as [[patch sz]|]; [|done].
  by rewrite (verify_reads_view st1 st2 _ _ Hinit Hview).
Qed.

(** X24: the policy fields a cycle reads. Of the policy descriptor a
    cycle consults only what [security_verify_patch] reads: the four
    module permissions and [max_patch_size]. Two systems that differ
    only in the other fields of the policy ([level],
    [allow_self_evolution], [require_verification],
    [require_rollback_capability], [max_patches_per_cycle]) run the same
    cycle: same result, same kernel state, same engine state. In
    particular [max_patches_per_cycle] bounds nothing. *)
Theorem cycle_reads_only_verifier_fields (P : platform) (s : system_t)
    (pol1 pol2 : security_policy_descriptor_t) :
  verifier_view pol1 = verifier_view pol2 →
  let r1 := self_evolution_analyze P (with_policy s pol1) in
  let r2 := self_evolution_analyze P (with_policy s pol2) in
  fst r1 = fst r2 ∧ kernel (snd r1) = kernel (snd r2) ∧ ai (snd r1) = ai (snd r2).
Proof.
  intros Hview. cbv zeta. unfold self_evolution_analyze.
  cbn [with_policy kernel ai security].
  destruct (negb (k_initialized (kernel s)) || _); [done|].
  destruct (ai_engine_collect_metrics _ _ _) as [[err1 ai1] metrics].
  destruct (bool_decide (err1 ≠ ERROR_NONE)); [done|].
  destruct (ai_engine_analyze_performance _ _ _) as [[err2 ai2] sugg].
  destruct (bool_decide (err2 ≠ ERROR_NONE)); [done|].
  destruct (ai_engine_generate_patches _ _ _) as [[err3 patches] generated].
  destruct (bool_decide (err3 ≠ ERROR_NONE)); [done|].
  destruct (ai_engine_update_optimization_history _ _ _ _ _) as [err4 history'].
  cbn [fst snd kernel ai].
  by rewrite (apply_loop_reads_view P (set_policy_field (security s) pol1)
                (set_policy_field (security s) pol2) _ _ _ _ eq_refl Hview).
Qed.

Lemma cycle_reads_only_verifier_fields_witness :
  patch_count
    (evolution (kernel (snd (self_evolution_analyze scenario_a
       (with_policy running_system
          (mk_policy SECURITY_POLICY_PARANOID false true true true true
                     false false 4096 0))))))
  = 2.
Proof.
  destruct (cycle_reads_only_verifier_fields scenario_a running_system
              (mk_policy SECURITY_POLICY_PARANOID false true true true true
                         false false 4096 0)
              (policy_bundle SECURITY_POLICY_STANDARD) eq_refl) as (_ & -> & _).
  reflexivity.
Defined.

(** ** The I/O subsystem *)

Lemma uint32_modulus_pos : 0 < uint32_modulus.
Proof. reflexivity. Qed.

Lemma uint64_modulus_pos : 0 < uint64_modulus.
Proof. reflexivity. Qed.

Lemma mod_small_same (x m : Z) : 0 ≤ x < m → x = (x + 0) mod m.
Proof. intros H. rewrite Z.add_0_r. by rewrite Z.mod_small. Qed.

Lemma count_ops_cons f op ops :
  count_ops f (op :: ops) = (if f op then 1 else 0) + count_ops f ops.
Proof.
  unfold count_ops. destruct (f op) eqn:Hf.
  - rewrite filter_cons_True by done. cbn [length]. lia.
  - rewrite filter_cons_False by (rewrite Hf; done). lia.
Qed.

Lemma count_some_cons f op ops :
  count_some f (op :: ops) = (if f op is Some _ then 1 else 0) + count_some f ops.
Proof.
  unfold count_some. cbn [omap list_omap]. destruct (f op); cbn [length]; lia.
Qed.

Lemma sum_bytes_cons f op ops :
  sum_bytes f (op :: ops) = default 0 (f op) + sum_bytes f ops.
Proof. unfold sum_bytes. cbn [omap list_omap]. by destruct (f op). Qed.

(** One call on an initialized subsystem: each counter moves by what
    the call contributes, modulo the range of its type. *)
Lemma io_step_counters st op :
  io_initialized st = true →
  io_counters_in_range st →
  let st' := run_io_op st op in
  io_initialized st' = true
  ∧ io_counters_in_range st'
  ∧ completed_requests (io_metrics st')
    = (completed_requests (io_metrics st) + (if closes op then 1 else 0))
      mod uint32_modulus
  ∧ pending_requests (io_metrics st')
    = (pending_requests (io_metrics st)
       + ((if accepts op then 1 else 0) - (if closes op then 1 else 0)))
      mod uint32_modulus
  ∧ read_count (global (io_metrics st'))
    = (read_count (global (io_metrics st)) + (if reads op is Some _ then 1 else 0))
      mod uint64_modulus
  ∧ read_bytes (global (io_metrics st'))
    = (read_bytes (global (io_metrics st)) + default 0 (reads op)) mod uint64_modulus
  ∧ write_count (global (io_metrics st'))
    = (write_count (global (io_metrics st)) + (if writes op is Some _ then 1 else 0))
      mod uint64_modulus
  ∧ write_bytes (global (io_metrics st'))
    = (write_bytes (global (io_metrics st)) + default 0 (writes op)) mod uint64_modulus.
Proof.
  intros Hinit Hrange.
  pose proof uint32_modulus_pos as H32. pose proof uint64_modulus_pos as H64.
  assert (Hsame : ∀ st', io_initialized st' = true → io_metrics st' = io_metrics st →
            io_initialized st' = true
            ∧ io_counters_in_range st'
            ∧ completed_requests (io_metrics st')
              = (completed_requests (io_metrics st) + 0) mod uint32_modulus
            ∧ pending_requests (io_metrics st')
              = (pending_requests (io_metrics st) + (0 - 0)) mod uint32_modulus
            ∧ read_count (global (io_metrics st'))
              = (read_count (global (io_metrics st)) + 0) mod uint64_modulus
            ∧ read_bytes (global (io_metrics st'))
              = (read_bytes (global (io_metrics st)) + 0) mod uint64_modulus
            ∧ write_count (global (io_metrics st'))
              = (write_count (global (io_metrics st)) + 0) mod uint64_modulus
            ∧ write_bytes (global (io_metrics st'))
              = (write_bytes (global (io_metrics st)) + 0) mod uint64_modulus).
  { intros st' Hi Hm. destruct Hrange as (R1 & R2 & R3 & R4 & R5 & R6).
    split; [done|]. split; [unfold io_counters_in_range; by rewrite Hm|].
    rewrite Hm. change (0 - 0) with 0.
    split_and!; try done; by apply mod_small_same. }
  destruct Hrange as (R1 & R2 & R3 & R4 & R5 & R6).
  destruct op as [|client_fd accepted|buffer bytes_read result
                  |buffer bytes_written result|closed|p]; cbn [run_io_op].
  - unfold Io.io_init. rewrite Hinit. cbn [snd accepts closes reads writes default].
    by apply Hsame.
  - unfold Io.io_accept_connection. rewrite Hinit. cbn [negb].
    destruct client_fd as [fd|]; [|by apply Hsame].
    cbn [accepts closes reads writes default].
    destruct (sys_return accepted <? 0); cbn [negb].
    { destruct (sys_would_block accepted); by apply Hsame. }
    cbn [fst snd set_io_metrics io_initialized io_metrics completed_requests
         pending_requests global read_count read_bytes write_count write_bytes].
    split; [done|]. split.
    { unfold io_counters_in_range.
      cbn [io_metrics set_io_metrics set_global completed_requests pending_requests
           global read_count read_bytes write_count write_bytes].
      refine (conj _ (conj _ (conj _ (conj _ (conj _ _)))));
        first [assumption | by apply Z.mod_pos_bound]. }
    change (1 - 0) with 1. split_and!; try done; by apply mod_small_same.
  - unfold Io.io_read. rewrite Hinit. cbn [negb].
    destruct bytes_read as [cell|]; [|destruct buffer; by apply Hsame].
    destruct buffer; cbn [negb]; [|by apply Hsame].
    cbn [accepts closes reads writes default].
    destruct (sys_return result <? 0).
    { destruct (sys_would_block result); by apply Hsame. }
    cbn [fst snd set_io_metrics set_global io_initialized io_metrics completed_requests
         pending_requests global read_count read_bytes write_count write_bytes default].
    split; [done|]. split.
    { unfold io_counters_in_range.
      cbn [io_metrics set_io_metrics set_global completed_requests pending_requests
           global read_count read_bytes write_count write_bytes].
      refine (conj _ (conj _ (conj _ (conj _ (conj _ _)))));
        first [assumption | by apply Z.mod_pos_bound]. }
    change (0 - 0) with 0. split_and!; try done; by apply mod_small_same.
  - unfold Io.io_write. rewrite Hinit. cbn [negb].
    destruct bytes_written as [cell|]; [|destruct buffer; by apply Hsame].
    destruct buffer; cbn [negb]; [|by apply Hsame].
    cbn [accepts closes reads writes default].
    destruct (sys_return result <? 0).
    { destruct (sys_would_block result); by apply Hsame. }
    cbn [fst snd set_io_metrics set_global io_initialized io_metrics completed_requests
         pending_requests global read_count read_bytes write_count write_bytes default].
    split; [done|]. split.
    { unfold io_counters_in_range.
      cbn [io_metrics set_io_metrics set_global completed_requests pending_requests
           global read_count read_bytes write_count write_bytes].
      refine (conj _ (conj _ (conj _ (conj _ (conj _ _)))));
        first [assumption | by apply Z.mod_pos_bound]. }
    change (0 - 0) with 0. split_and!; try done; by apply mod_small_same.
  - unfold Io.io_close. rewrite Hinit. cbn [negb accepts closes reads writes default].
    destruct (closed <? 0); cbn [negb]; [by apply Hsame|].
    cbn [fst snd set_io_metrics io_initialized io_metrics completed_requests
         pending_requests global read_count read_bytes write_count write_bytes].
    split; [done|]. split.
    { unfold io_counters_in_range.
      cbn [io_metrics set_io_metrics set_global completed_requests pending_requests
           global read_count read_bytes write_count write_bytes].
      refine (conj _ (conj _ (conj _ (conj _ (conj _ _)))));
        first [assumption | by apply Z.mod_pos_bound]. }
    change (0 - 1) with (-1). split_and!; try done; by apply mod_small_same.
  - unfold Io.io_set_scheduling_policy. rewrite Hinit.
    cbn [negb snd accepts closes reads writes default]. by apply Hsame.
Qed.

Lemma io_run_counters (ops : list io_op) st :
  io_initialized st = true →
  io_counters_in_range st →
  let st' := run_io_ops st ops in
  io_initialized st' = true
  ∧ completed_requests (io_metrics st')
    = (completed_requests (io_metrics st) + count_ops closes ops) mod uint32_modulus
  ∧ pending_requests (io_metrics st')
    = (pending_requests (io_metrics st) + (count_ops accepts ops - count_ops closes ops))
      mod uint32_modulus
  ∧ read_count (global (io_metrics st'))
    = (read_count (global (io_metrics st)) + count_some reads ops) mod uint64_modulus
  ∧ read_bytes (global (io_metrics st'))
    = (read_bytes (global (io_metrics st)) + sum_bytes reads ops) mod uint64_modulus
  ∧ write_count (global (io_metrics st'))
    = (write_count (global (io_metrics st)) + count_some writes ops) mod uint64_modulus
  ∧ write_bytes (global (io_metrics st'))
    = (write_bytes (global (io_metrics st)) + sum_bytes writes ops) mod uint64_modulus.
Proof.
  revert st. induction ops as [|op ops IH]; intros st Hinit Hrange.
  - destruct Hrange as (R1 & R2 & R3 & R4 & R5 & R6).
    split; [done|]. change (count_ops accepts [] - count_ops closes []) with 0.
    split_and!; try done; by apply mod_small_same.
  - destruct (io_step_counters st op Hinit Hrange)
      as (Hi & Hr & S1 & S2 & S3 & S4 & S5 & S6).
    destruct (IH (run_io_op st op) Hi Hr) as (Hi' & T1 & T2 & T3 & T4 & T5 & T6).
    cbv zeta. unfold run_io_ops in *. cbn [foldl].
    split; [done|].
    rewrite T1, T2, T3, T4, T5, T6, S1, S2, S3, S4, S5, S6.
    rewrite !Zplus_mod_idemp_l.
    rewrite !count_ops_cons, !count_some_cons, !sum_bytes_cons.
    split_and!; f_equal; lia.
Qed.

(** X25: what the I/O counters count. After [io_init] and any sequence
    of calls of the interface, whatever the system calls return,
    [completed_requests] is the number of successful [io_close] calls
    and [pending_requests] the number of successful
    [io_accept_connection] calls minus that number, both modulo 2^32
    (closing a descriptor that was not accepted through the subsystem
    takes [pending_requests] below zero, to 2^32 - 1); [read_count] and
    [read_bytes] are the number of successful [io_read] calls and the
    sum of what [read] returned modulo 2^64, and likewise for writes. *)
Theorem io_counters_track_calls (st0 : io_state_t) (ops : list io_op) :
  io_initialized st0 = false →
  let m := io_metrics (run_io_ops (snd (Io.io_init st0)) ops) in
  completed_requests m = count_ops closes ops mod uint32_modulus
  ∧ pending_requests m
    = (count_ops accepts ops - count_ops closes ops) mod uint32_modulus
  ∧ read_count (global m) = count_some reads ops mod uint64_modulus
  ∧ read_bytes (global m) = sum_bytes reads ops mod uint64_modulus
  ∧ write_count (global m) = count_some writes ops mod uint64_modulus
  ∧ write_bytes (global m) = sum_bytes writes ops mod uint64_modulus.
Proof.
  intros Hinit m. subst m.
  assert (Hstart : snd (Io.io_init st0)
                   = mk_io_state true zero_io_metrics IO_SCHED_FIFO 1 1 1).
  { unfold Io.io_init. by rewrite Hinit. }
  rewrite Hstart.
  assert (Hrange : io_counters_in_range
                     (mk_io_state true zero_io_metrics IO_SCHED_FIFO 1 1 1)).
  { unfold io_counters_in_range. simpl. unfold uint32_modulus, uint64_modulus. lia. }
  destruct (io_run_counters ops (mk_io_state true zero_io_metrics IO_SCHED_FIFO 1 1 1)
              eq_refl Hrange) as (_ & T1 & T2 & T3 & T4 & T5 & T6).
  rewrite T1, T2, T3, T4, T5, T6. simpl. done.
Qed.

Lemma io_counters_track_calls_witness :
  pending_requests
    (io_metrics (run_io_ops (snd (Io.io_init io_state_zero))
       [IoAccept (Some 0) (mk_syscall 5 false);
        IoRead true (Some 0) (mk_syscall 120 false);
        IoClose 0; IoClose 0]))
  = 4294967295.
Proof.
  destruct (io_counters_track_calls io_state_zero
              [IoAccept (Some 0) (mk_syscall 5 false);
               IoRead true (Some 0) (mk_syscall 120 false);
               IoClose 0; IoClose 0] eq_refl) as (_ & -> & _).
  reflexivity.
Defined.

(** X26: what the engine sees of the I/O subsystem. With the memory
    and scheduler providers answering, a collection on an initialized
    engine succeeds for every state of the I/O subsystem. When the
    subsystem was initialized and then used, the [io_operations] the
    engine records is the number of successful [io_close] calls modulo
    2^32: reads, writes and accepts do not enter it. When the subsystem
    was never initialized, [io_operations] is 0. *)
Theorem collection_counts_closed_descriptors (P : platform) (e : ai_engine_t)
    (m : performance_metrics_t) (st0 : io_state_t) (ops : list io_op)
    (local : io_metrics_t) :
  ai_initialized (ai_state e) = true →
  fst (memory_get_metrics P) = ERROR_NONE →
  fst (scheduler_get_metrics P) = ERROR_NONE →
  io_initialized st0 = false →
  let used := run_io_ops (snd (Io.io_init st0)) ops in
  let r := ai_engine_collect_metrics (with_io P used local) e (Some m) in
  let r0 := ai_engine_collect_metrics (with_io P st0 local) e (Some m) in
  fst (fst r) = ERROR_NONE
  ∧ pm_io_operations (last_metrics (ai_state (snd (fst r))))
    = count_ops closes ops mod uint32_modulus
  ∧ fst (fst r0) = ERROR_NONE
  ∧ pm_io_operations (last_metrics (ai_state (snd (fst r0)))) = 0.
Proof.
  intros Hinit Hmem Hsched Hio used r r0.
  assert (Hstart : snd (Io.io_init st0)
                   = mk_io_state true zero_io_metrics IO_SCHED_FIFO 1 1 1).
  { unfold Io.io_init. by rewrite Hio. }
  assert (Hrange : io_counters_in_range
                     (mk_io_state true zero_io_metrics IO_SCHED_FIFO 1 1 1)).
  { unfold io_counters_in_range. simpl. unfold uint32_modulus, uint64_modulus. lia. }
  destruct (io_run_counters ops (mk_io_state true zero_io_metrics IO_SCHED_FIFO 1 1 1)
              eq_refl Hrange) as (Hused & Hcompleted & _).
  rewrite <- Hstart in Hused, Hcompleted. fold used in Hused, Hcompleted.
  rewrite Hstart in Hcompleted. cbn in Hcompleted.
  subst r r0. unfold ai_engine_collect_metrics. rewrite Hinit. cbn [negb].
  cbn [with_io memory_get_metrics scheduler_get_metrics io_get_metrics].
  destruct (memory_get_metrics P) as [err1 mm].
  destruct (scheduler_get_metrics P) as [err2 sm].
  cbn [fst] in Hmem, Hsched. subst err1 err2.
  rewrite !bool_decide_eq_false_2 by (intros H; by apply H).
  unfold io_provider, Io.io_get_metrics. rewrite Hused, Hio. cbn [negb default].
  rewrite bool_decide_eq_false_2 by (intros H; by apply H).
  rewrite bool_decide_eq_true_2 by done.
  cbn. by rewrite Hcompleted.
Qed.

Lemma collection_counts_closed_descriptors_witness :
  pm_io_operations
    (last_metrics (ai_state (snd (fst
       (ai_engine_collect_metrics
          (with_io scenario_a
             (run_io_ops (snd (Io.io_init io_state_zero))
                [IoAccept (Some 0) (mk_syscall 5 false);
                 IoRead true (Some 0) (mk_syscall 120 false);
                 IoWrite true (Some 0) (mk_syscall 300 false);
                 IoClose 0])
             zero_io_metrics)
          ai_ready (Some zero_metrics))))))
  = 1.
Proof.
  destruct (collection_counts_closed_descriptors scenario_a ai_ready zero_metrics
              io_state_zero
              [IoAccept (Some 0) (mk_syscall 5 false);
               IoRead true (Some 0) (mk_syscall 120 false);
               IoWrite true (Some 0) (mk_syscall 300 false);
               IoClose 0]
              zero_io_metrics eq_refl eq_refl eq_refl eq_refl) as (_ & -> & _).
  reflexivity.
Defined.

(** ** The process profiles *)

(** What the profile table keeps: the count within the capacity, the
    1024 slots, and no I/O intensity in the profiles in use. *)
Lemma profile_step tb op :
  0 ≤ process_profile_count tb ≤ 1024 →
  length (process_profiles tb) = 1024%nat →
  (∀ slot profile, Z.of_nat slot < process_profile_count tb →
     process_profiles tb !! slot = Some profile → io_intensity profile = zero) →
  let tb' := run_profile_op tb op in
  process_profile_count tb'
    = Z.min 1024 (process_profile_count tb + (if asks_profile op then 1 else 0))
  ∧ length (process_profiles tb') = 1024%nat
  ∧ (∀ slot profile, Z.of_nat slot < process_profile_count tb' →
       process_profiles tb' !! slot = Some profile → io_intensity profile = zero).
Proof.
  intros Hcount Hlen Hio. destruct op as [e process|e process]; cbn [run_profile_op].
  - unfold ai_engine_create_process_profile. cbn [asks_profile].
    destruct (ai_initialized (ai_state e)); cbn [negb].
    2: { destruct process; cbn [fst snd]; (split; [lia|done]). }
    destruct process as [p|]; cbn [fst snd]; [|split; [lia|done]].
    unfold MAX_PROCESSES.
    destruct (Z.geb_spec (process_profile_count tb) 1024) as [Hfull|Hroom];
      cbn [fst snd process_profile_count process_profiles].
    { split; [lia|done]. }
    assert (Hnext : (process_profile_count tb + 1) mod uint32_modulus
                    = process_profile_count tb + 1).
    { apply Z.mod_small. unfold uint32_modulus. lia. }
    rewrite Hnext. split; [lia|]. split; [by rewrite length_insert|].
    intros slot profile Hslot Hlook.
    destruct (decide (slot = Z.to_nat (process_profile_count tb))) as [->|Hne].
    + rewrite list_lookup_insert_eq in Hlook by lia.
      by injection Hlook as <-.
    + rewrite list_lookup_insert_ne in Hlook by done.
      apply (Hio slot); [lia|done].
  - unfold ai_engine_update_process_profile. cbn [asks_profile].
    rewrite Z.add_0_r, Z.min_r by lia.
    destruct (negb (ai_initialized (ai_state e))); [done|].
    destruct process as [p|]; [|done].
    destruct (ai_profile p) as [target|]; [|done].
    cbn [snd process_profile_count process_profiles].
    split; [done|]. split; [by rewrite length_alter|].
    intros slot profile Hslot Hlook.
    destruct (decide (slot = target)) as [->|Hne].
    + rewrite list_lookup_alter_eq in Hlook.
      destruct (process_profiles tb !! target) as [old|] eqn:Hold; [|done].
      injection Hlook as <-. cbn [update_profile io_intensity].
      by apply (Hio target).
    + rewrite list_lookup_alter_ne in Hlook by done. by apply (Hio slot).
Qed.

Lemma profile_requests_cons op ops :
  profile_requests (op :: ops)
  = (if asks_profile op then 1 else 0) + profile_requests ops.
Proof.
  unfold profile_requests. destruct (asks_profile op) eqn:Hop.
  - rewrite filter_cons_True by done. cbn [length]. lia.
  - rewrite filter_cons_False by (rewrite Hop; done). lia.
Qed.

Lemma profile_requests_nonneg ops : 0 ≤ profile_requests ops.
Proof. unfold profile_requests. lia. Qed.

Lemma profile_run (ops : list profile_op) tb :
  0 ≤ process_profile_count tb ≤ 1024 →
  length (process_profiles tb) = 1024%nat →
  (∀ slot profile, Z.of_nat slot < process_profile_count tb →
     process_profiles tb !! slot = Some profile → io_intensity profile = zero) →
  let tb' := run_profile_ops tb ops in
  process_profile_count tb'
    = Z.min 1024 (process_profile_count tb + profile_requests ops)
  ∧ length (process_profiles tb') = 1024%nat
  ∧ (∀ slot profile, Z.of_nat slot < process_profile_count tb' →
       process_profiles tb' !! slot = Some profile → io_intensity profile = zero).
Proof.
  revert tb. induction ops as [|op ops IH]; intros tb Hcount Hlen Hio.
  - cbv zeta. unfold run_profile_ops, profile_requests. cbn [foldl filter length].
    split; [|done]. cbn. lia.
  - destruct (profile_step tb op Hcount Hlen Hio) as (Hc & Hl & Hi).
    assert (Hcount' : 0 ≤ process_profile_count (run_profile_op tb op) ≤ 1024).
    { rewrite Hc. destruct (asks_profile op); lia. }
    destruct (IH (run_profile_op tb op) Hcount' Hl Hi) as (Hc' & Hl' & Hi').
    cbv zeta. unfold run_profile_ops in *. cbn [foldl].
    split; [|done]. rewrite Hc', Hc, profile_requests_cons.
    pose proof (profile_requests_nonneg ops). destruct (asks_profile op); lia.
Qed.

(** X27: the profile table fills up and never drains. Starting from
    the table of 1024 slots that [ai_engine_init] allocates, after any
    sequence of profile creations and updates the profile count is the
    number of creation requests made with a process on an initialized
    engine, capped at 1024: no call lowers it. Once 1024 such requests
    were made, every further creation returns [ERROR_RESOURCE_BUSY] and
    leaves the table and the process as they were, so that process has
    no profile. *)
Theorem profile_table_fills_up (slots : list process_ai_profile_t)
    (ops : list profile_op) (e : ai_engine_t) (p : process_t) :
  length slots = 1024%nat →
  let tb := run_profile_ops (empty_table slots) ops in
  process_profile_count tb = Z.min 1024 (profile_requests ops)
  ∧ length (process_profiles tb) = 1024%nat
  ∧ (1024 ≤ profile_requests ops →
     ai_initialized (ai_state e) = true →
     ai_engine_create_process_profile e tb (Some p) = (ERROR_RESOURCE_BUSY, tb, Some p)).
Proof.
  intros Hlen tb.
  assert (Hcount0 : 0 ≤ process_profile_count (empty_table slots) ≤ 1024)
    by (simpl; lia).
  assert (Hio0 : ∀ slot profile,
            Z.of_nat slot < process_profile_count (empty_table slots) →
            process_profiles (empty_table slots) !! slot = Some profile →
            io_intensity profile = zero) by (simpl; intros; lia).
  destruct (profile_run ops (empty_table slots) Hcount0 Hlen Hio0) as (Hc & Hl & _).
  fold tb in Hc, Hl. cbn [empty_table process_profile_count] in Hc.
  rewrite Z.add_0_l in Hc.
  split; [done|]. split; [done|].
  intros Hfull Hinit. unfold ai_engine_create_process_profile.
  rewrite Hinit, Hc. cbn [negb]. unfold MAX_PROCESSES.
  by rewrite Z.min_l by lia.
Qed.

Lemma profile_table_fills_up_witness :
  process_profile_count
    (run_profile_ops (empty_table (replicate 1024 (mk_profile 0 0 0 0 0 0 zero zero zero 0 0)))
       [ProfCreate ai_ready (Some (sample_process 1));
        ProfUpdate ai_ready (Some (set_ai_profile (sample_process 1) (Some 0%nat)));
        ProfCreate ai_ready None;
        ProfCreate ai_ready (Some (sample_process 2))])
  = 2.
Proof.
  assert (Hlen : length (replicate 1024 (mk_profile 0 0 0 0 0 0 zero zero zero 0 0))
                 = 1024%nat) by apply length_replicate.
  destruct (profile_table_fills_up _
              [ProfCreate ai_ready (Some (sample_process 1));
               ProfUpdate ai_ready (Some (set_ai_profile (sample_process 1) (Some 0%nat)));
               ProfCreate ai_ready None;
               ProfCreate ai_ready (Some (sample_process 2))]
              ai_ready (sample_process 1) Hlen) as (-> & _).
  reflexivity.
Defined.

(** X28: the I/O-bound branch of the profile update is never taken.
    No function writes [io_intensity] after the creation sets it to
    zero, so in every table reached from the initial one, for every
    profile in use, [ai_engine_update_process_profile] either classes
    the process CPU-bound (time slice 20, priority one step lower
    unless it is 31 already) or leaves the optimal priority and sets
    the default time slice 10: it never raises a priority and never
    chooses the time slice 5. *)
Theorem io_bound_branch_never_taken (slots : list process_ai_profile_t)
    (ops : list profile_op) (e : ai_engine_t) (p : process_t) (slot : nat)
    (profile : process_ai_profile_t) :
  length slots = 1024%nat →
  let tb := run_profile_ops (empty_table slots) ops in
  Z.of_nat slot < process_profile_count tb →
  process_profiles tb !! slot = Some profile →
  let updated := update_profile e p profile in
  io_intensity profile = zero
  ∧ io_intensity updated = zero
  ∧ ((ltb f0_8 (cpu_intensity updated) = true
      ∧ optimal_time_slice updated = 20
      ∧ optimal_priority updated
        = (if priority p <? 31 then priority p + 1 else priority p))
     ∨ (ltb f0_8 (cpu_intensity updated) = false
        ∧ optimal_time_slice updated = 10
        ∧ optimal_priority updated = optimal_priority profile)).
Proof.
  intros Hlen tb Hslot Hlook updated.
  assert (Hcount0 : 0 ≤ process_profile_count (empty_table slots) ≤ 1024)
    by (simpl; lia).
  assert (Hio0 : ∀ slot profile,
            Z.of_nat slot < process_profile_count (empty_table slots) →
            process_profiles (empty_table slots) !! slot = Some profile →
            io_intensity profile = zero) by (simpl; intros; lia).
  destruct (profile_run ops (empty_table slots) Hcount0 Hlen Hio0) as (_ & _ & Hio).
  specialize (Hio slot profile Hslot Hlook).
  split; [done|]. split; [done|].
  subst updated. unfold update_profile.
  cbn [cpu_intensity optimal_time_slice optimal_priority].
  rewrite Hio.
  change (ltb f0_8 zero) with false.
  change (MAX_PRIORITY_LEVELS - 1) with 31.
  destruct (ltb f0_8 _); [left|right]; done.
Qed.

Lemma io_bound_branch_never_taken_witness :
  optimal_time_slice
    (update_profile ai_ready (sample_process 1)
       (mk_profile 1 0 0 0 0 0 zero zero zero 7 10))
  = 20.
Proof.
  assert (Hlen : length (replicate 1024 (mk_profile 0 0 0 0 0 0 zero zero zero 0 0))
                 = 1024%nat) by apply length_replicate.
  assert (Hslot : Z.of_nat 0
                  < process_profile_count
                      (run_profile_ops
                         (empty_table
                            (replicate 1024 (mk_profile 0 0 0 0 0 0 zero zero zero 0 0)))
                         [ProfCreate ai_ready (Some (sample_process 1))]))
    by reflexivity.
  destruct (io_bound_branch_never_taken _
              [ProfCreate ai_ready (Some (sample_process 1))]
              ai_ready (sample_process 1) 0 (mk_profile 1 0 0 0 0 0 zero zero zero 7 10)
              Hlen Hslot eq_refl) as (_ & _ & [(_ & H & _)|(H & _)]).
  - exact H.
  - vm_compute in H. discriminate H.
Defined.

(** ** Model versions *)

Lemma run_op_keeps_initialized e op :
  ai_initialized (ai_state e) = true →
  ai_initialized (ai_state (run_ai_op e op)) = true.
Proof.
  intros Hinit. destruct op as [profiles_ok model_ok|t data size alloc_ok
                                |P metrics|P metrics| |t]; cbn [run_ai_op].
  - unfold ai_engine_init. by rewrite Hinit.
  - unfold ai_engine_load_model. rewrite Hinit. cbn [negb].
    destruct data; [|done]. destruct (size =? 0); [done|]. by destruct alloc_ok.
  - unfold ai_engine_collect_metrics. rewrite Hinit. cbn [negb].
    destruct metrics as [m|]; [|done].
    destruct (memory_get_metrics P) as [err1 mm].
    destruct (bool_decide (err1 ≠ ERROR_NONE)); [done|].
    destruct (scheduler_get_metrics P) as [err2 sm].
    destruct (bool_decide (err2 ≠ ERROR_NONE)); [done|].
    by destruct (io_get_metrics P).
  - unfold ai_engine_analyze_performance. rewrite Hinit. cbn [negb].
    destruct metrics as [m|]; [|done].
    destruct (negb (memory_allocate P AllocSuggestions)); [done|].
    by destruct (ltb f0_5 _), (ltb f100 _), ((pm_io_operations m >? 1000) && _).
  - unfold ai_engine_learn_from_history. by rewrite Hinit.
  - unfold ai_engine_generate_new_model. by rewrite Hinit.
Qed.

Lemma analysis_models_versions (ms : list ai_model_t) (l : list nat) :
  version <$> foldl (λ ms i, alter (placeholder_accuracy i) i ms) ms l
  = version <$> ms.
Proof.
  revert ms. induction l as [|i l IH]; intros ms; [done|].
  cbn [foldl]. rewrite IH. by apply fmap_alter_same.
Qed.

Lemma learn_keeps_versions e :
  version <$> models (snd (ai_engine_learn_from_history e)) = version <$> models e.
Proof.
  unfold ai_engine_learn_from_history.
  destruct (negb (ai_initialized (ai_state e))); [done|].
  cbn [snd models]. rewrite learn_loop_reads.
  generalize (omap (λ i, oh_entries (history (ai_state e)) !! (i mod 100)%nat)
                (seq 0 (Z.to_nat (oh_entry_count (history (ai_state e)))))).
  intros l. generalize (models e). induction l as [|entry l IH]; intros ms; [done|].
  cbn [foldl]. rewrite IH. unfold learn_entry.
  destruct (suggestion_model _); [|done]. by apply fmap_alter_same.
Qed.

Lemma version_after_alter (f : ai_model_t → ai_model_t) (ms : list ai_model_t)
    (t' t : ai_model_type_t) (v : Z) :
  (version <$> ms) !! model_index t = Some v →
  (version <$> alter f (model_index t') ms) !! model_index t
  = if bool_decide (t' = t)
    then version <$> (f <$> ms !! model_index t)
    else Some v.
Proof.
  intros Hv. rewrite list_lookup_fmap in *.
  destruct (decide (t' = t)) as [->|Hne].
  - rewrite bool_decide_eq_true_2 by done. by rewrite list_lookup_alter_eq.
  - rewrite bool_decide_eq_false_2 by done.
    rewrite list_lookup_alter_ne; [done|].
    intros Heq. by apply Hne, model_index_inj.
Qed.

Lemma version_step e op t v :
  ai_initialized (ai_state e) = true →
  (version <$> models e) !! model_index t = Some v →
  (version <$> models (run_ai_op e op)) !! model_index t
  = Some (if bumps_version t op then (v + 1) mod uint32_modulus else v).
Proof.
  intros Hinit Hv.
  assert (Hm : ∃ m, models e !! model_index t = Some m ∧ version m = v).
  { rewrite list_lookup_fmap in Hv. destruct (models e !! model_index t) as [m|]; [|done].
    exists m. split; [done|]. by injection Hv. }
  destruct Hm as (m & Hm & Hmv).
  destruct op as [profiles_ok model_ok|t' data size alloc_ok
                  |P metrics|P metrics| |t']; cbn [run_ai_op bumps_version].
  - unfold ai_engine_init. by rewrite Hinit.
  - unfold ai_engine_load_model. rewrite Hinit. cbn [negb].
    destruct data as [bytes|]; [|done].
    destruct (size =? 0); cbn [negb]; [by rewrite andb_false_r|].
    rewrite andb_true_r.
    destruct alloc_ok; cbn [negb snd models];
      rewrite (version_after_alter _ _ t' t v Hv), Hm;
      destruct (bool_decide (t' = t)); cbn; by rewrite ?Hmv.
  - by rewrite (proj2 (collect_keeps_history P e metrics)).
  - unfold ai_engine_analyze_performance. rewrite Hinit. cbn [negb].
    destruct metrics as [m0|]; [|done].
    destruct (negb (memory_allocate P AllocSuggestions)); [done|].
    destruct (ltb f0_5 _), (ltb f100 _), ((pm_io_operations m0 >? 1000) && _);
      cbn [fst snd models]; by rewrite analysis_models_versions.
  - by rewrite learn_keeps_versions.
  - unfold ai_engine_generate_new_model. rewrite Hinit. cbn [negb snd models].
    rewrite (version_after_alter _ _ t' t v Hv), Hm.
    destruct (bool_decide (t' = t)); cbn; by rewrite ?Hmv.
Qed.

Lemma version_updates_cons t op ops :
  version_updates t (op :: ops)
  = (if bumps_version t op then 1 else 0) + version_updates t ops.
Proof.
  unfold version_updates. destruct (bumps_version t op) eqn:Hop.
  - rewrite filter_cons_True by done. cbn [length]. lia.
  - rewrite filter_cons_False by (rewrite Hop; done). lia.
Qed.

Lemma version_run (ops : list ai_op) e t v :
  ai_initialized (ai_state e) = true →
  0 ≤ v < uint32_modulus →
  (version <$> models e) !! model_index t = Some v →
  (version <$> models (run_ai_ops e ops)) !! model_index t
  = Some ((v + version_updates t ops) mod uint32_modulus).
Proof.
  revert e v. induction ops as [|op ops IH]; intros e v Hinit Hrange Hv.
  - unfold run_ai_ops, version_updates. cbn [foldl filter length].
    rewrite Hv. f_equal. rewrite Z.add_0_r. by rewrite Z.mod_small.
  - unfold run_ai_ops in *. cbn [foldl].
    pose proof (version_step e op t v Hinit Hv) as Hstep.
    pose proof (run_op_keeps_initialized e op Hinit) as Hinit'.
    rewrite version_updates_cons.
    destruct (bumps_version t op).
    + rewrite (IH _ ((v + 1) mod uint32_modulus) Hinit'
                 ltac:(apply Z.mod_pos_bound; reflexivity) Hstep).
      f_equal. rewrite Zplus_mod_idemp_l. f_equal. lia.
    + rewrite (IH _ v Hinit' Hrange Hstep). by rewrite Z.add_0_l.
Qed.

(** X29: what a model's version counts. After a successful
    [ai_engine_init] and any sequence of calls of the engine, the
    version of each model is 1 plus the number of successful
    [ai_engine_load_model] calls and of [ai_engine_generate_new_model]
    calls for its type, modulo 2^32: a load whose allocation fails, an
    analysis, a collection and a learning pass leave every version as
    it was. *)
Theorem model_version_counts_updates (e0 : ai_engine_t) (profiles_ok : bool)
    (model_ok : nat → bool) (ops : list ai_op) (t : ai_model_type_t) :
  ai_initialized (ai_state e0) = false →
  fst (ai_engine_init e0 profiles_ok model_ok) = ERROR_NONE →
  version
    <$> (models (run_ai_ops (snd (ai_engine_init e0 profiles_ok model_ok)) ops)
         !! model_index t)
  = Some ((1 + version_updates t ops) mod uint32_modulus).
Proof.
  intros Hinit Hok.
  assert (Hready : snd (ai_engine_init e0 profiles_ok model_ok) = ai_ready).
  { pose proof (init_builds_initial_engine_or_fails e0 profiles_ok model_ok Hinit) as H.
    cbv zeta in H. destruct (profiles_ok && forallb model_ok (seq 0 6)).
    - by rewrite H.
    - destruct H as (Herr & _). rewrite Herr in Hok. discriminate. }
  rewrite Hready, <- list_lookup_fmap.
  apply version_run; [done|done|by destruct t].
Qed.

Lemma model_version_counts_updates_witness :
  version
    <$> (models (run_ai_ops ai_ready
                   [AiLoadModel AI_MODEL_MEMORY (Some [1; 2; 3]) 3 true;
                    AiLoadModel AI_MODEL_MEMORY (Some [4; 5]) 2 false;
                    AiAnalyze scenario_a (Some zero_metrics);
                    AiGenerateNewModel AI_MODEL_MEMORY;
                    AiGenerateNewModel AI_MODEL_CODE])
         !! model_index AI_MODEL_MEMORY)
  = Some 3.
Proof.
  exact (model_version_counts_updates (ai system_zero) true (λ _, true)
           [AiLoadModel AI_MODEL_MEMORY (Some [1; 2; 3]) 3 true;
            AiLoadModel AI_MODEL_MEMORY (Some [4; 5]) 2 false;
            AiAnalyze scenario_a (Some zero_metrics);
            AiGenerateNewModel AI_MODEL_MEMORY;
            AiGenerateNewModel AI_MODEL_CODE]
           AI_MODEL_MEMORY eq_refl eq_refl).
Defined.
